(** * Fractal generation engine: escape-time, curve, subdivision and tree code

    A shallow embedding of the fractal modules (mandelbrot.py, julia.py,
    koch.py, sierpinski.py, arbol.py) and the properties stated about them.

    Conventions.
    - Python [int] is [Z].  Python [float] is any type carrying the
      operations of the class [PyFloat]; every function of the program is
      written once over that class.  Two instances are given: IEEE binary64
      ([float], what CPython computes, evaluated by the kernel) and the real
      numbers ([R], the idealisation used where a property is about exact
      arithmetic or about [math.log], [math.cos], [math.sin]).
    - A pygame surface is its size and the ordered list of drawing calls
      issued on it ([draw_op]).
    - A call has an [outcome]: it returns, an exception leaves it, or the
      fuel of the model runs out.  A [while] loop or a recursion on a Python
      integer takes the fuel as an argument; termination theorems give the
      fuel that suffices.
    - The module-level generator of [random] is an explicit state threaded
      through the calls. *)

From Stdlib Require Import String DecimalString ZArith List Bool Lia.
From Stdlib Require Import Floats Reals Lra Psatz.
Import ListNotations.

Local Open Scope Z_scope.

(** ** Python floats *)

Declare Scope py_scope.
Delimit Scope py_scope with py.

Class PyFloat (F : Type) : Type := {
  of_int : Z -> F;              (* float(n), and the int operand of mixed arithmetic *)
  fadd : F -> F -> F;
  fsub : F -> F -> F;
  fmul : F -> F -> F;
  fdiv : F -> F -> F;
  fopp : F -> F;                (* -x *)
  fabs : F -> F;                (* abs(x) *)
  fsqrt : F -> F;               (* math.sqrt(x) *)
  fleb : F -> F -> bool;        (* x <= y *)
  fltb : F -> F -> bool;        (* x < y *)
  round_int : F -> option Z;    (* int(round(x)); None: ValueError, OverflowError *)
  trunc_int : F -> option Z     (* int(x);        None: ValueError, OverflowError *)
}.

Class PyMath (F : Type) `{PyFloat F} : Type := {
  fcos : F -> F;                (* math.cos *)
  fsin : F -> F;                (* math.sin *)
  flog : F -> F;                (* math.log *)
  fpi : F                       (* math.pi *)
}.

Infix "+" := fadd : py_scope.
Infix "-" := fsub : py_scope.
Infix "*" := fmul : py_scope.
Infix "/" := fdiv : py_scope.
Notation "- x" := (fopp x) : py_scope.
Infix "<=?" := fleb : py_scope.
Infix "<?" := fltb : py_scope.

Section Numbers.
Context {F : Type} `{PyFloat F}.
Local Open Scope py_scope.

(** The decimal literal [m / 10^k], e.g. [dec 667 3] for [0.667].  Both
    operands are exact in binary64 for the literals of the program, so the
    correctly rounded quotient is the value of the literal. *)
Definition dec (m : Z) (k : Z) : F := of_int m / of_int (10 ^ k).

(** [max(a, b)] and [min(a, b)] on floats: the first argument is kept
    unless the second is strictly beyond it. *)
Definition fmax (a b : F) : F := if a <? b then b else a.
Definition fmin (a b : F) : F := if b <? a then b else a.

(** Python [complex]: a pair of floats. *)
Record complex : Type := Cx { re : F; im : F }.

Definition cadd (z w : complex) : complex :=
  Cx (re z + re w) (im z + im w).
Definition cmul (z w : complex) : complex :=
  Cx (re z * re w - im z * im w) (re z * im w + im z * re w).
(** [abs(z)] on a complex is the Euclidean norm (CPython calls [hypot],
    which in binary64 can differ from this formula in the last bit). *)
Definition cabs (z : complex) : F := fsqrt (re z * re z + im z * im z).
(** The integer [0] a loop starts [z] from, as a complex: [abs(0) = 0] and
    [0 * 0 + c = c] either way. *)
Definition czero : complex := Cx (of_int 0) (of_int 0).
End Numbers.

Arguments complex F : clear implicits.

Section Trigonometry.
Context {F : Type} `{PyMath F}.
Local Open Scope py_scope.
(** [math.radians(x)] *)
Definition radians (x : F) : F := x * (fpi / of_int 180).
End Trigonometry.

(** *** Instance: IEEE binary64 *)

Module Binary64.
(** [float(n)], correctly rounded. *)
Definition of_Z (z : Z) : float :=
  SF2Prim (binary_normalize prec emax z 0 false).

(** Nearest integer to [m * 2^e], ties to even ([round]). *)
Definition nearest_even (m e : Z) : Z :=
  if 0 <=? e then m * 2 ^ e
  else
    let d := 2 ^ (- e) in
    let q := m / d in
    let r := m mod d in
    if 2 * r <? d then q
    else if d <? 2 * r then q + 1
    else if Z.even q then q else q + 1.

(** Integer part of [m * 2^e] ([int]). *)
Definition toward_zero (m e : Z) : Z :=
  if 0 <=? e then m * 2 ^ e else m / 2 ^ (- e).

Definition signed (s : bool) (n : Z) : Z := if s then - n else n.

Definition to_int (rnd : Z -> Z -> Z) (x : float) : option Z :=
  match Prim2SF x with
  | S754_zero _ => Some 0
  | S754_infinity _ => None
  | S754_nan => None
  | S754_finite s m e => Some (signed s (rnd (Zpos m) e))
  end.

(** The real number a finite float stands for, as a fraction and as a real. *)
Definition fraction (x : float) : Z * Z :=
  match Prim2SF x with
  | S754_finite s m e =>
      if 0 <=? e then (signed s (Zpos m * 2 ^ e), 1)
      else (signed s (Zpos m), 2 ^ (- e))
  | _ => (0, 1)
  end.

Definition to_R (x : float) : R :=
  (IZR (fst (fraction x)) / IZR (snd (fraction x)))%R.

#[export] Instance float_PyFloat : PyFloat float := {
  of_int := of_Z;
  fadd := PrimFloat.add;
  fsub := PrimFloat.sub;
  fmul := PrimFloat.mul;
  fdiv := PrimFloat.div;
  fopp := PrimFloat.opp;
  fabs := PrimFloat.abs;
  fsqrt := PrimFloat.sqrt;
  fleb := PrimFloat.leb;
  fltb := PrimFloat.ltb;
  round_int := to_int nearest_even;
  trunc_int := to_int toward_zero
}.
End Binary64.
Export Binary64.

(** *** Instance: real numbers *)

Module Exact.
Definition Rleb (x y : R) : bool := if Rle_dec x y then true else false.
Definition Rltb (x y : R) : bool := if Rlt_dec x y then true else false.

Definition Rfloor (x : R) : Z := up x - 1.

Definition Rnearest_even (x : R) : Z :=
  let n := Rfloor x in
  if Rltb (x - IZR n) (1 / 2) then n
  else if Rltb (1 / 2) (x - IZR n) then n + 1
  else if Z.even n then n else n + 1.

Definition Rtoward_zero (x : R) : Z :=
  if Rleb 0 x then Rfloor x else - Rfloor (- x).

#[export] Instance R_PyFloat : PyFloat R := {
  of_int := IZR;
  fadd := Rplus;
  fsub := Rminus;
  fmul := Rmult;
  fdiv := Rdiv;
  fopp := Ropp;
  fabs := Rabs;
  fsqrt := sqrt;
  fleb := Rleb;
  fltb := Rltb;
  round_int := fun x => Some (Rnearest_even x);
  trunc_int := fun x => Some (Rtoward_zero x)
}.

#[export] Instance R_PyMath : PyMath R := {
  fcos := cos;
  fsin := sin;
  flog := ln;
  fpi := PI
}.
End Exact.
Export Exact.

(** ** Outcomes of calls *)

Inductive outcome (A : Type) : Type :=
| Done (a : A)      (* the call returned [a] *)
| Raised            (* an exception left the call *)
| OutOfFuel.        (* the fuel of the model ran out *)

Arguments Done {A} a.
Arguments Raised {A}.
Arguments OutOfFuel {A}.

Definition bind {A B : Type} (o : outcome A) (k : A -> outcome B) : outcome B :=
  match o with
  | Done a => k a
  | Raised => Raised
  | OutOfFuel => OutOfFuel
  end.

Notation "x <- e ;; k" := (bind e (fun x => k))
  (at level 61, e at next level, right associativity).
Notation "' p <- e ;; k" := (bind e (fun x => let p := x in k))
  (at level 61, p pattern, e at next level, right associativity).

(** A conversion that raises where the option is empty. *)
Definition raising {A : Type} (o : option A) : outcome A :=
  match o with
  | Some a => Done a
  | None => Raised
  end.

(** [try: body except ...: handler] *)
Definition try_except {A : Type} (body handler : outcome A) : outcome A :=
  match body with
  | Raised => handler
  | _ => body
  end.

(** ** Python sequences *)

(** [range(n)] *)
Definition range (n : Z) : list Z := map Z.of_nat (seq 0 (Z.to_nat n)).

(** [l[i]], negative indices counting from the end; None: IndexError. *)
Definition py_nth {A : Type} (l : list A) (i : Z) : option A :=
  let n := Z.of_nat (length l) in
  if (0 <=? i) && (i <? n) then nth_error l (Z.to_nat i)
  else if (- n <=? i) && (i <? 0) then nth_error l (Z.to_nat (n + i))
  else None.

(** [str(n)] *)
Definition str (n : Z) : string := NilZero.string_of_int (Z.to_int n).

(** ** The drawing surface *)

Definition point : Type := Z * Z.
Definition color : Type := list Z.       (* an RGB or RGBA tuple *)

(** The calls the fractal modules issue on a surface. *)
Inductive draw_op : Type :=
| Fill (c : color)                                     (* surface.fill *)
| Line (c : color) (a b : point) (width : Z)           (* pygame.draw.line *)
| Polygon (c : color) (pts : list point) (width : Z)   (* pygame.draw.polygon; width 0: filled *)
| SetAt (p : point) (c : color)                        (* surface.set_at *)
| Blit (text : string) (c : color) (p : point).        (* font.render, surface.blit *)

(** A loop whose body draws: the calls of all rounds, in order. *)
Fixpoint for_each {A : Type} (l : list A) (body : A -> outcome (list draw_op))
  : outcome (list draw_op) :=
  match l with
  | [] => Done []
  | a :: l' =>
      ops <- body a ;;
      rest <- for_each l' body ;;
      Done (ops ++ rest)
  end.

Module ColorScheme.
Definition WHITE : color := [255; 255; 255].
Definition GREEN : color := [0; 255; 0].
Definition CYAN : color := [0; 255; 255].
Definition WARNING : color := [255; 180; 0].
End ColorScheme.

(** ** The random module *)

(** The generator behind [random]: a state, reseeding, and one raw draw.
    The calls of the module reduce a raw draw to their documented range. *)
Record Generator : Type := {
  gstate : Type;
  gseed : Z -> gstate;               (* random.seed(n) *)
  gnext : gstate -> Z * gstate       (* one raw draw *)
}.

Section Random.
Context {F : Type} `{PyFloat F} {G : Generator}.
Local Open Scope py_scope.

(** [random.random()], in [[0, 1)] *)
Definition random (g : gstate G) : F * gstate G :=
  let '(r, g') := gnext G g in
  (of_int (r mod 2 ^ 53) / of_int (2 ^ 53), g').

(** [random.uniform(a, b)] *)
Definition uniform (a b : F) (g : gstate G) : F * gstate G :=
  let '(u, g') := random g in
  (a + (b - a) * u, g').

(** [random.choice(seq)] on a non-empty sequence ([d] is never returned
    then). *)
Definition choice {A : Type} (d : A) (l : list A) (g : gstate G) : A * gstate G :=
  let '(r, g') := gnext G g in
  (nth (Z.to_nat (r mod Z.of_nat (length l))) l d, g').

(** [random.randint(a, b)], in [[a, b]] *)
Definition randint (a b : Z) (g : gstate G) : Z * gstate G :=
  let '(r, g') := gnext G g in
  ((a + r mod (b - a + 1))%Z, g').
End Random.

(** A generator that replays a tape of raw draws and then draws zeros;
    seeding loads a tape made from the seed. *)
Definition tape : Generator := {|
  gstate := list Z;
  gseed := fun s => [s; s + 1; s + 2; s + 3];
  gnext := fun g => match g with
                    | [] => (0, [])
                    | r :: g' => (r, g')
                    end
|}.

(** ** mandelbrot.py *)

Section Escape.
Context {F : Type} `{PyFloat F}.
Local Open Scope py_scope.

(** The loop [while abs(z) <= 2 and n < max_iter: z = z*z + c; n += 1],
    one unit of fuel per evaluation of the loop test.  It yields the final
    [z] and [n]. *)
Fixpoint escape_loop (fuel : nat) (c : complex F) (max_iter : Z)
         (z : complex F) (n : Z) : outcome (complex F * Z) :=
  match fuel with
  | O => OutOfFuel
  | S fuel' =>
      if (cabs z <=? of_int 2) && (n <? max_iter)%Z
      then escape_loop fuel' c max_iter (cadd (cmul z z) c) (n + 1)%Z
      else Done (z, n)
  end.

Definition mandelbrot_iteration (fuel : nat) (c : complex F) (max_iter : Z)
  : outcome Z :=
  zn <- escape_loop fuel c max_iter czero 0%Z ;;
  Done (snd zn).
End Escape.

Inductive palette : Type :=
| DefaultPalette     (* "default" and every other string *)
| FirePalette        (* "fire" *)
| OceanPalette       (* "ocean" *)
| PsychedelicPalette. (* "psychedelic" *)

Section Mandelbrot.
Context {F : Type} `{PyMath F}.
Local Open Scope py_scope.

(** [mandelbrot_smooth(c, max_iter)]; the integer [max_iter] it returns for
    a point that does not escape is given as a float. *)
Definition mandelbrot_smooth (fuel : nat) (c : complex F) (max_iter : Z)
  : outcome F :=
  zn <- escape_loop fuel c max_iter czero 0%Z ;;
  let z := fst zn in
  let n := snd zn in
  if (n <? max_iter)%Z then
    let smooth_n := of_int (n + 1) - flog (flog (cabs z)) / flog (of_int 2) in
    Done smooth_n
  else Done (of_int max_iter).

(** [get_color_palette(iteration, max_iter, palette_type)] *)
Definition get_color_palette (iteration max_iter : Z) (palette_type : palette)
  : outcome color :=
  if (max_iter <=? iteration)%Z then Done [0; 0; 0]%Z
  else
    let t := of_int iteration / of_int max_iter in
    match palette_type with
    | FirePalette =>
        if t <? dec 5 1 then
          r <- raising (trunc_int (of_int 255 * (of_int 2 * t))) ;;
          g <- raising (trunc_int (of_int 255 * ((of_int 2 * t) * (of_int 2 * t)))) ;;
          Done [r; g; 0%Z]
        else
          b <- raising (trunc_int (of_int 255 * (of_int 2 * t - of_int 1))) ;;
          Done [255; 255; b]%Z
    | OceanPalette =>
        r <- raising (trunc_int (t * of_int 100)) ;;
        g <- raising (trunc_int (t * of_int 200)) ;;
        b <- raising (trunc_int (of_int 255 * (dec 5 1 + dec 5 1 * t))) ;;
        Done [r; g; b]
    | PsychedelicPalette =>
        r <- raising (trunc_int (of_int 128 + of_int 127 * fsin (t * fpi * of_int 4))) ;;
        g <- raising (trunc_int (of_int 128 + of_int 127 * fsin (t * fpi * of_int 4 + of_int 2))) ;;
        b <- raising (trunc_int (of_int 128 + of_int 127 * fsin (t * fpi * of_int 4 + of_int 4))) ;;
        Done [r; g; b]
    | DefaultPalette =>
        intensity <- raising (trunc_int (of_int 255 * t)) ;;
        Done [intensity; intensity / 2; 255 - intensity]%Z
    end.

(** [max_iter = max(10, min(iterations, 1000))] of [mandelbrot_optimized],
    and the same line of [mandelbrot_basic] and [mandelbrot_julia_morph]. *)
Definition optimized_max_iter (iterations : Z) : Z := Z.max 10 (Z.min iterations 1000).
Definition basic_max_iter (iterations : Z) : Z := Z.max 10 (Z.min iterations 500).
Definition morph_max_iter (iterations : Z) : Z := Z.max 10 (Z.min iterations 200).

(** The region of the complex plane: [(x_min, x_max, y_min, y_max)]. *)
Definition region (zoom offset_x offset_y : F) : F * F * F * F :=
  (- dec 25 1 / zoom + offset_x, dec 15 1 / zoom + offset_x,
   - dec 15 1 / zoom + offset_y, dec 15 1 / zoom + offset_y).

(** [np.linspace(start, stop, num)[i]] *)
Definition linspace (start stop : F) (num i : Z) : F :=
  if (1 <? num)%Z then
    if (i =? num - 1)%Z then stop
    else of_int i * ((stop - start) / of_int (num - 1)) + start
  else of_int i * (stop - start) + start.

(** One pixel of the vectorised loop
    [for i in range(max_iter): mask = np.abs(Z) <= 2;
     Z[mask] = Z[mask]**2 + C[mask]; M[mask] = i]:
    the rounds left, the round [i], the pixel's [Z] and [M]. *)
Fixpoint masked_rounds (rounds : nat) (i : Z) (c z : complex F) (m : Z) : Z :=
  match rounds with
  | O => m
  | S rounds' =>
      if cabs z <=? of_int 2
      then masked_rounds rounds' (i + 1)%Z c (cadd (cmul z z) c) i
      else masked_rounds rounds' (i + 1)%Z c z m
  end.

(** [mandelbrot_optimized(surface, iterations, zoom, offset_x, offset_y,
    palette)], the numpy path; [numpy] is imported with the module, so the
    [ImportError] fallback is never taken. *)
Definition mandelbrot_optimized (width height : Z) (iterations : Z)
           (zoom offset_x offset_y : F) (pal : palette) : outcome (list draw_op) :=
  let max_iter := optimized_max_iter iterations in
  let '(x_min, x_max, y_min, y_max) := region zoom offset_x offset_y in
  for_each (range height) (fun y_pixel =>
    for_each (range width) (fun x_pixel =>
      let c := Cx (linspace x_min x_max width x_pixel)
                  (linspace y_min y_max height y_pixel) in
      let m := masked_rounds (Z.to_nat max_iter) 0%Z c czero 0%Z in
      col <- get_color_palette m max_iter pal ;;
      Done [SetAt (x_pixel, y_pixel) col])).

(** [mandelbrot_basic(surface, iterations, zoom, offset_x, offset_y, palette)] *)
Definition mandelbrot_basic (fuel : nat) (width height : Z) (iterations : Z)
           (zoom offset_x offset_y : F) (pal : palette) : outcome (list draw_op) :=
  let max_iter := basic_max_iter iterations in
  let '(x_min, x_max, y_min, y_max) := region zoom offset_x offset_y in
  for_each (range width) (fun x_pixel =>
    for_each (range height) (fun y_pixel =>
      let real := x_min + (x_max - x_min) * of_int x_pixel / of_int width in
      let imag := y_min + (y_max - y_min) * of_int y_pixel / of_int height in
      let c := Cx real imag in
      iter_count <- mandelbrot_iteration fuel c max_iter ;;
      col <- get_color_palette iter_count max_iter pal ;;
      Done [SetAt (x_pixel, y_pixel) col])).

(** [mandelbrot_julia_morph(surface, iterations, morph_factor)] *)
Definition mandelbrot_julia_morph (fuel : nat) (width height : Z) (iterations : Z)
           (morph_factor : F) : outcome (list draw_op) :=
  let max_iter := morph_max_iter iterations in
  let julia_c := Cx (- dec 7 1 + morph_factor * dec 4 1)
                    (dec 27015 5 * morph_factor) in
  for_each (range width) (fun x_pixel =>
    for_each (range height) (fun y_pixel =>
      let real := of_int 3 * (of_int x_pixel - of_int width / of_int 2)
                  / (of_int width * dec 5 1) in
      let imag := of_int 2 * (of_int y_pixel - of_int height / of_int 2)
                  / (of_int height * dec 5 1) in
      let '(c, z) :=
        if morph_factor <? dec 5 1 then (Cx real imag, czero)
        else (julia_c, Cx real imag) in
      zn <- escape_loop fuel c max_iter z 0%Z ;;
      col <- get_color_palette (snd zn) max_iter PsychedelicPalette ;;
      Done [SetAt (x_pixel, y_pixel) col])).
End Mandelbrot.

(** ** julia.py *)

Section Julia.
Context {F : Type} `{PyFloat F}.
Local Open Scope py_scope.

(** [max_iter = max(10, iterations)] *)
Definition julia_max_iter (iterations : Z) : Z := Z.max 10 iterations.

(** The loop [while zx*zx + zy*zy < 4 and iteration < max_iter], with the
    constant [(cX, cY)]; it yields the final [iteration]. *)
Fixpoint julia_loop (fuel : nat) (cX cY : F) (max_iter : Z)
         (zx zy : F) (iteration : Z) : outcome Z :=
  match fuel with
  | O => OutOfFuel
  | S fuel' =>
      if (zx * zx + zy * zy <? of_int 4) && (iteration <? max_iter)%Z then
        let tmp := zx * zx - zy * zy + cX in
        julia_loop fuel' cX cY max_iter tmp (of_int 2 * zx * zy + cY)
                   (iteration + 1)%Z
      else Done iteration
  end.

(** The colour of a pixel from its iteration count. *)
Definition julia_color (iteration max_iter : Z) : outcome color :=
  shade <- raising (trunc_int (of_int (iteration * 255) / of_int max_iter)) ;;
  let color_value := (255 - shade)%Z in
  Done [color_value; color_value / 2; 255 - color_value]%Z.

(** [draw(surface, iterations)] *)
Definition julia_draw (fuel : nat) (width height : Z) (iterations : Z)
  : outcome (list draw_op) :=
  let max_iter := julia_max_iter iterations in
  let cX := - dec 7 1 in
  let cY := dec 27015 5 in
  for_each (range width) (fun x =>
    for_each (range height) (fun y =>
      let zx := dec 15 1 * (of_int x - of_int width / of_int 2)
                / (dec 5 1 * of_int width) in
      let zy := (of_int y - of_int height / of_int 2)
                / (dec 5 1 * of_int height) in
      iteration <- julia_loop fuel cX cY max_iter zx zy 0%Z ;;
      col <- julia_color iteration max_iter ;;
      Done [SetAt (x, y) col])).
End Julia.

(** ** Guarded segments *)

Section Segments.
Context {F : Type} `{PyFloat F}.

Definition fpoint : Type := F * F.

(** [(int(round(p[0])), int(round(p[1])))]; it raises when a coordinate is
    not finite. *)
Definition round_point (p : fpoint) : outcome point :=
  x <- raising (round_int (fst p)) ;;
  y <- raising (round_int (snd p)) ;;
  Done (x, y).

(** [0 <= x <= width and 0 <= y <= height] *)
Definition in_range (width height : Z) (p : point) : bool :=
  (0 <=? fst p) && (fst p <=? width) && (0 <=? snd p) && (snd p <=? height).

(** The body of the [try] of the base case of [koch_curve]: both endpoints
    are rounded and the line is drawn only when they lie in
    [[0,width] x [0,height]]. *)
Definition checked_line (width height : Z) (c : color) (line_width : Z)
           (p1 p2 : fpoint) : outcome (list draw_op) :=
  start_pos <- round_point p1 ;;
  end_pos <- round_point p2 ;;
  Done (if in_range width height start_pos && in_range width height end_pos
        then [Line c start_pos end_pos line_width]
        else []).
End Segments.

(** ** koch.py *)

Section Koch.
Context {F : Type} `{PyFloat F}.
Local Open Scope py_scope.

(** The three new points of one subdivision step: the two thirds [(x2,y2)],
    [(x4,y4)] and the apex [(x3,y3)] of the triangle on the middle third. *)
Definition koch_split (p1 p2 : @fpoint F) : @fpoint F * @fpoint F * @fpoint F :=
  let x1 := fst p1 in let y1 := snd p1 in
  let x5 := fst p2 in let y5 := snd p2 in
  let dx := (x5 - x1) / of_int 3 in
  let dy := (y5 - y1) / of_int 3 in
  let x2 := x1 + dx in let y2 := y1 + dy in
  let x4 := x1 + of_int 2 * dx in let y4 := y1 + of_int 2 * dy in
  let mid_x := (x2 + x4) * dec 5 1 in
  let mid_y := (y2 + y4) * dec 5 1 in
  let side_length := fsqrt (dx * dx + dy * dy) in
  let height := side_length * fsqrt (of_int 3) * dec 5 1 in
  let perp_x :=
    if of_int 0 <? side_length then - (dy / side_length) * height else of_int 0 in
  let perp_y :=
    if of_int 0 <? side_length then (dx / side_length) * height else of_int 0 in
  let x3 := mid_x + perp_x in
  let y3 := mid_y + perp_y in
  ((x2, y2), (x3, y3), (x4, y4)).

(** [koch_curve(p1, p2, depth, surface, color, line_width)].  The base
    case swallows the exceptions of rounding ([except ...: pass]). *)
Fixpoint koch_curve (fuel : nat) (p1 p2 : @fpoint F) (depth : Z)
         (width height : Z) (c : color) (line_width : Z)
  : outcome (list draw_op) :=
  match fuel with
  | O => OutOfFuel
  | S fuel' =>
      if (depth =? 0)%Z then
        try_except (checked_line width height c line_width p1 p2) (Done [])
      else
        let '(q2, q3, q4) := koch_split p1 p2 in
        s1 <- koch_curve fuel' p1 q2 (depth - 1) width height c line_width ;;
        s2 <- koch_curve fuel' q2 q3 (depth - 1) width height c line_width ;;
        s3 <- koch_curve fuel' q3 q4 (depth - 1) width height c line_width ;;
        s4 <- koch_curve fuel' q4 p2 (depth - 1) width height c line_width ;;
        Done (s1 ++ s2 ++ s3 ++ s4)
  end.

(** The segments the recursion reaches at depth 0, before rounding and the
    range test. *)
Fixpoint koch_leaves (fuel : nat) (p1 p2 : @fpoint F) (depth : Z)
  : outcome (list (@fpoint F * @fpoint F)) :=
  match fuel with
  | O => OutOfFuel
  | S fuel' =>
      if (depth =? 0)%Z then Done [(p1, p2)]
      else
        let '(q2, q3, q4) := koch_split p1 p2 in
        s1 <- koch_leaves fuel' p1 q2 (depth - 1) ;;
        s2 <- koch_leaves fuel' q2 q3 (depth - 1) ;;
        s3 <- koch_leaves fuel' q3 q4 (depth - 1) ;;
        s4 <- koch_leaves fuel' q4 p2 (depth - 1) ;;
        Done (s1 ++ s2 ++ s3 ++ s4)
  end.

(** A segment is inside the raster when both rounded endpoints pass the
    range test of the base case. *)
Definition leaf_inside (width height : Z) (s : @fpoint F * @fpoint F) : bool :=
  match round_point (fst s), round_point (snd s) with
  | Done a, Done b => in_range width height a && in_range width height b
  | _, _ => false
  end.

(** What the base case draws for one segment. *)
Definition leaf_ops (width height : Z) (c : color) (line_width : Z)
           (s : @fpoint F * @fpoint F) : list draw_op :=
  match checked_line width height c line_width (fst s) (snd s) with
  | Done ops => ops
  | _ => []
  end.
End Koch.

(** ** sierpinski.py *)

Inductive variant : Type :=
| Outline      (* "outline" and every other string *)
| Filled       (* "filled" *)
| Gradient.    (* "gradient" *)

Definition point_eqb (a b : point) : bool :=
  (fst a =? fst b) && (snd a =? snd b).

Section Sierpinski.
Context {F : Type} `{PyFloat F} {G : Generator}.
Local Open Scope py_scope.

(** [draw_triangle(surface, p1, p2, p3, color, filled, line_width)] *)
Definition draw_triangle (width height : Z) (p1 p2 p3 : @fpoint F) (c : color)
           (filled : bool) (line_width : Z) : outcome (list draw_op) :=
  try_except
    (a <- round_point p1 ;;
     b <- round_point p2 ;;
     d <- round_point p3 ;;
     let points := [a; b; d] in
     let valid_points := forallb (in_range width height) points in
     let distinct := negb (point_eqb a b) && negb (point_eqb a d)
                     && negb (point_eqb b d) in
     Done (if valid_points && distinct
           then if filled then [Polygon c points 0%Z]
                else [Polygon c points (Z.max 1 line_width)]
           else []))
    (Done []).

(** [max(abs(..), ..)] over the six coordinate differences. *)
Definition triangle_size (p1 p2 p3 : @fpoint F) : F :=
  fold_left fmax
    [fabs (fst p1 - fst p3); fabs (fst p2 - fst p3);
     fabs (snd p1 - snd p2); fabs (snd p1 - snd p3); fabs (snd p2 - snd p3)]
    (fabs (fst p1 - fst p2)).

(** [sierpinski_triangle(surface, p1, p2, p3, depth, color, variant,
    min_size)] *)
Fixpoint sierpinski_triangle (fuel : nat) (width height : Z)
         (p1 p2 p3 : @fpoint F) (depth : Z) (c : color) (v : variant)
         (min_size : F) : outcome (list draw_op) :=
  match fuel with
  | O => OutOfFuel
  | S fuel' =>
      let size := triangle_size p1 p2 p3 in
      if size <? min_size then Done []
      else if (depth =? 0)%Z then
        match v with
        | Filled => draw_triangle width height p1 p2 p3 c true 1%Z
        | Gradient =>
            n <- raising (trunc_int (size * of_int 2)) ;;
            let intensity := Z.max 50 (Z.min 255 n) in
            let gradient_color :=
              [intensity; intensity / 2; 255 - intensity / 2]%Z in
            draw_triangle width height p1 p2 p3 gradient_color true 1%Z
        | Outline =>
            n <- raising (trunc_int (size / of_int 100)) ;;
            let line_width := Z.max 1 n in
            draw_triangle width height p1 p2 p3 c false line_width
        end
      else
        let m1 := ((fst p1 + fst p2) * dec 5 1, (snd p1 + snd p2) * dec 5 1) in
        let m2 := ((fst p2 + fst p3) * dec 5 1, (snd p2 + snd p3) * dec 5 1) in
        let m3 := ((fst p3 + fst p1) * dec 5 1, (snd p3 + snd p1) * dec 5 1) in
        s1 <- sierpinski_triangle fuel' width height p1 m1 m3 (depth - 1) c v min_size ;;
        s2 <- sierpinski_triangle fuel' width height m1 p2 m2 (depth - 1) c v min_size ;;
        s3 <- sierpinski_triangle fuel' width height m3 m2 p3 (depth - 1) c v min_size ;;
        Done (s1 ++ s2 ++ s3)
  end.

(** The triangle of the chaos game: [size], [height_triangle] and the three
    [vertices]. *)
Definition chaos_size (width height : Z) : F :=
  of_int (Z.min width height) * dec 75 2.
Definition chaos_height (width height : Z) : F :=
  chaos_size width height * fsqrt (of_int 3) * dec 5 1.
Definition chaos_vertices (width height : Z) : list (@fpoint F) :=
  let size := chaos_size width height in
  let center_x := of_int width * dec 5 1 in
  let center_y := of_int height * dec 5 1 in
  let height_triangle := chaos_height width height in
  [(center_x, center_y - height_triangle * dec 667 3);
   (center_x - size * dec 5 1, center_y + height_triangle * dec 333 3);
   (center_x + size * dec 5 1, center_y + height_triangle * dec 333 3)].

(** The random starting point [current_point]. *)
Definition chaos_start (width height : Z) (g : gstate G) : @fpoint F * gstate G :=
  let size := chaos_size width height in
  let center_x := of_int width * dec 5 1 in
  let center_y := of_int height * dec 5 1 in
  let height_triangle := chaos_height width height in
  let '(u, g1) := uniform (- size * dec 25 2) (size * dec 25 2) g in
  let '(v, g2) := uniform (- height_triangle * dec 25 2)
                          (height_triangle * dec 25 2) g1 in
  ((center_x + u, center_y + v), g2).

(** The colour of round [i] under [fade_effect]. *)
Definition fade_color (c : color) (i : Z) : color :=
  let alpha := Z.max 100 (255 - i / 1000) in
  if (3 <? Z.of_nat (length c))%Z then firstn 3 c ++ [alpha] else c.

(** The rounds [i, i+1, ..] of the loop [for i in range(iterations)]. *)
Fixpoint chaos_rounds (rounds : nat) (i : Z) (width height : Z)
         (vertices : list (@fpoint F)) (c : color) (fade_effect : bool)
         (current_point : @fpoint F) (g : gstate G)
  : outcome (list draw_op * gstate G) :=
  match rounds with
  | O => Done ([], g)
  | S rounds' =>
      let '(target_vertex, g1) := choice current_point vertices g in
      let current_point :=
        ((fst current_point + fst target_vertex) * dec 5 1,
         (snd current_point + snd target_vertex) * dec 5 1) in
      ops <- (if (20 <? i)%Z then
                xy <- round_point current_point ;;
                let '(x, y) := xy in
                if (0 <=? x)%Z && (x <? width)%Z && (0 <=? y)%Z && (y <? height)%Z
                then if fade_effect && (i mod 3 =? 0)%Z
                     then Done [SetAt (x, y) (fade_color c i)]
                     else Done [SetAt (x, y) c]
                else Done []
              else Done []) ;;
      rest <- chaos_rounds rounds' (i + 1)%Z width height vertices c
                           fade_effect current_point g1 ;;
      Done (ops ++ fst rest, snd rest)
  end.

(** [sierpinski_chaos_game(surface, iterations, color, fade_effect)] *)
Definition sierpinski_chaos_game (width height : Z) (iterations : Z) (c : color)
           (fade_effect : bool) (g : gstate G)
  : outcome (list draw_op * gstate G) :=
  let vertices := chaos_vertices width height in
  let '(current_point, g1) := chaos_start width height g in
  chaos_rounds (Z.to_nat iterations) 0%Z width height vertices c fade_effect
               current_point g1.

(** What a call drew, without the state of the generator it left. *)
Definition drawn {A : Type} (o : outcome (list draw_op * A))
  : outcome (list draw_op) :=
  r <- o ;; Done (fst r).

(** [3 ** e]: an int for [e >= 0], a float otherwise. *)
Definition pow3 (e : Z) : F :=
  if (0 <=? e)%Z then of_int (3 ^ e) else of_int 1 / of_int (3 ^ (- e)).

(** The text drawn for high iteration counts. *)
Definition sierpinski_info (iterations : Z) : list draw_op :=
  if (8 <? iterations)%Z
  then [Blit ("Triangulos: " ++ str (3 ^ iterations)) ColorScheme.WARNING (10, 10)%Z]
  else [].

(** [draw(surface, iterations)] *)
Definition sierpinski_draw (fuel : nat) (width height : Z) (iterations : Z)
           (g : gstate G) : outcome (list draw_op * gstate G) :=
  let size := of_int (Z.min width height) * dec 8 1 in
  let center_x := of_int width * dec 5 1 in
  let center_y := of_int height * dec 5 1 in
  let height_triangle := size * fsqrt (of_int 3) * dec 5 1 in
  let p1 := (center_x, center_y - height_triangle * dec 667 3) in
  let p2 := (center_x - size * dec 5 1, center_y + height_triangle * dec 333 3) in
  let p3 := (center_x + size * dec 5 1, center_y + height_triangle * dec 333 3) in
  let min_triangle_size :=
    fmax (of_int 1) (of_int (Z.min width height) / pow3 (Z.min iterations 6)) in
  '(ops, g') <-
    (if (iterations <=? 7)%Z then
       let color_intensity := Z.max 150 (255 - iterations * 15) in
       let c := [color_intensity; color_intensity; 255]%Z in
       ops <- sierpinski_triangle fuel width height p1 p2 p3 iterations c
                                  Outline min_triangle_size ;;
       Done (ops, g)
     else
       let num_points := Z.min 100000 (iterations * 8000) in
       sierpinski_chaos_game width height num_points ColorScheme.GREEN true g) ;;
  Done (Fill [0; 0; 0; 0]%Z :: ops ++ sierpinski_info iterations, g').
End Sierpinski.

(** The convex hull of a list of points of the plane: the vertices, and
    every point between two points of the hull. *)
Inductive hull (vs : list (R * R)) : R * R -> Prop :=
| hull_vertex (v : R * R) : In v vs -> hull vs v
| hull_between (p q : R * R) (t : R) :
    hull vs p -> hull vs q -> (0 <= t <= 1)%R ->
    hull vs ((t * fst p + (1 - t) * fst q)%R, (t * snd p + (1 - t) * snd q)%R).

(** A pixel as a point of the plane. *)
Definition pixel (p : point) : R * R := (IZR (fst p), IZR (snd p)).

(** A point with binary64 coordinates as a point of the plane. *)
Definition real_point (v : float * float) : R * R := (to_R (fst v), to_R (snd v)).

(** ** arbol.py *)

Inductive color_mode : Type :=
| GradientMode       (* "gradient" *)
| SeasonalSpring     (* "seasonal_spring" *)
| SeasonalAutumn     (* "seasonal_autumn" *)
| SeasonalWinter     (* "seasonal_winter" *)
| NeonMode           (* "neon" *)
| FireMode           (* "fire" *)
| DefaultMode.       (* "default" and every other string *)

(** [d.get(key, default)] *)
Definition get {A : Type} (o : option A) (default : A) : A :=
  match o with
  | Some a => a
  | None => default
  end.

Section Tree.
Context {F : Type} `{PyMath F} {G : Generator}.
Local Open Scope py_scope.

(** A parameter dictionary: a key that is absent is [None]. *)
Record TreeParameters : Type := {
  angle_left : option F;
  angle_right : option F;
  length_factor : option F;
  thickness_factor : option F;
  branches : option Z;
  droop_factor : option F;
  min_length : option F
}.

Definition CLASSIC : TreeParameters := {|
  angle_left := Some (of_int 25); angle_right := Some (of_int 25);
  length_factor := Some (dec 7 1); thickness_factor := Some (dec 8 1);
  branches := Some 2%Z; droop_factor := None; min_length := Some (of_int 3) |}.

Definition BUSHY : TreeParameters := {|
  angle_left := Some (of_int 20); angle_right := Some (of_int 20);
  length_factor := Some (dec 6 1); thickness_factor := Some (dec 7 1);
  branches := Some 3%Z; droop_factor := None; min_length := Some (of_int 2) |}.

Definition WILLOW : TreeParameters := {|
  angle_left := Some (of_int 15); angle_right := Some (of_int 15);
  length_factor := Some (dec 8 1); thickness_factor := Some (dec 9 1);
  branches := Some 2%Z; droop_factor := Some (dec 15 1);
  min_length := Some (of_int 4) |}.

Definition OAK : TreeParameters := {|
  angle_left := Some (of_int 35); angle_right := Some (of_int 35);
  length_factor := Some (dec 65 2); thickness_factor := Some (dec 12 1);
  branches := Some 2%Z; droop_factor := None; min_length := Some (dec 35 1) |}.

Definition ASYMMETRIC : TreeParameters := {|
  angle_left := Some (of_int 30); angle_right := Some (of_int 20);
  length_factor := Some (dec 75 2); thickness_factor := Some (dec 9 1);
  branches := Some 2%Z; droop_factor := None; min_length := Some (dec 25 1) |}.

Definition PINE : TreeParameters := {|
  angle_left := Some (of_int 15); angle_right := Some (of_int 15);
  length_factor := Some (dec 8 1); thickness_factor := Some (dec 6 1);
  branches := Some 2%Z; droop_factor := None; min_length := Some (of_int 2) |}.

(** [get_branch_color(depth, length, color_mode, params)] *)
Definition get_branch_color (depth : Z) (length : F) (mode : color_mode)
  : outcome color :=
  match mode with
  | GradientMode =>
      let depth_factor := of_int depth / of_int 12 in
      let length_factor := length / of_int 100 in
      if (dec 6 1 <? depth_factor) || (dec 5 1 <? length_factor) then
        let brown_intensity :=
          fmin (of_int 1) (depth_factor + length_factor * dec 3 1) in
        r <- raising (trunc_int (of_int 139 * brown_intensity)) ;;
        g <- raising (trunc_int (of_int 69 * brown_intensity)) ;;
        b <- raising (trunc_int (of_int 19 * brown_intensity)) ;;
        Done [r; g; b]
      else if dec 3 1 <? depth_factor then Done [101; 67; 33]%Z
      else
        let green_intensity := dec 7 1 + dec 3 1 * (of_int 1 - depth_factor) in
        r <- raising (trunc_int (of_int 34 * green_intensity)) ;;
        g <- raising (trunc_int (of_int 139 * green_intensity)) ;;
        b <- raising (trunc_int (of_int 34 * green_intensity)) ;;
        Done [r; g; b]
  | SeasonalSpring =>
      if (4 <? depth)%Z then Done [101; 67; 33]%Z
      else
        let spring_greens := [[124; 252; 0]; [50; 205; 50]; [0; 255; 127]]%Z in
        raising (py_nth spring_greens (depth mod 3))
  | SeasonalAutumn =>
      if (4 <? depth)%Z then Done [139; 69; 19]%Z
      else
        let autumn_colors :=
          [[255; 140; 0]; [255; 69; 0]; [255; 215; 0];
           [220; 20; 60]; [255; 165; 0]; [178; 34; 34]]%Z in
        n <- raising (trunc_int length) ;;
        raising (py_nth autumn_colors ((depth + n) mod 6))
  | SeasonalWinter =>
      if (3 <? depth)%Z then Done [101; 67; 33]%Z
      else
        let gray_intensity := (100 + depth * 20)%Z in
        Done [gray_intensity; gray_intensity; gray_intensity]
  | NeonMode =>
      let neon_colors :=
        [[0; 255; 255]; [255; 0; 255]; [255; 255; 0];
         [0; 255; 0]; [255; 0; 127]; [127; 255; 0]]%Z in
      raising (py_nth neon_colors (depth mod 6))
  | FireMode =>
      let fire_colors :=
        [[255; 0; 0]; [255; 69; 0]; [255; 140; 0]; [255; 215; 0]; [255; 255; 0]]%Z in
      raising (py_nth fire_colors (Z.min depth 4))
  | DefaultMode => Done ColorScheme.GREEN
  end.

(** The stop test of [draw_tree_recursive]:
    [depth <= 0 or length < max(min_length_threshold, min_branch_size)]. *)
Definition tree_stops (params : TreeParameters) (depth : Z) (length : F)
           (min_branch_size : F) : bool :=
  let min_length_threshold := get (min_length params) (of_int 2) in
  (depth <=? 0)%Z || (length <? fmax min_length_threshold min_branch_size).

(** The body of the [try] of [draw_tree_recursive]. *)
Definition draw_branch (width height : Z) (c : color) (thickness depth : Z)
           (p1 p2 : @fpoint F) : outcome (list draw_op) :=
  start_pos <- round_point p1 ;;
  end_pos <- round_point p2 ;;
  Done (if in_range width height start_pos && in_range width height end_pos
        then
          Line c start_pos end_pos thickness ::
          (if (3 <? thickness)%Z && (5 <? depth)%Z
           then let darker_color := map (fun v => Z.max 0 (v - 30)) c in
                [Line darker_color start_pos end_pos (Z.max 1 (thickness - 2))]
           else [])
        else []).

(** The [(angle, length)] of the recursive calls of one call, in call order. *)
Definition child_branches (params : TreeParameters) (angle : F) (depth : Z)
           (length : F) : list (F * F) :=
  let branch_count := get (branches params) 2%Z in
  let length_factor := get (length_factor params) (dec 7 1) in
  if (branch_count =? 2)%Z then
    let new_length := length * length_factor in
    let droop_factor := get (droop_factor params) (of_int 1) in
    let angle_modifier :=
      if (of_int 1 <? droop_factor) && (depth <? 4)%Z
      then of_int ((4 - depth) * 5) * (droop_factor - of_int 1)
      else of_int 0 in
    let left_angle := angle + get (angle_left params) (of_int 25) - angle_modifier in
    let right_angle := angle - get (angle_right params) (of_int 25) - angle_modifier in
    [(left_angle, new_length); (right_angle, new_length)]
  else
    let angle_spread := (50 + (branch_count - 2) * 10)%Z in
    let new_length := length * length_factor in
    map (fun i =>
           if (branch_count =? 1)%Z then (angle, new_length)
           else
             let position_factor :=
               of_int i / of_int (branch_count - 1) - dec 5 1 in
             let branch_angle := angle + of_int angle_spread * position_factor in
             let length_variation := dec 9 1 + dec 2 1 * fabs position_factor in
             let branch_length := new_length * length_variation in
             (branch_angle, branch_length))
        (range branch_count).

(** [draw_tree_recursive(surface, x, y, angle, depth, length, params,
    color_mode, min_branch_size)] *)
Fixpoint draw_tree_recursive (fuel : nat) (width height : Z) (x y angle : F)
         (depth : Z) (length : F) (params : TreeParameters) (mode : color_mode)
         (min_branch_size : F) : outcome (list draw_op) :=
  match fuel with
  | O => OutOfFuel
  | S fuel' =>
      if tree_stops params depth length min_branch_size then Done []
      else
        let angle_rad := radians angle in
        let x2 := x + fcos angle_rad * length in
        let y2 := y - fsin angle_rad * length in
        let base_thickness := get (thickness_factor params) (dec 8 1) in
        n <- raising (trunc_int (of_int depth * base_thickness
                                 + length / of_int 20)) ;;
        let thickness := Z.max 1 n in
        c <- get_branch_color depth length mode ;;
        match draw_branch width height c thickness depth (x, y) (x2, y2) with
        | Done ops =>
            if (0 <? depth)%Z then
              rest <- for_each (child_branches params angle depth length)
                        (fun al =>
                           draw_tree_recursive fuel' width height x2 y2 (fst al)
                             (depth - 1) (snd al) params mode min_branch_size) ;;
              Done (ops ++ rest)
            else Done ops
        | _ => Done []
        end
  end.

Definition brown_variants : list color :=
  [[139; 69; 19]; [101; 67; 33]; [160; 82; 45]; [120; 60; 30]; [150; 75; 40]]%Z.
Definition green_variants : list color :=
  [[34; 139; 34]; [0; 128; 0]; [50; 205; 50]; [0; 100; 0]; [60; 179; 113];
   [46; 139; 87]]%Z.

(** [draw_tree_stochastic(surface, x, y, angle, depth, length, randomness,
    seed)], with the state of the generator before and after. *)
Fixpoint draw_tree_stochastic (fuel : nat) (x y angle : F) (depth : Z)
         (length randomness : F) (seed : option Z) (g0 : gstate G)
  : outcome (list draw_op * gstate G) :=
  match fuel with
  | O => OutOfFuel
  | S fuel' =>
      let g := match seed with
               | Some s => gseed G (s + depth * 100)%Z
               | None => g0
               end in
      if (depth <=? 0)%Z || (length <? of_int 2) then Done ([], g)
      else
        let '(angle_variation, g) :=
          uniform (- randomness * of_int 20) (randomness * of_int 20) g in
        let '(length_variation, g) :=
          uniform (of_int 1 - randomness * dec 4 1)
                  (of_int 1 + randomness * dec 3 1) g in
        let actual_angle := angle + angle_variation in
        let actual_length := length * length_variation in
        let angle_rad := radians actual_angle in
        let x2 := x + fcos angle_rad * actual_length in
        let y2 := y - fsin angle_rad * actual_length in
        let '(c, g) :=
          if (4 <? depth)%Z then choice [] brown_variants g
          else choice [] green_variants g in
        n <- raising (trunc_int (of_int depth * dec 9 1)) ;;
        let base_thickness := Z.max 1 n in
        let '(dt, g) := randint (-1) 1 g in
        let thickness := Z.max 1 (Z.min (base_thickness + dt) 8) in
        match (start_pos <- round_point (x, y) ;;
               end_pos <- round_point (x2, y2) ;;
               Done [Line c start_pos end_pos thickness]) with
        | Done ops =>
            if (0 <? depth)%Z then
              let '(f, g) := uniform (dec 6 1) (dec 8 1) g in
              let new_length := actual_length * f in
              let branch_probability :=
                fmin (dec 9 1) (dec 5 1 + of_int depth * dec 1 1) in
              let max_branches := if (6 <? depth)%Z then 3%Z else 2%Z in
              let '(r, g) := random g in
              '(ops_left, g, created) <-
                (if r <? branch_probability then
                   let '(a, g) := uniform (of_int 15) (of_int 40) g in
                   let left_angle := actual_angle + a in
                   '(o, g) <- draw_tree_stochastic fuel' x2 y2 left_angle
                                (depth - 1) new_length randomness seed g ;;
                   Done (o, g, 1%Z)
                 else Done ([], g, 0%Z)) ;;
              let '(r, g) := random g in
              '(ops_right, g, created) <-
                (if r <? branch_probability then
                   let '(a, g) := uniform (of_int 15) (of_int 40) g in
                   let right_angle := actual_angle - a in
                   '(o, g) <- draw_tree_stochastic fuel' x2 y2 right_angle
                                (depth - 1) new_length randomness seed g ;;
                   Done (o, g, (created + 1)%Z)
                 else Done ([], g, created)) ;;
              '(ops_center, g) <-
                (if (2 <? depth)%Z && (created <? max_branches)%Z then
                   let '(r, g) := random g in
                   if r <? dec 3 1 then
                     let '(a, g) := uniform (- of_int 10) (of_int 10) g in
                     let center_angle := actual_angle + a in
                     draw_tree_stochastic fuel' x2 y2 center_angle (depth - 1)
                       (new_length * dec 9 1) randomness seed g
                   else Done ([], g)
                 else Done ([], g)) ;;
              Done (ops ++ ops_left ++ ops_right ++ ops_center, g)
            else Done (ops, g)
        | _ => Done ([], g)
        end
  end.

(** [draw_tree_wind(surface, x, y, angle, depth, length, wind_strength,
    wind_direction, time_factor)] *)
Fixpoint draw_tree_wind (fuel : nat) (x y angle : F) (depth : Z) (length : F)
         (wind_strength wind_direction time_factor : F)
  : outcome (list draw_op) :=
  match fuel with
  | O => OutOfFuel
  | S fuel' =>
      if (depth <=? 0)%Z || (length <? of_int 2) then Done []
      else
        let wind_sensitivity :=
          fmax (dec 1 1) (of_int 1 - of_int depth / of_int 12) in
        let wind_oscillation :=
          fsin (time_factor * dec 1 2 + of_int depth * dec 5 1) * dec 5 1
          + dec 5 1 in
        let wind_effect :=
          wind_strength * wind_sensitivity * of_int 25 * wind_oscillation in
        let wind_angle :=
          angle + wind_effect * fcos (radians (wind_direction - angle)) in
        let angle_rad := radians wind_angle in
        let x2 := x + fcos angle_rad * length in
        let y2 := y - fsin angle_rad * length in
        n <- raising (trunc_int (of_int depth * dec 8 1)) ;;
        let thickness := Z.max 1 n in
        c <- (if (4 <? depth)%Z then Done [139; 69; 19]%Z
              else
                let wind_factor := wind_strength * wind_sensitivity in
                wind_lightness <- raising (trunc_int (wind_factor * of_int 40)) ;;
                Done [Z.min 255 (34 + wind_lightness);
                      Z.min 255 (139 + wind_lightness); 34]%Z) ;;
        match (start_pos <- round_point (x, y) ;;
               end_pos <- round_point (x2, y2) ;;
               Done [Line c start_pos end_pos thickness]) with
        | Done ops =>
            if (0 <? depth)%Z then
              let new_length := length * dec 72 2 in
              let base_angle_left := of_int 25 + wind_strength * of_int 15 in
              let base_angle_right := of_int 25 + wind_strength * of_int 15 in
              s1 <- draw_tree_wind fuel' x2 y2 (wind_angle + base_angle_left)
                      (depth - 1) new_length wind_strength wind_direction
                      time_factor ;;
              s2 <- draw_tree_wind fuel' x2 y2 (wind_angle - base_angle_right)
                      (depth - 1) new_length wind_strength wind_direction
                      time_factor ;;
              Done (ops ++ s1 ++ s2)
            else Done ops
        | _ => Done []
        end
  end.

(** The text drawn for high iteration counts. *)
Definition tree_info (iterations : Z) : list draw_op :=
  if (10 <? iterations)%Z then
    let branch_count :=
      if (iterations <=? 15)%Z then str (2 ^ iterations) else "Muy alto"%string in
    [Blit ("Ramas: " ++ branch_count) ColorScheme.WARNING (10, 10)%Z]
  else [].

(** [draw(surface, iterations)] *)
Definition tree_draw (fuel : nat) (width height : Z) (iterations : Z)
           (g : gstate G) : outcome (list draw_op * gstate G) :=
  let start_x := of_int width * dec 5 1 in
  let start_y := of_int height * dec 9 1 in
  let initial_angle := of_int 90 in
  let base_length := of_int (Z.min width height) * dec 15 2 in
  let initial_length := fmax (of_int 20) base_length in
  let min_branch_size :=
    fmax (of_int 1) (of_int (Z.min width height) / of_int 400) in
  let plain params mode :=
    ops <- draw_tree_recursive fuel width height start_x start_y initial_angle
             iterations initial_length params mode min_branch_size ;;
    Done (ops, g) in
  '(ops, g') <-
    (if (iterations <=? 2)%Z then plain CLASSIC DefaultMode
     else if (iterations <=? 5)%Z then plain CLASSIC GradientMode
     else if (iterations <=? 8)%Z then plain BUSHY SeasonalSpring
     else if (iterations <=? 12)%Z then plain OAK SeasonalAutumn
     else draw_tree_stochastic fuel start_x start_y initial_angle
            (Z.min iterations 15) initial_length (dec 25 2) (Some 42%Z) g) ;;
  Done (Fill [0; 0; 0; 0]%Z :: ops ++ tree_info iterations, g').
End Tree.

(** ** koch.py: the snowflake, [draw] and the metrics *)

Section KochDraw.
Context {F : Type} `{PyMath F}.
Local Open Scope py_scope.

(** [koch_snowflake(center, radius, depth, surface, color, line_width)] *)
Definition koch_snowflake (fuel : nat) (center : @fpoint F) (radius : F)
           (depth : Z) (width height : Z) (c : color) (line_width : Z)
  : outcome (list draw_op) :=
  let cx := fst center in
  let cy := snd center in
  let angle_offset := - fpi * dec 5 1 in
  let vertices :=
    map (fun i =>
           let angle := angle_offset + of_int i * of_int 2 * fpi / of_int 3 in
           (cx + radius * fcos angle, cy + radius * fsin angle))
        (range 3) in
  for_each (range 3) (fun i =>
    p1 <- raising (py_nth vertices i) ;;
    p2 <- raising (py_nth vertices ((i + 1) mod 3)) ;;
    koch_curve fuel p1 p2 depth width height c line_width).

(** [line_width] of [draw]: [max(1, base_line_width - iterations // 3)]. *)
Definition koch_line_width (width iterations : Z) : Z :=
  let base_line_width := Z.max 1 (Z.min 3 (width / 400)) in
  Z.max 1 (base_line_width - iterations / 3).

(** The text drawn for high iteration counts. *)
Definition koch_info (iterations : Z) : list draw_op :=
  if (6 <? iterations)%Z
  then [Blit ("Complejidad alta: " ++ str (4 ^ iterations) ++ " segmentos")
             ColorScheme.WARNING (10, 10)%Z]
  else [].

(** What [draw] draws between the fill and the text: the single curve up
    to 4 iterations, the snowflake at depth [iterations - 4] above. *)
Definition koch_body (fuel : nat) (width height : Z) (iterations : Z)
  : outcome (list draw_op) :=
  let margin := of_int (Z.min width height) * dec 1 1 in
  let line_width := koch_line_width width iterations in
  if (iterations <=? 4)%Z then
    let y_center := of_int height * dec 5 1 in
    let line_length := of_int width - of_int 2 * margin in
    let p1 := (margin, y_center) in
    let p2 := (margin + line_length, y_center) in
    let intensity := Z.min 255 (120 + iterations * 25) in
    let c := [intensity; intensity; 255]%Z in
    koch_curve fuel p1 p2 iterations width height c line_width
  else
    let center := (of_int width * dec 5 1, of_int height * dec 5 1) in
    let radius := of_int (Z.min width height) * dec 35 2 in
    let depth_factor := fmin (of_int 1) (of_int (iterations - 4) / of_int 3) in
    color_variation <- raising (trunc_int (depth_factor * of_int 50)) ;;
    let c := [Z.max 0 (0 - color_variation); 255;
              Z.min 255 (255 + color_variation)]%Z in
    koch_snowflake fuel center radius (iterations - 4) width height c line_width.

(** [draw(surface, iterations)] *)
Definition koch_draw (fuel : nat) (width height : Z) (iterations : Z)
  : outcome (list draw_op) :=
  ops <- koch_body fuel width height iterations ;;
  Done (Fill [0; 0; 0; 0]%Z :: ops ++ koch_info iterations).
End KochDraw.

(** [calculate_points_count(depth)], for [depth >= 0] (a negative depth
    makes [4 ** depth] a float). *)
Definition calculate_points_count (depth : Z) : Z :=
  if depth =? 0 then 2 else 2 + 3 * (4 ^ depth - 1) / 3.

(** The field ["segments"] of [get_performance_metrics(depth)]. *)
Definition koch_metric_segments (depth : Z) : Z :=
  let points := calculate_points_count depth in
  if 1 <? points then points - 1 else 0.

(** [optimize_depth_for_resolution(width, height)] *)
Definition optimize_depth_for_resolution (width height : Z) : Z :=
  let pixel_count := width * height in
  if pixel_count <? 100000 then 4
  else if pixel_count <? 500000 then 5
  else if pixel_count <? 2000000 then 6
  else 7.

(** [calculate_length(depth, initial_length)], over the reals. *)
Definition calculate_length (depth : Z) (initial_length : R) : R :=
  if depth =? 0 then initial_length
  else (initial_length * powerRZ (4 / 3) depth)%R.

(** ** sierpinski.py: the carpet and the counts *)

(** [pygame.draw.rect(surface, color, pygame.Rect(left, top, width, height))] *)
Record rect_op : Type := DrawRect {
  rect_color : color;
  rect_left : Z;
  rect_top : Z;
  rect_width : Z;
  rect_height : Z
}.

(** A loop whose body issues calls of any kind, in order. *)
Fixpoint loop {A B : Type} (l : list A) (body : A -> outcome (list B))
  : outcome (list B) :=
  match l with
  | [] => Done []
  | a :: l' =>
      ops <- body a ;;
      rest <- loop l' body ;;
      Done (ops ++ rest)
  end.

Section Carpet.
Context {F : Type} `{PyFloat F}.
Local Open Scope py_scope.

(** [sierpinski_carpet(surface, x, y, size, depth, color)]; the rectangle
    is built outside the [try], so a coordinate that is not finite raises. *)
Fixpoint sierpinski_carpet (fuel : nat) (x y size : F) (depth : Z) (c : color)
  : outcome (list rect_op) :=
  match fuel with
  | O => OutOfFuel
  | S fuel' =>
      if size <? of_int 2 then Done []
      else if (depth =? 0)%Z then
        left <- raising (round_int x) ;;
        top <- raising (round_int y) ;;
        side <- raising (round_int size) ;;
        Done [DrawRect c left top (Z.max 1 side) (Z.max 1 side)]
      else
        let sub_size := size / of_int 3 in
        loop (range 3) (fun i =>
          loop (range 3) (fun j =>
            if (i =? 1)%Z && (j =? 1)%Z then Done []
            else
              let new_x := x + of_int i * sub_size in
              let new_y := y + of_int j * sub_size in
              sierpinski_carpet fuel' new_x new_y sub_size (depth - 1) c))
  end.
End Carpet.

(** [calculate_triangle_count(depth)], for [depth >= 0]. *)
Definition calculate_triangle_count (depth : Z) : Z :=
  if depth =? 0 then 1 else 3 ^ depth.

(** The state of the generator after [n] raw draws. *)
Definition draws {G : Generator} (n : nat) (g : gstate G) : gstate G :=
  Nat.iter n (fun g => snd (gnext G g)) g.

(** ** arbol.py: the counts *)

(** [calculate_branch_count(depth, branches_per_node)] *)
Definition calculate_branch_count (depth branches_per_node : Z) : Z :=
  if depth <=? 0 then 0
  else if 1 <? branches_per_node
       then (branches_per_node ^ depth - 1) / (branches_per_node - 1)
       else depth.

(** ** mandelbrot.py: the method [draw] selects *)

Inductive mandelbrot_method : Type :=
| Basic (pal : palette)        (* mandelbrot_basic *)
| Optimized (pal : palette).   (* mandelbrot_optimized, mandelbrot_basic if it raises *)

(** The branch of [draw(surface, iterations)]. *)
Definition mandelbrot_draw_method (iterations : Z) : mandelbrot_method :=
  if iterations <=? 50 then Basic DefaultPalette
  else if iterations <=? 100 then Basic FirePalette
  else Optimized OceanPalette.

(** ** main.py: the selected fractal and its iteration count *)

Module Main.
(** The keys of [FRACTAL_FUNCTIONS] and of [max_iterations]. *)
Inductive fractal : Type := Koch | Sierpinski | Mandelbrot | Julia | Arbol.

Definition max_iterations (f : fractal) : Z :=
  match f with
  | Koch => 7
  | Sierpinski => 8
  | Mandelbrot => 100
  | Julia => 100
  | Arbol => 12
  end.

(** [selected_fractal] and [iterations] of [FractalVisualizer]. *)
Record state : Type := {
  selected_fractal : fractal;
  iterations : Z
}.

(** The state [__init__] sets. *)
Definition initial : state := {| selected_fractal := Koch; iterations := 3 |}.

(** The events that touch the two fields: the keys up and down and a click
    on the button of a fractal.  Every other event leaves them as they
    are. *)
Inductive event : Type :=
| K_UP
| K_DOWN
| Click (new_selection : fractal)
| Other.

(** [handle_keyboard] and [handle_mouse_down] on the two fields. *)
Definition handle_event (s : state) (e : event) : state :=
  match e with
  | K_UP =>
      if iterations s <? max_iterations (selected_fractal s)
      then {| selected_fractal := selected_fractal s;
              iterations := iterations s + 1 |}
      else s
  | K_DOWN =>
      if 0 <? iterations s
      then {| selected_fractal := selected_fractal s;
              iterations := iterations s - 1 |}
      else s
  | Click new_selection =>
      {| selected_fractal := new_selection;
         iterations := Z.min (iterations s) (max_iterations new_selection) |}
  | Other => s
  end.

(** The state after a sequence of events. *)
Definition run (events : list event) : state :=
  fold_left handle_event events initial.

(** The size of [fractal_area], the surface the fractal is drawn on. *)
Definition area_width : Z := 1200 - 200.
Definition area_height : Z := 800.
End Main.

(** ** utils.py *)

(** The flag of the pair [validate_fractal_parameters(fractal_name,
    iterations)] returns; [None] is a name that is not a key of its
    table. *)
Definition validate_fractal_parameters (fractal_name : option Main.fractal)
           (iterations : Z) : bool :=
  match fractal_name with
  | None => false
  | Some f =>
      let limit := match f with
                   | Main.Koch => 7
                   | Main.Sierpinski => 8
                   | Main.Mandelbrot => 1000
                   | Main.Julia => 1000
                   | Main.Arbol => 15
                   end in
      if iterations <? 0 then false
      else if limit <? iterations then false
      else true
  end.

Module PerformanceMonitor.
Definition max_samples : nat := 60.

(** [add_render_time(render_time)] on the list [render_times]:
    [append], then [pop(0)] when the list is longer than [max_samples]. *)
Definition add_render_time {T : Type} (render_times : list T) (render_time : T)
  : list T :=
  let render_times := render_times ++ [render_time] in
  if (max_samples <? length render_times)%nat then tl render_times
  else render_times.
End PerformanceMonitor.

(** ** transforms.py *)

Module TransformManager.
Section Scale.
Context {F : Type} `{PyFloat F}.
Local Open Scope py_scope.

Definition min_scale : F := dec 1 1.
Definition max_scale : F := of_int 50.

(** [scale_factor(factor)] on [current_scale]. *)
Definition scale_factor (current_scale factor : F) : F :=
  let new_scale := current_scale * factor in
  if (min_scale <=? new_scale) && (new_scale <=? max_scale) then new_scale
  else current_scale.
End Scale.
End TransformManager.

(** ** Predicates on drawing calls *)

(** A line of colour [c] and width [lw] between two points of
    [[0,width] x [0,height]]. *)
Definition line_within (width height : Z) (c : color) (lw : Z) (op : draw_op) : Prop :=
  exists a b, op = Line c a b lw
              /\ in_range width height a = true /\ in_range width height b = true.

(** A colour pygame accepts as RGB: three channels in [[0, 255]]. *)
Definition valid_rgb (c : color) : Prop :=
  length c = 3%nat /\ Forall (fun v => 0 <= v <= 255) c.

(** The call [surface.set_at(p, c)] with a valid colour. *)
Definition sets_pixel (op : draw_op) (p : point) : Prop :=
  exists c, op = SetAt p c /\ valid_rgb c.

(** The pixels of a raster in the order of
    [for x in range(width): for y in range(height)], and in the order of
    [for y in range(height): for x in range(width)]. *)
Definition pixels_by_column (width height : Z) : list point :=
  flat_map (fun x => map (fun y => (x, y)) (range height)) (range width).
Definition pixels_by_row (width height : Z) : list point :=
  flat_map (fun y => map (fun x => (x, y)) (range width)) (range height).

(** A polygon call on three distinct points of [[0,width] x [0,height]]. *)
Definition triangle_within (width height : Z) (op : draw_op) : Prop :=
  exists c pts lw,
    op = Polygon c pts lw /\ length pts = 3%nat /\ NoDup pts
    /\ forallb (in_range width height) pts = true.

(** A [set_at] on a pixel of the raster, in colour [c] or in its faded
    variant (the same RGB channels). *)
Definition plots_within (width height : Z) (c : color) (op : draw_op) : Prop :=
  exists p col,
    op = SetAt p col
    /\ 0 <= fst p < width /\ 0 <= snd p < height
    /\ (col = c \/ exists i, col = fade_color c i).

(** A line of positive width between two points of
    [[0,width] x [0,height]]. *)
Definition branch_within (width height : Z) (op : draw_op) : Prop :=
  exists c a b lw,
    op = Line c a b lw /\ 1 <= lw
    /\ in_range width height a = true /\ in_range width height b = true.

(** A line of width 1 to 8 in one of the colours of a list. *)
Definition branch_of (colors : list color) (op : draw_op) : Prop :=
  exists c a b lw, op = Line c a b lw /\ 1 <= lw <= 8 /\ In c colors.

(** The iteration count of a state of the application lies between 0 and
    the limit of the selected fractal. *)
Definition within_limits (s : Main.state) : Prop :=
  0 <= Main.iterations s <= Main.max_iterations (Main.selected_fractal s).

(** ** Polylines of the plane *)

(** The Euclidean length of a segment. *)
Definition segment_length (s : (R * R) * (R * R)) : R :=
  sqrt ((fst (snd s) - fst (fst s)) * (fst (snd s) - fst (fst s))
        + (snd (snd s) - snd (fst s)) * (snd (snd s) - snd (fst s))).

(** The segments of a list join end to start, from [a] to [b]. *)
Fixpoint polyline {P : Type} (a : P) (l : list (P * P)) (b : P) : Prop :=
  match l with
  | [] => a = b
  | s :: l' => fst s = a /\ polyline (snd s) l' b
  end.

(** The total length of a list of segments. *)
Definition polyline_length (l : list ((R * R) * (R * R))) : R :=
  fold_right (fun s acc => (segment_length s + acc)%R) 0%R l.

(** * Properties *)

(** ** Escape-time iteration *)

(** The loop test is evaluated at most [max_iter + 1] times. *)
Lemma escape_loop_returns {F : Type} `{PyFloat F} (c : complex F) (max_iter : Z) :
  forall (fuel : nat) (z : complex F) (n : Z),
    (Z.to_nat (max_iter - n) < fuel)%nat ->
    exists z' n', escape_loop fuel c max_iter z n = Done (z', n')
                  /\ n <= n' /\ (n' <= max_iter \/ n' = n).
Proof.
  induction fuel as [|fuel IH]; intros z n Hf; [lia|].
  cbn [escape_loop].
  destruct (fleb (cabs z) (of_int 2)); cbn [andb].
  - destruct (Z.ltb_spec n max_iter) as [Hlt|Hge].
    + destruct (IH (cadd (cmul z z) c) (n + 1)) as (z' & n' & E & Hn & Hm); [lia|].
      exists z', n'. rewrite E. repeat split; lia.
    + exists z, n. repeat split; lia.
  - exists z, n. repeat split; lia.
Qed.

Lemma mandelbrot_zero_stays (max_iter : Z) :
  forall (fuel : nat) (n : Z),
    n <= max_iter -> (Z.to_nat (max_iter - n) < fuel)%nat ->
    escape_loop fuel (Cx 0%float 0%float) max_iter (Cx 0%float 0%float) n
    = Done (Cx 0%float 0%float, max_iter).
Proof.
  induction fuel as [|fuel IH]; intros n Hn Hf; [lia|].
  cbn [escape_loop].
  change (fleb (cabs (Cx 0%float 0%float)) (of_int 2)) with true.
  cbn [andb].
  destruct (Z.ltb_spec n max_iter) as [Hlt|Hge].
  - change (cadd (cmul (Cx 0%float 0%float) (Cx 0%float 0%float)) (Cx 0%float 0%float))
      with (Cx 0%float 0%float).
    apply IH; lia.
  - replace n with max_iter by lia. reflexivity.
Qed.

(** C1. [mandelbrot_iteration] returns [max_iter] at [c = 0] for every
    [max_iter >= 1], and a value strictly below [max_iter] at [c = 2+2i]
    for every [max_iter >= 5] (binary64 arithmetic; any fuel above
    [max_iter] suffices). *)
Theorem mandelbrot_iteration_known_points :
  (forall (max_iter : Z) (fuel : nat),
      1 <= max_iter -> (Z.to_nat max_iter < fuel)%nat ->
      mandelbrot_iteration fuel (Cx 0%float 0%float) max_iter = Done max_iter)
  /\ (forall (max_iter : Z) (fuel : nat),
         5 <= max_iter -> (Z.to_nat max_iter < fuel)%nat ->
         exists n, mandelbrot_iteration fuel (Cx 2%float 2%float) max_iter = Done n
                   /\ n < max_iter).
Proof.
  split; intros max_iter fuel Hm Hf.
  - unfold mandelbrot_iteration.
    change czero with (Cx 0%float 0%float).
    rewrite mandelbrot_zero_stays by (rewrite ?Z.sub_0_r; lia).
    reflexivity.
  - exists 1.
    destruct fuel as [|[|fuel]]; [lia | lia |].
    unfold mandelbrot_iteration. cbn [escape_loop].
    change (fleb (cabs (czero (F:=float))) (of_int 2)) with true.
    destruct (Z.ltb_spec 0 max_iter) as [_|]; [|lia].
    cbn [andb].
    change (fleb (cabs (cadd (cmul czero czero) (Cx 2%float 2%float))) (of_int 2))
      with false.
    cbn. split; [reflexivity | lia].
Qed.

Lemma mandelbrot_iteration_known_points_witness :
  mandelbrot_iteration 8 (Cx 0%float 0%float) 7 = Done 7
  /\ exists n, mandelbrot_iteration 8 (Cx 2%float 2%float) 7 = Done n /\ n < 7.
Proof.
  split.
  - apply (proj1 mandelbrot_iteration_known_points 7 8%nat); [lia | simpl; lia].
  - apply (proj2 mandelbrot_iteration_known_points 7 8%nat); [lia | simpl; lia].
Defined.

(** ** Koch curve *)

Section KochFacts.
Context {F : Type} `{PyFloat F}.
Variables (width height : Z) (c : color) (line_width : Z).

Lemma leaf_inside_one (s : @fpoint F * @fpoint F) :
  leaf_inside width height s = true ->
  exists a b, leaf_ops width height c line_width s = [Line c a b line_width].
Proof.
  unfold leaf_inside, leaf_ops, checked_line.
  destruct (round_point (fst s)) as [a| |]; try discriminate.
  destruct (round_point (snd s)) as [b| |]; try discriminate.
  cbn [bind]. intros ->. now exists a, b.
Qed.

Lemma round_point_has_fuel (p : @fpoint F) : round_point p <> OutOfFuel.
Proof.
  unfold round_point.
  destruct (round_int (fst p)); cbn; [|discriminate].
  destruct (round_int (snd p)); cbn; discriminate.
Qed.

Lemma base_case_leaf_ops (p1 p2 : @fpoint F) :
  try_except (checked_line width height c line_width p1 p2) (Done [])
  = Done (leaf_ops width height c line_width (p1, p2)).
Proof.
  unfold leaf_ops, checked_line. cbn [fst snd].
  pose proof (round_point_has_fuel p1) as N1.
  pose proof (round_point_has_fuel p2) as N2.
  destruct (round_point p1) as [a| |]; cbn [bind try_except];
    try reflexivity; try contradiction.
  destruct (round_point p2) as [b| |]; cbn [bind try_except];
    try reflexivity; contradiction.
Qed.

Lemma koch_curve_draws_leaves :
  forall (fuel : nat) (p1 p2 : @fpoint F) (d : Z) leaves,
    koch_leaves fuel p1 p2 d = Done leaves ->
    koch_curve fuel p1 p2 d width height c line_width
    = Done (flat_map (leaf_ops width height c line_width) leaves).
Proof.
  induction fuel as [|fuel IH]; intros p1 p2 d leaves; [discriminate|].
  cbn [koch_leaves koch_curve].
  destruct (d =? 0)%Z.
  - intros [= <-]. rewrite base_case_leaf_ops. cbn. now rewrite app_nil_r.
  - destruct (koch_split p1 p2) as [[q2 q3] q4].
    destruct (koch_leaves fuel p1 q2 (d - 1)) as [l1| |] eqn:E1; try discriminate.
    destruct (koch_leaves fuel q2 q3 (d - 1)) as [l2| |] eqn:E2; try discriminate.
    destruct (koch_leaves fuel q3 q4 (d - 1)) as [l3| |] eqn:E3; try discriminate.
    destruct (koch_leaves fuel q4 p2 (d - 1)) as [l4| |] eqn:E4; try discriminate.
    cbn [bind]. intros [= <-].
    rewrite (IH _ _ _ _ E1), (IH _ _ _ _ E2), (IH _ _ _ _ E3), (IH _ _ _ _ E4).
    cbn [bind]. now rewrite !flat_map_app.
Qed.

Lemma koch_leaves_count :
  forall (fuel : nat) (p1 p2 : @fpoint F) (d : Z),
    0 <= d -> (Z.to_nat d < fuel)%nat ->
    exists leaves, koch_leaves fuel p1 p2 d = Done leaves
                   /\ Z.of_nat (length leaves) = 4 ^ d.
Proof.
  induction fuel as [|fuel IH]; intros p1 p2 d Hd Hf; [lia|].
  cbn [koch_leaves].
  destruct (Z.eqb_spec d 0) as [->|Hnz].
  - exists [(p1, p2)]. now split.
  - destruct (koch_split p1 p2) as [[q2 q3] q4].
    assert (Hd' : 0 <= d - 1) by lia.
    assert (Hf' : (Z.to_nat (d - 1) < fuel)%nat) by lia.
    destruct (IH p1 q2 _ Hd' Hf') as (l1 & -> & L1).
    destruct (IH q2 q3 _ Hd' Hf') as (l2 & -> & L2).
    destruct (IH q3 q4 _ Hd' Hf') as (l3 & -> & L3).
    destruct (IH q4 p2 _ Hd' Hf') as (l4 & -> & L4).
    cbn [bind]. eexists; split; [reflexivity|].
    rewrite !length_app, !Nat2Z.inj_add, L1, L2, L3, L4.
    replace (4 ^ d) with (4 * 4 ^ (d - 1)); [lia|].
    rewrite <- Z.pow_succ_r by lia. f_equal. lia.
Qed.

Lemma inside_leaves_count (leaves : list (@fpoint F * @fpoint F)) :
  forallb (leaf_inside width height) leaves = true ->
  length (flat_map (leaf_ops width height c line_width) leaves) = length leaves.
Proof.
  induction leaves as [|s leaves IH]; [reflexivity|].
  cbn [forallb flat_map]. intros [Hs Hl]%andb_prop.
  destruct (leaf_inside_one s Hs) as (a & b & ->).
  cbn. now rewrite IH.
Qed.
End KochFacts.

(** C2. For every depth [d >= 0] and endpoints whose depth-0 segments all
    pass the range test of the raster, [koch_curve] draws exactly [4^d]
    lines; at depth 0 with [p1 = (0,100)], [p2 = (300,100)] it draws the one
    line between the input endpoints (binary64; the raster must hold it). *)
Theorem koch_curve_segment_count :
  (forall (F : Type) (HF : PyFloat F) (d : Z) (fuel : nat) (p1 p2 : @fpoint F)
          (width height : Z) (c : color) (line_width : Z),
      0 <= d -> (Z.to_nat d < fuel)%nat ->
      exists leaves ops,
        koch_leaves fuel p1 p2 d = Done leaves
        /\ koch_curve fuel p1 p2 d width height c line_width = Done ops
        /\ (forallb (leaf_inside width height) leaves = true ->
            Z.of_nat (length ops) = 4 ^ d))
  /\ (forall (fuel : nat) (width height : Z) (c : color) (line_width : Z),
         (0 < fuel)%nat -> 300 <= width -> 100 <= height ->
         koch_curve fuel (0%float, 100%float) (300%float, 100%float) 0
                    width height c line_width
         = Done [Line c (0, 100) (300, 100) line_width]).
Proof.
  split.
  - intros F HF d fuel p1 p2 width height c line_width Hd Hf.
    destruct (koch_leaves_count fuel p1 p2 d Hd Hf) as (leaves & E & L).
    exists leaves, (flat_map (leaf_ops width height c line_width) leaves).
    split; [exact E|]. split.
    + now apply koch_curve_draws_leaves.
    + intros Hin. now rewrite inside_leaves_count.
  - intros [|fuel] width height c line_width Hf Hw Hh; [lia|].
    cbn [koch_curve Z.eqb].
    unfold checked_line.
    change (round_point (0%float, 100%float)) with (Done (0, 100)).
    change (round_point (300%float, 100%float)) with (Done (300, 100)).
    cbn [bind try_except]. unfold in_range. cbn [fst snd].
    destruct (Z.leb_spec 300 width); [|lia].
    destruct (Z.leb_spec 100 height); [|lia].
    destruct (Z.leb_spec 0 width); [|lia].
    reflexivity.
Qed.

Lemma koch_curve_segment_count_witness :
  (exists ops,
      koch_curve 3 (0%float, 100%float) (300%float, 100%float) 2 400 400
                 ColorScheme.WHITE 1 = Done ops
      /\ Z.of_nat (length ops) = 4 ^ 2)
  /\ koch_curve 1 (0%float, 100%float) (300%float, 100%float) 0 400 400
                ColorScheme.WHITE 1
     = Done [Line ColorScheme.WHITE (0, 100) (300, 100) 1].
Proof.
  split.
  - destruct (proj1 koch_curve_segment_count float _ 2 3%nat
                    (0%float, 100%float) (300%float, 100%float)
                    400 400 ColorScheme.WHITE 1)
      as (leaves & ops & E & C & L); [lia | simpl; lia |].
    exists ops. split; [exact C|]. apply L.
    vm_compute in E. injection E as <-. vm_compute. reflexivity.
  - apply (proj2 koch_curve_segment_count 1%nat 400 400); lia.
Defined.

(** ** Iteration clamps *)

Lemma basic_max_iter_idem (it : Z) : basic_max_iter (basic_max_iter it) = basic_max_iter it.
Proof. unfold basic_max_iter. lia. Qed.

Lemma optimized_max_iter_idem (it : Z) :
  optimized_max_iter (optimized_max_iter it) = optimized_max_iter it.
Proof. unfold optimized_max_iter. lia. Qed.

Lemma morph_max_iter_idem (it : Z) : morph_max_iter (morph_max_iter it) = morph_max_iter it.
Proof. unfold morph_max_iter. lia. Qed.

Lemma julia_max_iter_idem (it : Z) : julia_max_iter (julia_max_iter it) = julia_max_iter it.
Proof. unfold julia_max_iter. lia. Qed.

(** Each entry point reads [iterations] only through its [max_iter]. *)
Lemma mandelbrot_basic_clamped {F : Type} `{PyMath F} (fuel : nat) (w h it : Z)
      (zoom ox oy : F) (pal : palette) :
  mandelbrot_basic fuel w h it zoom ox oy pal
  = mandelbrot_basic fuel w h (basic_max_iter it) zoom ox oy pal.
Proof. unfold mandelbrot_basic. now rewrite basic_max_iter_idem. Qed.

Lemma mandelbrot_optimized_clamped {F : Type} `{PyMath F} (w h it : Z)
      (zoom ox oy : F) (pal : palette) :
  mandelbrot_optimized w h it zoom ox oy pal
  = mandelbrot_optimized w h (optimized_max_iter it) zoom ox oy pal.
Proof. unfold mandelbrot_optimized. now rewrite optimized_max_iter_idem. Qed.

Lemma mandelbrot_julia_morph_clamped {F : Type} `{PyMath F} (fuel : nat)
      (w h it : Z) (morph_factor : F) :
  mandelbrot_julia_morph fuel w h it morph_factor
  = mandelbrot_julia_morph fuel w h (morph_max_iter it) morph_factor.
Proof. unfold mandelbrot_julia_morph. now rewrite morph_max_iter_idem. Qed.

Lemma julia_draw_clamped {F : Type} `{PyFloat F} (fuel : nat) (w h it : Z) :
  julia_draw fuel w h it = julia_draw fuel w h (julia_max_iter it).
Proof. unfold julia_draw. now rewrite julia_max_iter_idem. Qed.

(** C6, as stated, fails: [julia.draw] has no ceiling; a request of 5000
    iterations is used as it is. *)
Lemma julia_max_iter_above_ceiling :
  julia_max_iter 5000 = 5000 /\ ~ (julia_max_iter 5000 <= 1000).
Proof. unfold julia_max_iter. split; lia. Qed.

(** C6, amended. The Mandelbrot entry points render with the requested
    value clamped to at most 500 (basic), 1000 (optimized) and 200 (morph);
    [julia.draw] renders with [max(10, iterations)], which is the requested
    value itself from 10 on. *)
Theorem max_iter_ceilings :
  forall (F : Type) (HF : PyFloat F) (HM : PyMath F) (fuel : nat) (w h it : Z)
         (zoom ox oy morph_factor : F) (pal : palette),
    (mandelbrot_basic fuel w h it zoom ox oy pal
     = mandelbrot_basic fuel w h (basic_max_iter it) zoom ox oy pal
     /\ basic_max_iter it <= 500)
    /\ (mandelbrot_optimized w h it zoom ox oy pal
        = mandelbrot_optimized w h (optimized_max_iter it) zoom ox oy pal
        /\ optimized_max_iter it <= 1000)
    /\ (mandelbrot_julia_morph fuel w h it morph_factor
        = mandelbrot_julia_morph fuel w h (morph_max_iter it) morph_factor
        /\ morph_max_iter it <= 200)
    /\ (julia_draw fuel w h it = julia_draw fuel w h (julia_max_iter it)
        /\ (10 <= it -> julia_max_iter it = it)).
Proof.
  intros. repeat split.
  - apply mandelbrot_basic_clamped.
  - unfold basic_max_iter. lia.
  - apply mandelbrot_optimized_clamped.
  - unfold optimized_max_iter. lia.
  - apply mandelbrot_julia_morph_clamped.
  - unfold morph_max_iter. lia.
  - apply julia_draw_clamped.
  - unfold julia_max_iter. lia.
Qed.

Lemma max_iter_ceilings_witness :
  basic_max_iter 5000 <= 500 /\ optimized_max_iter 5000 <= 1000
  /\ morph_max_iter 5000 <= 200 /\ julia_max_iter 5000 = 5000.
Proof.
  destruct (max_iter_ceilings R _ _ 0%nat 1 1 5000 1%R 0%R 0%R 0%R DefaultPalette)
    as ((_ & Hb) & (_ & Ho) & (_ & Hm) & (_ & Hj)).
  split; [exact Hb|]. split; [exact Ho|]. split; [exact Hm|]. apply Hj. lia.
Defined.

(** C10. A requested value of at most 10 gives [max_iter = 10] at every
    escape-time entry point, so two such requests render the same. *)
Theorem low_iterations_render_alike :
  (forall it : Z,
      it <= 10 ->
      julia_max_iter it = 10 /\ optimized_max_iter it = 10
      /\ basic_max_iter it = 10 /\ morph_max_iter it = 10)
  /\ (forall (F : Type) (HF : PyFloat F) (fuel : nat) (w h it1 it2 : Z),
         it1 <= 10 -> it2 <= 10 ->
         julia_draw fuel w h it1 = julia_draw fuel w h it2)
  /\ (forall (F : Type) (HF : PyFloat F) (HM : PyMath F) (fuel : nat) (w h : Z)
             (zoom ox oy morph_factor : F) (pal : palette) (it1 it2 : Z),
         it1 <= 10 -> it2 <= 10 ->
         mandelbrot_optimized w h it1 zoom ox oy pal
         = mandelbrot_optimized w h it2 zoom ox oy pal
         /\ mandelbrot_basic fuel w h it1 zoom ox oy pal
            = mandelbrot_basic fuel w h it2 zoom ox oy pal
         /\ mandelbrot_julia_morph fuel w h it1 morph_factor
            = mandelbrot_julia_morph fuel w h it2 morph_factor).
Proof.
  assert (J : forall it, it <= 10 -> julia_max_iter it = 10)
    by (intros; unfold julia_max_iter; lia).
  assert (O : forall it, it <= 10 -> optimized_max_iter it = 10)
    by (intros; unfold optimized_max_iter; lia).
  assert (B : forall it, it <= 10 -> basic_max_iter it = 10)
    by (intros; unfold basic_max_iter; lia).
  assert (M : forall it, it <= 10 -> morph_max_iter it = 10)
    by (intros; unfold morph_max_iter; lia).
  split; [|split].
  - intros it Hit. auto.
  - intros F HF fuel w h it1 it2 H1 H2.
    rewrite (julia_draw_clamped fuel w h it1), (julia_draw_clamped fuel w h it2).
    now rewrite !J.
  - intros F HF HM fuel w h zoom ox oy mf pal it1 it2 H1 H2.
    split; [|split].
    + rewrite (mandelbrot_optimized_clamped w h it1),
        (mandelbrot_optimized_clamped w h it2).
      now rewrite !O.
    + rewrite (mandelbrot_basic_clamped fuel w h it1),
        (mandelbrot_basic_clamped fuel w h it2).
      now rewrite !B.
    + rewrite (mandelbrot_julia_morph_clamped fuel w h it1),
        (mandelbrot_julia_morph_clamped fuel w h it2).
      now rewrite !M.
Qed.

Lemma low_iterations_render_alike_witness :
  julia_max_iter 0 = 10
  /\ julia_draw (F:=float) 12 2 2 0 = julia_draw (F:=float) 12 2 2 10
  /\ mandelbrot_basic (F:=R) 12 2 2 (-3) 1%R 0%R 0%R OceanPalette
     = mandelbrot_basic (F:=R) 12 2 2 7 1%R 0%R 0%R OceanPalette.
Proof.
  split; [|split].
  - apply (proj1 low_iterations_render_alike 0). lia.
  - apply (proj1 (proj2 low_iterations_render_alike) float _ 12%nat 2 2 0 10); lia.
  - apply (proj2 (proj2 low_iterations_render_alike) R _ _ 12%nat 2 2
                 1%R 0%R 0%R 0%R OceanPalette (-3) 7); lia.
Defined.

(** ** Colour of points that do not escape *)

Lemma Rfloor_IZR (n : Z) : Rfloor (IZR n) = n.
Proof.
  unfold Rfloor.
  assert (E : (n + 1)%Z = up (IZR n)).
  { apply tech_up; rewrite plus_IZR; lra. }
  lia.
Qed.

Lemma Rtoward_zero_IZR (n : Z) : 0 <= n -> Rtoward_zero (IZR n) = n.
Proof.
  intros Hn. unfold Rtoward_zero, Rleb.
  destruct (Rle_dec 0 (IZR n)) as [_|N].
  - apply Rfloor_IZR.
  - exfalso. apply N. now apply IZR_le.
Qed.

(** C5, as stated, fails on [julia.draw]: on a 2 x 2 surface with
    [max_iter = 10] the pixel (1, 1) starts at [z = 0], runs all 10
    iterations and is drawn blue (binary64). *)
Lemma julia_in_set_pixel_not_black :
  julia_loop (F:=float) 20 (fopp (dec 7 1)) (dec 27015 5) 10 0%float 0%float 0
  = Done 10
  /\ julia_color (F:=float) 10 10 = Done [0; 0; 255]
  /\ julia_draw (F:=float) 20 2 2 10
     = Done [SetAt (0, 0) [230; 115; 25]; SetAt (0, 1) [179; 89; 76];
             SetAt (1, 0) [204; 102; 51]; SetAt (1, 1) [0; 0; 255]]
  /\ julia_color (F:=float) 10 10 <> Done [0; 0; 0].
Proof.
  repeat split; try (vm_compute; reflexivity).
  vm_compute. discriminate.
Qed.

(** C5, amended. [get_color_palette] returns black whenever
    [iteration >= max_iter], in every palette mode; [julia.draw] does not
    use it and colours a pixel whose iteration count equals [max_iter]
    [(0, 0, 255)] (over the reals). *)
Theorem non_escaping_colors :
  (forall (F : Type) (HF : PyFloat F) (HM : PyMath F)
          (iteration max_iter : Z) (pal : palette),
      max_iter <= iteration ->
      get_color_palette iteration max_iter pal = Done [0; 0; 0])
  /\ (forall max_iter : Z,
         1 <= max_iter ->
         julia_color (F:=R) max_iter max_iter = Done [0; 0; 255]).
Proof.
  split.
  - intros F HF HM iteration max_iter pal Hge.
    unfold get_color_palette.
    destruct (Z.leb_spec max_iter iteration); [reflexivity | lia].
  - intros max_iter Hm. unfold julia_color. cbn [trunc_int of_int fdiv R_PyFloat].
    replace (IZR (max_iter * 255) / IZR max_iter)%R with (IZR 255).
    + rewrite Rtoward_zero_IZR by lia. reflexivity.
    + rewrite mult_IZR. field. apply not_0_IZR. lia.
Qed.

Lemma non_escaping_colors_witness :
  get_color_palette (F:=R) 10 10 FirePalette = Done [0; 0; 0]
  /\ julia_color (F:=R) 10 10 = Done [0; 0; 255].
Proof.
  split.
  - apply (proj1 non_escaping_colors R _ _ 10 10 FirePalette). lia.
  - apply (proj2 non_escaping_colors 10). lia.
Defined.

(** On binary64 [julia.draw] gives the same colour at
    [iteration = max_iter], for every [max_iter] from 1 to 1000 (by
    evaluation). *)
Lemma julia_color_blue_binary64 (max_iter : Z) :
  1 <= max_iter <= 1000 ->
  julia_color (F:=float) max_iter max_iter = Done [0; 0; 255].
Proof.
  intros Hm.
  assert (A : forallb (fun m => match julia_color (F:=float) m m with
                                | Done c =>
                                    if list_eq_dec Z.eq_dec c [0; 0; 255]
                                    then true else false
                                | _ => false
                                end)
                      (map (Z.add 1) (range 1000)) = true)
    by (vm_compute; reflexivity).
  rewrite forallb_forall in A. specialize (A max_iter).
  assert (Hin : In max_iter (map (Z.add 1) (range 1000))).
  { apply in_map_iff. exists (max_iter - 1). split; [lia|].
    unfold range. apply in_map_iff. exists (Z.to_nat (max_iter - 1)).
    split; [lia | apply in_seq; lia]. }
  specialize (A Hin).
  destruct (julia_color (F:=float) max_iter max_iter) as [c| |]; try discriminate.
  destruct (list_eq_dec Z.eq_dec c [0; 0; 255]); [now subst | discriminate].
Qed.

(** In the vectorised loop of [mandelbrot_optimized] the count of a point
    that never leaves stops at [max_iter - 1]: [M] holds the index of the
    last round, so [get_color_palette] never sees [max_iter] there
    (binary64, [c = 0], 10 rounds). *)
Lemma optimized_count_below_max_iter :
  masked_rounds (F:=float) 10 0 (Cx 0%float 0%float) czero 0 = 9.
Proof. vm_compute. reflexivity. Qed.

(** ** Sierpinski: choice of the method *)

(** C7. With the threshold [T = 7]: above it [draw] renders with the chaos
    game, at or below it with the recursive subdivision (at depth
    [iterations], leaving the generator untouched). *)
Theorem sierpinski_method_threshold :
  exists T : Z,
    forall (F : Type) (HF : PyFloat F) (G : Generator) (fuel : nat)
           (width height iterations : Z) (g : gstate G),
      (T < iterations ->
       sierpinski_draw fuel width height iterations g
       = (r <- sierpinski_chaos_game width height
                 (Z.min 100000 (iterations * 8000)) ColorScheme.GREEN true g ;;
          Done (Fill [0; 0; 0; 0] :: fst r ++ sierpinski_info iterations, snd r)))
      /\ (iterations <= T ->
          exists (p1 p2 p3 : @fpoint F) (c : color) (min_size : F),
            sierpinski_draw fuel width height iterations g
            = (ops <- sierpinski_triangle fuel width height p1 p2 p3 iterations
                        c Outline min_size ;;
               Done (Fill [0; 0; 0; 0] :: ops, g))).
Proof.
  exists 7. intros F HF G fuel width height iterations g. split; intros Hit.
  - unfold sierpinski_draw.
    destruct (Z.leb_spec iterations 7) as [|_]; [lia|].
    destruct (sierpinski_chaos_game width height _ ColorScheme.GREEN true g)
      as [[ops g']| |]; reflexivity.
  - unfold sierpinski_draw.
    destruct (Z.leb_spec iterations 7) as [_|]; [|lia].
    match goal with
    | |- context [sierpinski_triangle ?f ?w ?h ?a ?b ?d ?i ?c ?v ?m] =>
        exists a, b, d, c, m;
        destruct (sierpinski_triangle f w h a b d i c v m) as [ops| |]
    end; cbn [bind]; try reflexivity.
    unfold sierpinski_info.
    destruct (Z.ltb_spec 8 iterations); [lia|].
    now rewrite app_nil_r.
Qed.

(** ** Determinism *)

(** C3, as stated, fails on the chaos game: it has no seed and reads the
    module-level generator.  Two runs in a row, the second from the state
    the first left, plot different pixels (binary64, on the tape generator
    holding two zeros and 22 ones: the first run walks to the lower left
    vertex, the second to the top vertex). *)
Lemma chaos_game_runs_differ :
  sierpinski_chaos_game (F:=float) (G:=tape) 800 800 22 ColorScheme.GREEN false
                        (0 :: 0 :: repeat 1 22)
  = Done ([SetAt (100, 573) ColorScheme.GREEN], [])
  /\ sierpinski_chaos_game (F:=float) (G:=tape) 800 800 22 ColorScheme.GREEN false []
     = Done ([SetAt (400, 53) ColorScheme.GREEN], []).
Proof. split; vm_compute; reflexivity. Qed.

(** C3, amended. [draw_tree_stochastic] called with a seed reseeds the
    generator when it is entered, so what it draws and the state it leaves
    do not depend on the state of the generator before the call; the same
    holds for what the tree's [draw] draws, at every [iterations] (it passes
    the seed 42), and for Sierpinski's [draw] up to 7 iterations, which
    draws no random number. *)
Theorem seeded_rendering_is_reproducible :
  (forall (F : Type) (HF : PyFloat F) (HM : PyMath F) (G : Generator)
          (fuel : nat) (x y angle : F) (depth : Z) (length randomness : F)
          (seed : Z) (g1 g2 : gstate G),
      draw_tree_stochastic fuel x y angle depth length randomness (Some seed) g1
      = draw_tree_stochastic fuel x y angle depth length randomness (Some seed) g2)
  /\ (forall (F : Type) (HF : PyFloat F) (HM : PyMath F) (G : Generator)
             (fuel : nat) (width height iterations : Z) (g1 g2 : gstate G),
         drawn (tree_draw fuel width height iterations g1)
         = drawn (tree_draw fuel width height iterations g2))
  /\ (forall (F : Type) (HF : PyFloat F) (G : Generator)
             (fuel : nat) (width height iterations : Z) (g1 g2 : gstate G),
         iterations <= 7 ->
         drawn (sierpinski_draw fuel width height iterations g1)
         = drawn (sierpinski_draw fuel width height iterations g2)).
Proof.
  assert (S : forall (F : Type) (HF : PyFloat F) (HM : PyMath F) (G : Generator)
                     (fuel : nat) (x y angle : F) (depth : Z)
                     (length randomness : F) (seed : Z) (g1 g2 : gstate G),
             draw_tree_stochastic fuel x y angle depth length randomness (Some seed) g1
             = draw_tree_stochastic fuel x y angle depth length randomness (Some seed) g2).
  { intros. destruct fuel; reflexivity. }
  split; [exact S|]. split.
  - intros F HF HM G fuel width height iterations g1 g2.
    unfold tree_draw.
    repeat match goal with
           | |- context [(?a <=? ?b)%Z] => destruct (a <=? b)%Z
           end;
      try (match goal with
           | |- context [draw_tree_recursive ?f ?w ?h ?x ?y ?a ?d ?l ?p ?m ?s] =>
               destruct (draw_tree_recursive f w h x y a d l p m s)
           end; reflexivity).
    now rewrite (S F HF HM G fuel _ _ _ _ _ _ _ g1 g2).
  - intros F HF G fuel width height iterations g1 g2 Hit.
    unfold sierpinski_draw.
    destruct (Z.leb_spec iterations 7) as [_|]; [|lia].
    match goal with
    | |- context [sierpinski_triangle ?f ?w ?h ?a ?b ?d ?i ?c ?v ?m] =>
        destruct (sierpinski_triangle f w h a b d i c v m)
    end; reflexivity.
Qed.

Lemma seeded_rendering_is_reproducible_witness :
  drawn (sierpinski_draw (F:=float) (G:=tape) 5 81 81 1 [])
  = drawn (sierpinski_draw (F:=float) (G:=tape) 5 81 81 1 [1; 2; 3]).
Proof.
  apply (proj2 (proj2 seeded_rendering_is_reproducible) float _ tape 5%nat 81 81 1).
  lia.
Defined.

(** ** Fractal tree: termination *)

Lemma for_each_returns {A : Type} (l : list A) (body : A -> outcome (list draw_op)) :
  (forall a, In a l -> exists ops, body a = Done ops) ->
  exists ops, for_each l body = Done ops.
Proof.
  induction l as [|a l IH]; intros Hb; cbn [for_each].
  - now exists [].
  - destruct (Hb a (or_introl eq_refl)) as (ops & ->).
    destruct IH as (rest & ->); [intros b Hin; apply Hb; now right|].
    cbn [bind]. now eexists.
Qed.

Lemma py_nth_in_range {A : Type} (l : list A) (i : Z) :
  0 <= i < Z.of_nat (length l) -> exists a, py_nth l i = Some a.
Proof.
  intros Hi. unfold py_nth.
  destruct (Z.leb_spec 0 i); [|lia].
  destruct (Z.ltb_spec i (Z.of_nat (length l))); [|lia].
  cbn [andb].
  destruct (nth_error l (Z.to_nat i)) as [a|] eqn:E; [now exists a|].
  apply nth_error_None in E. lia.
Qed.

Lemma get_branch_color_returns (depth : Z) (length : R) (mode : color_mode) :
  1 <= depth -> exists c, get_branch_color (F:=R) depth length mode = Done c.
Proof.
  intros Hd. destruct mode; unfold get_branch_color; cbn [trunc_int R_PyFloat raising bind].
  - destruct (_ || _); [now eexists|].
    destruct (fltb _ _); now eexists.
  - destruct (4 <? depth); [now eexists|].
    destruct (py_nth_in_range [[124; 252; 0]; [50; 205; 50]; [0; 255; 127]]
                              (depth mod 3)) as (c & ->);
      [cbn [List.length]; pose proof (Z.mod_pos_bound depth 3); lia|].
    now exists c.
  - destruct (4 <? depth); [now eexists|].
    match goal with
    | |- context [py_nth ?l ?i] =>
        destruct (py_nth_in_range l i) as (c & ->);
          [cbn [List.length]; pose proof (Z.mod_pos_bound (depth + Rtoward_zero length) 6); lia|]
    end.
    now exists c.
  - destruct (3 <? depth); now eexists.
  - match goal with
    | |- context [py_nth ?l ?i] =>
        destruct (py_nth_in_range l i) as (c & ->);
          [cbn [List.length]; pose proof (Z.mod_pos_bound depth 6); lia|]
    end.
    now exists c.
  - match goal with
    | |- context [py_nth ?l ?i] =>
        destruct (py_nth_in_range l i) as (c & ->); [cbn [List.length]; lia|]
    end.
    now exists c.
  - now eexists.
Qed.

Lemma draw_branch_returns (width height : Z) (c : color) (thickness depth : Z)
      (p1 p2 : @fpoint R) :
  exists ops, draw_branch width height c thickness depth p1 p2 = Done ops.
Proof.
  unfold draw_branch, round_point. cbn [round_int R_PyFloat raising bind].
  now eexists.
Qed.

Lemma tree_stops_spec (params : TreeParameters) (depth : Z) (length mbs : R) :
  tree_stops params depth length mbs = true
  <-> (depth <= 0 \/ (length < Rmax (get (min_length params) (of_int 2)) mbs)%R).
Proof.
  unfold tree_stops, fmax. cbn [fltb R_PyFloat]. unfold Rltb.
  set (ml := get (min_length params) (of_int 2)).
  assert (E : (if (if Rlt_dec ml mbs then true else false) then mbs else ml) = Rmax ml mbs).
  { unfold Rmax. destruct (Rlt_dec ml mbs), (Rle_dec ml mbs); try reflexivity; lra. }
  rewrite E, orb_true_iff, Z.leb_le.
  destruct (Rlt_dec length (Rmax ml mbs)); intuition (try discriminate; try lia).
Qed.

Lemma tree_returns :
  forall (fuel : nat) (width height : Z) (x y angle : R) (depth : Z) (length : R)
         (params : TreeParameters) (mode : color_mode) (mbs : R),
    (Z.to_nat depth < fuel)%nat ->
    exists ops,
      draw_tree_recursive fuel width height x y angle depth length params mode mbs
      = Done ops.
Proof.
  induction fuel as [|fuel IH]; intros width height x y angle depth length
                                       params mode mbs Hf; [lia|].
  cbn [draw_tree_recursive].
  destruct (tree_stops params depth length mbs) eqn:St; [now eexists|].
  assert (Hd : 1 <= depth).
  { destruct (Z.le_gt_cases depth 0) as [Hle|]; [|lia].
    assert (tree_stops params depth length mbs = true)
      by (apply tree_stops_spec; now left).
    congruence. }
  cbn [trunc_int R_PyFloat raising bind].
  destruct (get_branch_color_returns depth length mode Hd) as (c & ->).
  cbn [bind].
  match goal with
  | |- context [draw_branch ?w ?h ?c ?t ?d ?p ?q] =>
      destruct (draw_branch_returns w h c t d p q) as (own & ->)
  end.
  destruct (Z.ltb_spec 0 depth); [|lia].
  match goal with
  | |- context [for_each ?l ?b] =>
      destruct (for_each_returns l b) as (rest & ->)
  end.
  - intros al _. apply IH. lia.
  - cbn [bind]. now eexists.
Qed.

Lemma dec_R (m k : Z) : dec (F:=R) m k = (IZR m / IZR (10 ^ k))%R.
Proof. reflexivity. Qed.

Lemma range_bounds (n i : Z) : In i (range n) -> 0 <= i < n.
Proof.
  unfold range. rewrite in_map_iff. intros (k & <- & Hk).
  apply in_seq in Hk. lia.
Qed.

Lemma child_branches_shorter (params : TreeParameters) (angle : R) (depth : Z)
      (length : R) :
  (0 < get (length_factor params) (dec 7 1) < 1)%R ->
  (0 < length)%R ->
  Forall (fun al => (snd al < length)%R) (child_branches params angle depth length).
Proof.
  intros Hlf Hl. unfold child_branches.
  set (lf := get (length_factor params) (dec 7 1)) in *.
  assert (Hnew : (length * lf < length)%R) by nra.
  cbn [fmul fadd fsub fdiv fabs of_int R_PyFloat].
  destruct (get (branches params) 2 =? 2).
  - repeat constructor; cbn [snd]; exact Hnew.
  - apply Forall_forall. intros al Hin.
    apply in_map_iff in Hin. destruct Hin as (i & <- & Hi).
    apply range_bounds in Hi.
    destruct (Z.eqb_spec (get (branches params) 2) 1) as [E|E]; cbn [snd];
      [exact Hnew|].
    set (bc := get (branches params) 2) in *.
    assert (Hbc : (0 < IZR (bc - 1))%R) by (apply IZR_lt; lia).
    assert (Hq : (0 <= IZR i / IZR (bc - 1) <= 1)%R).
    { split.
      - apply Rmult_le_pos; [apply IZR_le; lia | left; now apply Rinv_0_lt_compat].
      - apply Rmult_le_reg_r with (IZR (bc - 1)); [exact Hbc|].
        unfold Rdiv. rewrite Rmult_assoc, Rinv_l, Rmult_1_r, Rmult_1_l by lra.
        apply IZR_le. lia. }
    rewrite !dec_R. change (10 ^ 1) with 10.
    set (pf := (IZR i / IZR (bc - 1) - 5 / 10)%R).
    assert (Hpf : (Rabs pf <= 5 / 10)%R) by (apply Rabs_le; unfold pf; lra).
    pose proof (Rabs_pos pf) as Hp0.
    assert (Hv : (0 < 9 / 10 + 2 / 10 * Rabs pf <= 1)%R) by lra.
    assert (Hn0 : (0 < length * lf)%R) by nra.
    nra.
Qed.

(** C8. [draw_tree_recursive] returns for every position, angle, depth and
    length (fuel above [depth] suffices); a call stops at once when
    [depth <= 0] or the length is below
    [max(params.min_length, min_branch_size)], and otherwise draws and
    recurses into its [branches] children, each at [depth - 1] and with a
    strictly shorter branch (over the reals, for [0 < length_factor < 1]
    and [min_length > 0]). *)
Theorem tree_recursion_terminates :
  forall (fuel : nat) (width height : Z) (x y angle : R) (depth : Z) (length : R)
         (params : TreeParameters) (mode : color_mode) (min_branch_size : R),
    (0 < get (length_factor params) (dec 7 1) < 1)%R ->
    (0 < get (min_length params) (of_int 2))%R ->
    (Z.to_nat depth < fuel)%nat ->
    (exists ops,
        draw_tree_recursive fuel width height x y angle depth length params mode
                            min_branch_size = Done ops)
    /\ (tree_stops params depth length min_branch_size = true
        <-> (depth <= 0
             \/ (length < Rmax (get (min_length params) (of_int 2))
                               min_branch_size)%R))
    /\ (tree_stops params depth length min_branch_size = true ->
        draw_tree_recursive fuel width height x y angle depth length params mode
                            min_branch_size = Done [])
    /\ (tree_stops params depth length min_branch_size = false ->
        exists own rest,
          for_each (child_branches params angle depth length)
            (fun al =>
               draw_tree_recursive (Nat.pred fuel) width height
                 (x + cos (radians angle) * length)%R
                 (y - sin (radians angle) * length)%R
                 (fst al) (depth - 1) (snd al) params mode min_branch_size)
          = Done rest
          /\ draw_tree_recursive fuel width height x y angle depth length params
                                 mode min_branch_size = Done (own ++ rest)
          /\ List.length (child_branches params angle depth length)
             = Z.to_nat (get (branches params) 2)
          /\ Forall (fun al => (snd al < length)%R)
                    (child_branches params angle depth length)).
Proof.
  intros fuel width height x y angle depth length params mode mbs Hlf Hml Hf.
  split; [now apply tree_returns|].
  split; [apply tree_stops_spec|].
  destruct fuel as [|fuel]; [lia|]. cbn [Nat.pred].
  split.
  - intros St. cbn [draw_tree_recursive]. now rewrite St.
  - intros St.
    assert (Hd : 1 <= depth).
    { destruct (Z.le_gt_cases depth 0) as [Hle|]; [|lia].
      assert (tree_stops params depth length mbs = true)
        by (apply tree_stops_spec; now left).
      congruence. }
    assert (Hl : (0 < length)%R).
    { destruct (Rlt_dec 0 length) as [|N]; [assumption|].
      assert (tree_stops params depth length mbs = true).
      { apply tree_stops_spec. right.
        pose proof (Rmax_l (get (min_length params) (of_int 2)) mbs). lra. }
      congruence. }
    cbn [draw_tree_recursive]. rewrite St.
    cbn [trunc_int R_PyFloat raising bind].
    destruct (get_branch_color_returns depth length mode Hd) as (c & ->).
    cbn [bind].
    match goal with
    | |- context [draw_branch ?w ?h ?c ?t ?d ?p ?q] =>
        destruct (draw_branch_returns w h c t d p q) as (own & ->)
    end.
    destruct (Z.ltb_spec 0 depth); [|lia].
    match goal with
    | |- context [for_each ?l ?b] =>
        destruct (for_each_returns l b) as (rest & E)
    end.
    { intros al _. apply tree_returns. lia. }
    exists own, rest.
    split; [exact E|]. split.
    + cbn [fadd fsub fmul fcos fsin R_PyFloat R_PyMath] in E |- *.
      rewrite E. reflexivity.
    + split; [|now apply child_branches_shorter].
      unfold child_branches.
      destruct (Z.eqb_spec (get (branches params) 2) 2) as [->|_]; [reflexivity|].
      unfold range. now rewrite !length_map, length_seq.
Qed.

Lemma tree_recursion_terminates_witness :
  exists ops,
    draw_tree_recursive (F:=R) 4 800 600 400%R 540%R 90%R 3 100%R CLASSIC
                        GradientMode 1%R = Done ops.
Proof.
  apply (tree_recursion_terminates 4 800 600 400%R 540%R 90%R 3 100%R CLASSIC
                                   GradientMode 1%R).
  - cbn [CLASSIC length_factor get]. rewrite dec_R. change (10 ^ 1) with 10. lra.
  - cbn [CLASSIC min_length get of_int R_PyFloat]. lra.
  - simpl. lia.
Defined.

(** Termination needs no assumption on the arithmetic: on every numeric
    instance the fuel above [depth] is never used up. *)
Lemma for_each_has_fuel {A : Type} (l : list A) (body : A -> outcome (list draw_op)) :
  (forall a, In a l -> body a <> OutOfFuel) -> for_each l body <> OutOfFuel.
Proof.
  induction l as [|a l IH]; intros Hb; cbn [for_each]; [discriminate|].
  pose proof (Hb a (or_introl eq_refl)) as Ha.
  destruct (body a); cbn [bind]; try discriminate; try contradiction.
  assert (Hl : for_each l body <> OutOfFuel)
    by (apply IH; intros b Hin; apply Hb; now right).
  destruct (for_each l body); cbn [bind]; try discriminate; contradiction.
Qed.

Lemma get_branch_color_has_fuel {F : Type} `{PyFloat F} (depth : Z) (length : F)
      (mode : color_mode) :
  get_branch_color depth length mode <> OutOfFuel.
Proof.
  unfold get_branch_color. destruct mode;
    repeat first
      [ discriminate
      | match goal with
        | |- context [if ?b then _ else _] => destruct b
        | |- context [raising ?o] => destruct o
        end; cbn [raising bind] ].
Qed.

Lemma tree_never_out_of_fuel {F : Type} `{PyMath F} :
  forall (fuel : nat) (width height : Z) (x y angle : F) (depth : Z) (length : F)
         (params : TreeParameters) (mode : color_mode) (mbs : F),
    (Z.to_nat depth < fuel)%nat ->
    draw_tree_recursive fuel width height x y angle depth length params mode mbs
    <> OutOfFuel.
Proof.
  induction fuel as [|fuel IH]; intros width height x y angle depth length
                                       params mode mbs Hf; [lia|].
  cbn [draw_tree_recursive].
  destruct (tree_stops params depth length mbs) eqn:St; [discriminate|].
  unfold tree_stops in St. apply orb_false_elim in St. destruct St as [St _].
  apply Z.leb_gt in St.
  match goal with
  | |- context [raising ?o] => destruct o
  end; cbn [raising bind]; [|discriminate].
  pose proof (get_branch_color_has_fuel depth length mode) as Hc.
  destruct (get_branch_color depth length mode) as [c| |]; cbn [bind];
    try discriminate; try contradiction.
  match goal with
  | |- context [draw_branch ?w ?h ?c ?t ?d ?p ?q] =>
      destruct (draw_branch w h c t d p q)
  end; try discriminate.
  destruct (0 <? depth); [|discriminate].
  match goal with
  | |- context [for_each ?l ?b] =>
      pose proof (for_each_has_fuel l b) as Hl; destruct (for_each l b)
  end; cbn [bind]; try discriminate.
  apply Hl. intros al _. apply IH. lia.
Qed.

(** ** Chaos game: the plotted points and the triangle *)

Lemma hull_above (vs : list (R * R)) (bound : R) :
  (forall v, In v vs -> (bound <= snd v)%R) ->
  forall p, hull vs p -> (bound <= snd p)%R.
Proof.
  intros Hv p Hp. induction Hp as [v Hin|p q t _ IHp _ IHq Ht].
  - now apply Hv.
  - cbn [snd]. nra.
Qed.

(** C4, as stated, fails: on an 800 x 800 surface, from the centre of the
    triangle (two raw draws of 2^52 give 0.5 twice) and with the top vertex
    chosen in every round, the one plotted pixel is (400, 53), above the top
    vertex at y = 53.41..: rounding to the pixel grid leaves the triangle
    (binary64). *)
Lemma chaos_game_pixel_outside_hull :
  chaos_start (F:=float) (G:=tape) 800 800 [2 ^ 52; 2 ^ 52]
  = ((400%float, 400%float), [])
  /\ sierpinski_chaos_game (F:=float) (G:=tape) 800 800 22 ColorScheme.GREEN
                           false [2 ^ 52; 2 ^ 52]
     = Done ([SetAt (400, 53) ColorScheme.GREEN], [])
  /\ ~ hull (map real_point (chaos_vertices (F:=float) 800 800)) (pixel (400, 53)).
Proof.
  split; [vm_compute; reflexivity|].
  split; [vm_compute; reflexivity|].
  intros Hin.
  apply (hull_above _ (213 / 4)%R) in Hin.
  - cbn [pixel snd] in Hin. lra.
  - intros v Hv. apply in_map_iff in Hv. destruct Hv as (v0 & <- & Hv0).
    vm_compute in Hv0.
    unfold real_point, to_R. cbn [snd].
    destruct Hv0 as [<-|[<-|[<-|[]]]]; cbn [snd];
      match goal with
      | |- context [fraction ?x] =>
          let f := eval vm_compute in (fraction x) in
          change (fraction x) with f
      end; cbn [fst snd]; lra.
Qed.

Lemma Rfloor_bounds (x : R) : (IZR (Rfloor x) <= x < IZR (Rfloor x) + 1)%R.
Proof.
  unfold Rfloor. rewrite minus_IZR.
  destruct (archimed x) as [H1 H2]. lra.
Qed.

Lemma Rnearest_even_close (x : R) : (Rabs (IZR (Rnearest_even x) - x) <= 1 / 2)%R.
Proof.
  unfold Rnearest_even, Rltb.
  pose proof (Rfloor_bounds x) as Hb.
  set (n := Rfloor x) in *.
  destruct (Rlt_dec (x - IZR n) (1 / 2)).
  - apply Rabs_le. lra.
  - destruct (Rlt_dec (1 / 2) (x - IZR n)).
    + rewrite plus_IZR. apply Rabs_le. lra.
    + destruct (Z.even n); [|rewrite plus_IZR]; apply Rabs_le; lra.
Qed.

Section ChaosFacts.
Context {G : Generator}.
Variables (width height : Z) (c : color) (fade_effect : bool).
Variable vs : list (R * R).
Hypothesis vs_nonempty : (0 < length vs)%nat.

Lemma choice_in (d : R * R) (g : gstate G) : In (fst (choice d vs g)) vs.
Proof.
  unfold choice. destruct (gnext G g) as [r g']. cbn [fst].
  apply nth_In.
  pose proof (Z.mod_pos_bound r (Z.of_nat (length vs))). lia.
Qed.

Lemma chaos_step_in_hull (p v : R * R) :
  hull vs p -> In v vs ->
  hull vs ((fst p + fst v) * dec 5 1, (snd p + snd v) * dec 5 1)%py.
Proof.
  intros Hp Hv.
  replace ((fst p + fst v) * dec 5 1, (snd p + snd v) * dec 5 1)%py
    with ((1 / 2 * fst p + (1 - 1 / 2) * fst v)%R,
          (1 / 2 * snd p + (1 - 1 / 2) * snd v)%R).
  - apply hull_between; [assumption | now apply hull_vertex | lra].
  - cbn [fadd fmul R_PyFloat]. rewrite dec_R. change (10 ^ 1) with 10.
    f_equal; lra.
Qed.

Lemma chaos_rounds_near_hull :
  forall (rounds : nat) (i : Z) (p : R * R) (g : gstate G),
    hull vs p ->
    exists ops g',
      chaos_rounds rounds i width height vs c fade_effect p g = Done (ops, g')
      /\ forall px col,
          In (SetAt px col) ops ->
          (0 <= fst px < width /\ 0 <= snd px < height)
          /\ exists q, hull vs q
                       /\ (Rabs (IZR (fst px) - fst q) <= 1 / 2)%R
                       /\ (Rabs (IZR (snd px) - snd q) <= 1 / 2)%R.
Proof.
  induction rounds as [|rounds IH]; intros i p g Hp; cbn [chaos_rounds].
  - exists [], g. split; [reflexivity|]. intros px col [].
  - unfold fpoint.
    pose proof (choice_in p g) as Hin.
    destruct (choice p vs g) as [v g1]. cbn [fst] in Hin.
    pose proof (chaos_step_in_hull p v Hp Hin) as Hq.
    set (q := ((fst p + fst v) * dec 5 1, (snd p + snd v) * dec 5 1)%py) in *.
    destruct (IH (i + 1) q g1 Hq) as (rest & g' & Erest & Hrest).
    match goal with
    | |- context [bind ?e _] =>
        assert (Hops : exists o,
                   e = Done o
                   /\ forall px col,
                       In (SetAt px col) o ->
                       (0 <= fst px < width /\ 0 <= snd px < height)
                       /\ exists q0, hull vs q0
                                     /\ (Rabs (IZR (fst px) - fst q0) <= 1 / 2)%R
                                     /\ (Rabs (IZR (snd px) - snd q0) <= 1 / 2)%R)
    end.
    { assert (Hnew : forall col px0 col0,
                 In (SetAt px0 col0)
                    [SetAt (Rnearest_even (fst q), Rnearest_even (snd q)) col] ->
                 0 <= Rnearest_even (fst q) < width ->
                 0 <= Rnearest_even (snd q) < height ->
                 (0 <= fst px0 < width /\ 0 <= snd px0 < height)
                 /\ exists q0, hull vs q0
                               /\ (Rabs (IZR (fst px0) - fst q0) <= 1 / 2)%R
                               /\ (Rabs (IZR (snd px0) - snd q0) <= 1 / 2)%R).
      { intros col px0 col0 [E|[]] Hx Hy. injection E as <- <-. cbn [fst snd].
        split; [now split|].
        exists q. split; [exact Hq|]. split; apply Rnearest_even_close. }
      destruct (20 <? i); [|exists []; split; [reflexivity | intros ? ? []]].
      unfold round_point. cbn [round_int R_PyFloat raising bind].
      destruct (Z.leb_spec 0 (Rnearest_even (fst q)));
        destruct (Z.ltb_spec (Rnearest_even (fst q)) width);
        destruct (Z.leb_spec 0 (Rnearest_even (snd q)));
        destruct (Z.ltb_spec (Rnearest_even (snd q)) height);
        cbn [andb];
        try (exists []; split; [reflexivity | intros ? ? []]).
      destruct (fade_effect && (i mod 3 =? 0));
        (eexists; split; [reflexivity|]);
        intros px0 col0 Hin0; (eapply Hnew; [exact Hin0 | lia | lia]). }
    destruct Hops as (o & -> & Ho). cbn [bind].
    rewrite Erest. cbn [bind fst snd].
    exists (o ++ rest), g'. split; [reflexivity|].
    intros px col Hin'. apply in_app_or in Hin'.
    destruct Hin' as [Hin'|Hin']; [exact (Ho _ _ Hin') | exact (Hrest _ _ Hin')].
Qed.
End ChaosFacts.

(** C4, amended. Over the reals, when the starting point lies in the
    triangle, every point of the walk does, and every plotted pixel is such
    a point rounded to the grid: it lies in the raster and within half a
    pixel, in each coordinate, of a point of the convex hull of the three
    vertices. *)
Theorem chaos_game_near_hull :
  forall (G : Generator) (width height iterations : Z) (c : color)
         (fade_effect : bool) (g : gstate G),
    hull (chaos_vertices (F:=R) width height)
         (fst (chaos_start (F:=R) width height g)) ->
    exists ops g',
      sierpinski_chaos_game (F:=R) width height iterations c fade_effect g
      = Done (ops, g')
      /\ forall px col,
          In (SetAt px col) ops ->
          (0 <= fst px < width /\ 0 <= snd px < height)
          /\ exists q, hull (chaos_vertices (F:=R) width height) q
                       /\ (Rabs (IZR (fst px) - fst q) <= 1 / 2)%R
                       /\ (Rabs (IZR (snd px) - snd q) <= 1 / 2)%R.
Proof.
  intros G width height iterations c fade_effect g Hstart.
  unfold sierpinski_chaos_game.
  destruct (chaos_start width height g) as [p g1]. cbn [fst] in Hstart.
  apply chaos_rounds_near_hull; [cbn; lia | exact Hstart].
Qed.

Lemma hull_halfplane (vs : list (R * R)) (a b bound : R) :
  (forall v, In v vs -> (bound <= a * fst v + b * snd v)%R) ->
  forall p, hull vs p -> (bound <= a * fst p + b * snd p)%R.
Proof.
  intros Hv p Hp. induction Hp as [v Hin|p q t _ IHp _ IHq Ht].
  - now apply Hv.
  - cbn [fst snd]. nra.
Qed.

(** The starting point is drawn from a rectangle that is not inside the
    triangle: on an 800 x 800 surface two raw draws of 2^46 (0.0078..) start
    the walk at (252.3.., 272.1..), left of the edge from the top vertex to
    the lower left one (binary64). *)
Lemma chaos_start_outside_triangle :
  ~ hull (map real_point (chaos_vertices (F:=float) 800 800))
         (real_point (fst (chaos_start (F:=float) (G:=tape) 800 800
                                       [2 ^ 46; 2 ^ 46]))).
Proof.
  intros Hin.
  apply (hull_halfplane _ 520 300 223900) in Hin.
  - revert Hin.
    match goal with
    | |- context [chaos_start ?w ?h ?g] =>
        let s := eval vm_compute in (fst (chaos_start (F:=float) (G:=tape) w h g)) in
        change (fst (chaos_start (F:=float) (G:=tape) w h g)) with s
    end.
    unfold real_point, to_R. cbn [fst snd].
    repeat match goal with
           | |- context [fraction ?x] =>
               let f := eval vm_compute in (fraction x) in
               change (fraction x) with f
           end.
    cbn [fst snd]. lra.
  - intros v Hv. apply in_map_iff in Hv. destruct Hv as (v0 & <- & Hv0).
    vm_compute in Hv0.
    unfold real_point, to_R. cbn [fst snd].
    destruct Hv0 as [<-|[<-|[<-|[]]]]; cbn [fst snd];
      repeat match goal with
             | |- context [fraction ?x] =>
                 let f := eval vm_compute in (fraction x) in
                 change (fraction x) with f
             end; cbn [fst snd]; lra.
Qed.

Lemma centre_in_triangle :
  hull (chaos_vertices (F:=R) 800 800)
       (fst (chaos_start (F:=R) (G:=tape) 800 800 [2 ^ 52; 2 ^ 52])).
Proof.
  unfold chaos_start, chaos_vertices, uniform, random.
  cbn [gnext tape fst snd].
  unfold chaos_height, chaos_size.
  cbn [fadd fsub fmul fdiv fopp fsqrt of_int R_PyFloat].
  rewrite !dec_R.
  change (Z.min 800 800) with 800.
  change (2 ^ 52 mod 2 ^ 53) with 4503599627370496.
  change (2 ^ 53) with 9007199254740992.
  change (10 ^ 1) with 10. change (10 ^ 2) with 100. change (10 ^ 3) with 1000.
  set (s3 := sqrt 3).
  set (v1 := ((800 * (5 / 10))%R, (800 * (5 / 10) - 800 * (75 / 100) * s3 * (5 / 10) * (667 / 1000))%R)).
  set (v2 := ((800 * (5 / 10) - 800 * (75 / 100) * (5 / 10))%R,
              (800 * (5 / 10) + 800 * (75 / 100) * s3 * (5 / 10) * (333 / 1000))%R)).
  set (v3 := ((800 * (5 / 10) + 800 * (75 / 100) * (5 / 10))%R,
              (800 * (5 / 10) + 800 * (75 / 100) * s3 * (5 / 10) * (333 / 1000))%R)).
  assert (H1 : hull [v1; v2; v3] v1) by (apply hull_vertex; cbn; auto).
  assert (H2 : hull [v1; v2; v3] v2) by (apply hull_vertex; cbn; auto).
  assert (H3 : hull [v1; v2; v3] v3) by (apply hull_vertex; cbn; auto).
  pose proof (hull_between _ v2 v3 (1 / 2) H2 H3 ltac:(lra)) as Hm.
  pose proof (hull_between _ v1 _ (333 / 1000) H1 Hm ltac:(lra)) as Hc.
  match type of Hc with hull _ ?p => replace p with
    ((800 * (5 / 10) +
      (- (800 * (75 / 100)) * (25 / 100) +
       (800 * (75 / 100) * (25 / 100) - - (800 * (75 / 100)) * (25 / 100)) *
       (4503599627370496 / 9007199254740992)))%R,
     (800 * (5 / 10) +
      (- (800 * (75 / 100) * s3 * (5 / 10)) * (25 / 100) +
       (800 * (75 / 100) * s3 * (5 / 10) * (25 / 100) -
        - (800 * (75 / 100) * s3 * (5 / 10)) * (25 / 100)) *
       (4503599627370496 / 9007199254740992)))%R) in Hc end.
  - exact Hc.
  - unfold v1, v2, v3. cbn [fst snd]. f_equal; lra.
Qed.

Lemma chaos_game_near_hull_witness :
  exists ops g',
    sierpinski_chaos_game (F:=R) (G:=tape) 800 800 25 ColorScheme.GREEN true
                          [2 ^ 52; 2 ^ 52] = Done (ops, g')
    /\ forall px col,
        In (SetAt px col) ops ->
        (0 <= fst px < 800 /\ 0 <= snd px < 800)
        /\ exists q, hull (chaos_vertices (F:=R) 800 800) q
                     /\ (Rabs (IZR (fst px) - fst q) <= 1 / 2)%R
                     /\ (Rabs (IZR (snd px) - snd q) <= 1 / 2)%R.
Proof.
  apply (chaos_game_near_hull tape 800 800 25 ColorScheme.GREEN true
                              [2 ^ 52; 2 ^ 52]).
  exact centre_in_triangle.
Defined.

(** ** Smoothed escape value *)

Lemma escape_continue (fuel : nat) (c z : complex R) (max_iter n : Z) :
  (cabs z <= 2)%R -> n < max_iter ->
  escape_loop (S fuel) c max_iter z n
  = escape_loop fuel c max_iter (cadd (cmul z z) c) (n + 1).
Proof.
  intros Hz Hn. cbn [escape_loop fleb of_int R_PyFloat]. unfold Rleb.
  destruct (Rle_dec (cabs z) 2); [|contradiction].
  destruct (Z.ltb_spec n max_iter); [reflexivity | lia].
Qed.

Lemma escape_exit (fuel : nat) (c z : complex R) (max_iter n : Z) :
  (2 < cabs z)%R \/ max_iter <= n ->
  escape_loop (S fuel) c max_iter z n = Done (z, n).
Proof.
  intros Hx. cbn [escape_loop fleb of_int R_PyFloat]. unfold Rleb.
  destruct (Rle_dec (cabs z) 2); [|reflexivity].
  destruct (Z.ltb_spec n max_iter); [|reflexivity].
  destruct Hx; [lra | lia].
Qed.

Lemma cabs_axis (a : R) : (0 <= a)%R -> cabs (Cx a 0%R) = a.
Proof.
  intros Ha. unfold cabs. cbn [re im fadd fmul fsqrt R_PyFloat].
  replace (a * a + 0 * 0)%R with (a * a)%R by ring.
  now apply sqrt_square.
Qed.

Lemma step_axis (a c : R) :
  cadd (cmul (Cx a 0%R) (Cx a 0%R)) (Cx c 0%R) = Cx (a * a + c)%R 0%R.
Proof.
  unfold cadd, cmul. cbn [re im fadd fsub fmul R_PyFloat]. f_equal; ring.
Qed.

(** The escape loop from [z = 0] along the real axis, one step at a time. *)
Ltac axis_continue :=
  rewrite escape_continue by (rewrite ?cabs_axis by lra; (lra || lia));
  rewrite step_axis; cbn [Z.add Pos.add Pos.succ].
Ltac axis_exit :=
  rewrite escape_exit by (left; rewrite cabs_axis by lra; lra).

Lemma escape_axis_21_10 :
  escape_loop (F:=R) 20 (Cx (21 / 10)%R 0%R) 10 czero 0
  = Done (Cx (0 * 0 + 21 / 10)%R 0%R, 1).
Proof.
  change (czero (F:=R)) with (Cx 0%R 0%R).
  axis_continue. axis_exit. reflexivity.
Qed.

Lemma escape_axis_2 :
  escape_loop (F:=R) 20 (Cx 2%R 0%R) 10 czero 0
  = Done (Cx ((0 * 0 + 2) * (0 * 0 + 2) + 2)%R 0%R, 2).
Proof.
  change (czero (F:=R)) with (Cx 0%R 0%R).
  axis_continue. axis_continue. axis_exit. reflexivity.
Qed.

Lemma ln_2_pos : (0 < ln 2)%R.
Proof. rewrite <- ln_1. apply ln_increasing; lra. Qed.

(** C9, as stated, fails: [c1 = 2.1] escapes after 1 iteration and
    [c2 = 2] after 2, yet the smoothed value of [c1],
    [2 - log(log 2.1)/log 2 = 2.43..], is above that of [c2],
    [3 - log(log 6)/log 2 = 2.15..] (over the reals). *)
Lemma smooth_not_monotone :
  mandelbrot_iteration (F:=R) 20 (Cx (21 / 10)%R 0%R) 10 = Done 1
  /\ mandelbrot_iteration (F:=R) 20 (Cx 2%R 0%R) 10 = Done 2
  /\ exists s1 s2 : R,
      mandelbrot_smooth (F:=R) 20 (Cx (21 / 10)%R 0%R) 10 = Done s1
      /\ mandelbrot_smooth (F:=R) 20 (Cx 2%R 0%R) 10 = Done s2
      /\ (s2 < s1)%R.
Proof.
  unfold mandelbrot_iteration, mandelbrot_smooth.
  rewrite escape_axis_21_10, escape_axis_2. cbn [bind fst snd Z.ltb Z.compare Pos.compare Pos.compare_cont].
  split; [reflexivity|]. split; [reflexivity|].
  eexists; eexists. split; [reflexivity|]. split; [reflexivity|].
  rewrite !cabs_axis by lra.
  cbn [fsub fdiv flog of_int R_PyFloat R_PyMath Z.add Pos.add Pos.succ].
  replace (0 * 0 + 21 / 10)%R with (21 / 10)%R by lra.
  replace ((0 * 0 + 2) * (0 * 0 + 2) + 2)%R with 6%R by lra.
  pose proof ln_2_pos as L2.
  assert (La : (0 < ln (21 / 10))%R) by (rewrite <- ln_1; apply ln_increasing; lra).
  assert (Lb : (2 * ln (21 / 10) < ln 6)%R).
  { replace (2 * ln (21 / 10))%R with (ln (21 / 10 * (21 / 10)))%R
      by (rewrite ln_mult by lra; ring).
    apply ln_increasing; lra. }
  assert (Lc : (ln 2 + ln (ln (21 / 10)) < ln (ln 6))%R).
  { rewrite <- ln_mult by lra. apply ln_increasing; nra. }
  apply Rmult_lt_reg_r with (ln 2); [exact L2|].
  unfold Rdiv. rewrite !Rmult_minus_distr_r, !Rmult_assoc, Rinv_l by lra.
  lra.
Qed.

Lemma cabs_sq (z : complex R) :
  (cabs z * cabs z = re z * re z + im z * im z)%R.
Proof.
  unfold cabs. cbn [fadd fmul fsqrt R_PyFloat].
  apply sqrt_sqrt. nra.
Qed.

Lemma cabs_nonneg (z : complex R) : (0 <= cabs z)%R.
Proof. unfold cabs. cbn [fsqrt R_PyFloat]. apply sqrt_pos. Qed.

Lemma cabs_step_bound (z c : complex R) :
  (cabs z <= 2)%R -> (cabs c <= 2)%R -> (cabs (cadd (cmul z z) c) <= 6)%R.
Proof.
  intros Hz Hc.
  pose proof (cabs_sq z) as Ez. pose proof (cabs_nonneg z) as Pz.
  pose proof (cabs_sq c) as Ec. pose proof (cabs_nonneg c) as Pc.
  pose proof (cabs_sq (cadd (cmul z z) c)) as En.
  pose proof (cabs_nonneg (cadd (cmul z z) c)) as Pn.
  set (w := cabs (cadd (cmul z z) c)) in *.
  set (wz := cabs z) in *. set (wc := cabs c) in *.
  clearbody w wz wc.
  destruct z as [x y], c as [a b].
  unfold cadd, cmul in En. cbn [re im fadd fsub fmul R_PyFloat] in *.
  set (u := (x * x - y * y)%R) in *.
  set (v := (x * y + y * x)%R) in *.
  assert (Nz : (x * x + y * y <= 4)%R) by nra.
  assert (Nc : (a * a + b * b <= 4)%R) by nra.
  assert (Nuv : (u * u + v * v <= 16)%R).
  { replace (u * u + v * v)%R with ((x * x + y * y) * (x * x + y * y))%R
      by (unfold u, v; ring).
    nra. }
  assert (Nw : (w * w <= 36)%R).
  { rewrite En.
    pose proof (Rle_0_sqr (u - 2 * a)) as S1.
    pose proof (Rle_0_sqr (v - 2 * b)) as S2.
    unfold Rsqr in S1, S2. nra. }
  nra.
Qed.

Lemma escape_loop_spec (c : complex R) (max_iter : Z) :
  forall (fuel : nat) (z : complex R) (n : Z) (z' : complex R) (n' : Z),
    escape_loop fuel c max_iter z n = Done (z', n') ->
    n <= n'
    /\ (n' = n -> z' = z)
    /\ (n' < max_iter -> (2 < cabs z')%R)
    /\ (n < n' -> (cabs z <= 2)%R /\ n' <= max_iter
                  /\ exists zp, (cabs zp <= 2)%R /\ z' = cadd (cmul zp zp) c)
    /\ (n + 2 <= n' -> (cabs (cadd (cmul z z) c) <= 2)%R).
Proof.
  induction fuel as [|fuel IH]; intros z n z' n'; [discriminate|].
  cbn [escape_loop fleb of_int R_PyFloat]. unfold Rleb.
  destruct (Rle_dec (cabs z) 2) as [Hz|Hz]; cbn [andb].
  - destruct (Z.ltb_spec n max_iter) as [Hn|Hn].
    + intros E. apply IH in E. destruct E as (H1 & H2 & H3 & H4 & H5).
      split; [lia|]. split; [lia|]. split; [exact H3|]. split.
      * intros _. split; [exact Hz|].
        destruct (Z.eq_dec n' (n + 1)) as [E1|E1].
        -- split; [lia|]. exists z. split; [exact Hz | now apply H2].
        -- destruct H4 as (_ & Hm & Hp); [lia|]. now split.
      * intros Hn2. destruct (Z.eq_dec n' (n + 1)); [lia|].
        apply H4. lia.
    + intros [= <- <-]. repeat split; try lia.
  - intros [= <- <-]. repeat split; try lia. intros _. lra.
Qed.

Lemma first_step (c : complex R) : cabs (cadd (cmul czero czero) c) = cabs c.
Proof.
  destruct c as [a b]. unfold cabs, cadd, cmul, czero.
  cbn [re im fadd fsub fmul fsqrt of_int R_PyFloat]. f_equal. ring.
Qed.

Lemma ln_2_above_half : (1 / 2 < ln 2)%R.
Proof.
  assert (E : (exp (1 / 2) < 2)%R).
  { pose proof (exp_pos (1 / 2)) as P.
    pose proof exp_le_3 as E3.
    replace 1%R with (1 / 2 + 1 / 2)%R in E3 by lra.
    rewrite exp_plus in E3. nra. }
  rewrite <- (ln_exp (1 / 2)). apply ln_increasing; [apply exp_pos | exact E].
Qed.

Lemma ln_6_below_4_ln_2 : (ln 6 < 4 * ln 2)%R.
Proof.
  replace (4 * ln 2)%R with (ln (2 * 2 * (2 * 2)))%R.
  - apply ln_increasing; lra.
  - rewrite !ln_mult by lra. ring.
Qed.

(** An escaping point: its smoothed value lies strictly below
    [n + 1 - log(log 2)/log 2]. *)
Lemma smooth_upper (w : R) :
  (2 < w)%R -> (- (ln (ln w) / ln 2) < - (ln (ln 2) / ln 2))%R.
Proof.
  intros Hw. pose proof ln_2_pos as L2.
  assert (H : (ln (ln 2) < ln (ln w))%R)
    by (apply ln_increasing; [exact L2 | apply ln_increasing; lra]).
  apply Ropp_lt_contravar. unfold Rdiv.
  apply Rmult_lt_compat_r; [now apply Rinv_0_lt_compat | exact H].
Qed.

(** An escaping point one step after a modulus of at most 2, for [|c| <= 2]:
    its smoothed value lies at or above [n + 1 - log(log 6)/log 2]. *)
Lemma smooth_lower (w : R) :
  (2 < w <= 6)%R -> (- (ln (ln 6) / ln 2) <= - (ln (ln w) / ln 2))%R.
Proof.
  intros Hw. pose proof ln_2_pos as L2.
  assert (Lw : (0 < ln w)%R)
    by (apply Rlt_trans with (ln 2); [exact L2 | apply ln_increasing; lra]).
  assert (H : (ln (ln w) <= ln (ln 6))%R).
  { destruct (Req_dec w 6) as [->|Hne]; [lra|].
    left. apply ln_increasing; [exact Lw | apply ln_increasing; lra]. }
  apply Ropp_le_contravar. unfold Rdiv.
  apply Rmult_le_compat_r; [left; now apply Rinv_0_lt_compat | exact H].
Qed.

Lemma smooth_gap : (ln (ln 6) / ln 2 - ln (ln 2) / ln 2 < 2)%R.
Proof.
  pose proof ln_2_pos as L2. pose proof ln_6_below_4_ln_2 as L6.
  assert (H : (ln (ln 6) < ln 2 + ln 2 + ln (ln 2))%R).
  { replace (ln 2 + ln 2 + ln (ln 2))%R with (ln (2 * 2 * ln 2))%R
      by (rewrite !ln_mult by lra; ring).
    apply ln_increasing; [|lra].
    apply Rlt_trans with (ln 2); [exact L2 | apply ln_increasing; lra]. }
  apply Rmult_lt_reg_r with (ln 2); [exact L2|].
  unfold Rdiv. rewrite Rmult_minus_distr_r, !Rmult_assoc, Rinv_l by lra.
  lra.
Qed.

Lemma smooth_top : (- (ln (ln 2) / ln 2) < 1)%R.
Proof.
  pose proof ln_2_pos as L2. pose proof ln_2_above_half as Lh.
  assert (H : (- ln 2 < ln (ln 2))%R).
  { replace (- ln 2)%R with (ln (/ 2))%R by (rewrite ln_Rinv by lra; reflexivity).
    apply ln_increasing; lra. }
  apply Rmult_lt_reg_r with (ln 2); [exact L2|].
  unfold Rdiv. rewrite Ropp_mult_distr_l_reverse, Rmult_assoc, Rinv_l by lra.
  lra.
Qed.

(** C9, amended. For a fixed [max_iter], the smoothed value is
    non-decreasing across raw counts that are at least two apart: if the
    raw counts of [c1] and [c2] satisfy [n1 + 2 <= n2], then
    [mandelbrot_smooth(c1) <= mandelbrot_smooth(c2)] (over the reals). *)
Theorem smooth_monotone_two_apart :
  forall (fuel : nat) (c1 c2 : complex R) (max_iter n1 n2 : Z) (s1 s2 : R),
    mandelbrot_iteration fuel c1 max_iter = Done n1 ->
    mandelbrot_iteration fuel c2 max_iter = Done n2 ->
    mandelbrot_smooth fuel c1 max_iter = Done s1 ->
    mandelbrot_smooth fuel c2 max_iter = Done s2 ->
    n1 + 2 <= n2 ->
    (s1 <= s2)%R.
Proof.
  intros fuel c1 c2 max_iter n1 n2 s1 s2.
  unfold mandelbrot_iteration, mandelbrot_smooth.
  destruct (escape_loop fuel c1 max_iter czero 0) as [[z1 m1]| |] eqn:E1;
    try discriminate.
  destruct (escape_loop fuel c2 max_iter czero 0) as [[z2 m2]| |] eqn:E2;
    try discriminate.
  cbn [bind fst snd]. intros [= ->] [= ->] S1 S2 Hgap.
  apply escape_loop_spec in E1. destruct E1 as (A1 & _ & A3 & _ & _).
  apply escape_loop_spec in E2. destruct E2 as (B1 & _ & B3 & B4 & B5).
  destruct B4 as (_ & Bm & zp & Hzp & ->); [lia|].
  assert (Hc2 : (cabs c2 <= 2)%R) by (rewrite <- first_step; apply B5; lia).
  destruct (Z.ltb_spec n1 max_iter) as [Hn1|]; [|lia].
  injection S1 as <-.
  specialize (A3 Hn1).
  pose proof (smooth_upper _ A3) as U1.
  pose proof smooth_top as T. pose proof smooth_gap as Gp.
  cbn [fsub fdiv flog of_int R_PyFloat R_PyMath] in *.
  rewrite plus_IZR.
  destruct (Z.ltb_spec n2 max_iter) as [Hn2|Hn2]; injection S2 as <-.
  - specialize (B3 Hn2).
    pose proof (cabs_step_bound zp c2 Hzp Hc2) as B6.
    pose proof (smooth_lower _ (conj B3 B6)) as L2'.
    rewrite plus_IZR.
    assert (Hz : (IZR n1 + 2 <= IZR n2)%R)
      by (rewrite <- (plus_IZR n1 2); now apply IZR_le).
    change (IZR n1 + 1 - ln (ln (cabs z1)) / ln 2
            <= IZR n2 + 1 - ln (ln (cabs (cadd (cmul zp zp) c2))) / ln 2)%R.
    lra.
  - assert (Hz : (IZR n1 + 2 <= IZR max_iter)%R)
      by (rewrite <- (plus_IZR n1 2); apply IZR_le; lia).
    change (IZR n1 + 1 - ln (ln (cabs z1)) / ln 2 <= IZR max_iter)%R.
    lra.
Qed.

Lemma escape_axis_3 :
  escape_loop (F:=R) 20 (Cx 3%R 0%R) 10 czero 0 = Done (Cx (0 * 0 + 3)%R 0%R, 1).
Proof.
  change (czero (F:=R)) with (Cx 0%R 0%R).
  axis_continue. axis_exit. reflexivity.
Qed.

Lemma escape_axis_1 :
  escape_loop (F:=R) 20 (Cx 1%R 0%R) 10 czero 0
  = Done (Cx (((0 * 0 + 1) * (0 * 0 + 1) + 1) * ((0 * 0 + 1) * (0 * 0 + 1) + 1) + 1)%R
             0%R, 3).
Proof.
  change (czero (F:=R)) with (Cx 0%R 0%R).
  axis_continue. axis_continue. axis_continue. axis_exit. reflexivity.
Qed.

Lemma smooth_monotone_two_apart_witness :
  exists s1 s2 : R,
    mandelbrot_smooth (F:=R) 20 (Cx 3%R 0%R) 10 = Done s1
    /\ mandelbrot_smooth (F:=R) 20 (Cx 1%R 0%R) 10 = Done s2
    /\ (s1 <= s2)%R.
Proof.
  assert (H1 : exists s1, mandelbrot_smooth (F:=R) 20 (Cx 3%R 0%R) 10 = Done s1).
  { unfold mandelbrot_smooth. rewrite escape_axis_3. now eexists. }
  assert (H2 : exists s2, mandelbrot_smooth (F:=R) 20 (Cx 1%R 0%R) 10 = Done s2).
  { unfold mandelbrot_smooth. rewrite escape_axis_1. now eexists. }
  destruct H1 as (s1 & H1). destruct H2 as (s2 & H2).
  exists s1, s2. split; [exact H1|]. split; [exact H2|].
  apply (smooth_monotone_two_apart 20 (Cx 3%R 0%R) (Cx 1%R 0%R) 10 1 3 s1 s2).
  - unfold mandelbrot_iteration. now rewrite escape_axis_3.
  - unfold mandelbrot_iteration. now rewrite escape_axis_1.
  - exact H1.
  - exact H2.
  - lia.
Defined.

(** * Further properties of the code *)

(** ** Loops that draw *)

(** A loop draws what its rounds draw. *)
Lemma for_each_bounded {A : Type} (P : draw_op -> Prop) (n : nat) (l : list A)
      (body : A -> outcome (list draw_op)) :
  (forall a o, In a l -> body a = Done o -> Forall P o /\ (length o <= n)%nat) ->
  forall ops, for_each l body = Done ops ->
              Forall P ops /\ (length ops <= length l * n)%nat.
Proof.
  induction l as [|a l IH]; intros Hb ops.
  - cbn. intros [= <-]. split; [constructor | cbn; lia].
  - cbn [for_each].
    destruct (body a) as [o| |] eqn:Ea; try discriminate. cbn [bind].
    destruct (for_each l body) as [rest| |] eqn:Er; try discriminate. cbn [bind].
    intros [= <-].
    destruct (Hb a o (or_introl eq_refl) Ea) as [Fo Lo].
    destruct (IH (fun a' o' Hin => Hb a' o' (or_intror Hin)) rest eq_refl) as [Fr Lr].
    split; [apply Forall_app; split; assumption|].
    rewrite length_app. cbn [length]. lia.
Qed.

Lemma range_length (n : Z) : length (range n) = Z.to_nat n.
Proof. unfold range. now rewrite length_map, length_seq. Qed.

Lemma pow_pos_step (b d : Z) : 1 <= d -> b ^ d = b * b ^ (d - 1).
Proof.
  intros Hd. rewrite <- Z.pow_succ_r by lia. f_equal. lia.
Qed.

(** ** Koch: what the curve can draw *)

Lemma checked_line_within {F : Type} `{PyFloat F} (width height : Z) (c : color)
      (lw : Z) (p1 p2 : @fpoint F) (ops : list draw_op) :
  try_except (checked_line width height c lw p1 p2) (Done []) = Done ops ->
  Forall (line_within width height c lw) ops /\ (length ops <= 1)%nat.
Proof.
  unfold checked_line.
  destruct (round_point p1) as [a| |]; cbn [bind try_except];
    try (intros [= <-]; split; [constructor | cbn; lia]); try discriminate.
  destruct (round_point p2) as [b| |]; cbn [bind try_except];
    try (intros [= <-]; split; [constructor | cbn; lia]); try discriminate.
  destruct (in_range width height a) eqn:Ea; cbn [andb];
    [|intros [= <-]; split; [constructor | cbn; lia]].
  destruct (in_range width height b) eqn:Eb;
    intros [= <-]; split; try constructor; cbn; try lia.
  - now exists a, b.
  - constructor.
Qed.

(** A negative depth is never the base case [depth == 0]: the recursion
    uses up every budget. *)
Lemma koch_curve_below_zero {F : Type} `{PyFloat F} :
  forall (fuel : nat) (p1 p2 : @fpoint F) (depth : Z) (width height : Z)
         (c : color) (line_width : Z),
    depth < 0 ->
    koch_curve fuel p1 p2 depth width height c line_width = OutOfFuel.
Proof.
  induction fuel as [|fuel IH]; intros p1 p2 depth width height c lw Hd;
    [reflexivity|].
  cbn [koch_curve].
  destruct (Z.eqb_spec depth 0); [lia|].
  destruct (koch_split p1 p2) as [[q2 q3] q4].
  rewrite IH by lia. reflexivity.
Qed.

Lemma koch_curve_lines {F : Type} `{PyFloat F} :
  forall (fuel : nat) (p1 p2 : @fpoint F) (depth : Z) (width height : Z)
         (c : color) (line_width : Z) (ops : list draw_op),
    koch_curve fuel p1 p2 depth width height c line_width = Done ops ->
    Forall (line_within width height c line_width) ops
    /\ Z.of_nat (length ops) <= 4 ^ depth.
Proof.
  induction fuel as [|fuel IH]; intros p1 p2 depth width height c lw ops;
    [discriminate|].
  destruct (Z.ltb_spec depth 0) as [Hneg|Hpos].
  { rewrite koch_curve_below_zero by assumption. discriminate. }
  cbn [koch_curve].
  destruct (Z.eqb_spec depth 0) as [->|Hnz].
  - intros E. apply checked_line_within in E. destruct E as [E1 E2].
    split; [exact E1|]. cbn. lia.
  - destruct (koch_split p1 p2) as [[q2 q3] q4].
    destruct (koch_curve fuel p1 q2 (depth - 1) width height c lw) as [s1| |] eqn:E1;
      try discriminate.
    destruct (koch_curve fuel q2 q3 (depth - 1) width height c lw) as [s2| |] eqn:E2;
      try discriminate.
    destruct (koch_curve fuel q3 q4 (depth - 1) width height c lw) as [s3| |] eqn:E3;
      try discriminate.
    destruct (koch_curve fuel q4 p2 (depth - 1) width height c lw) as [s4| |] eqn:E4;
      try discriminate.
    cbn [bind]. intros [= <-].
    apply IH in E1, E2, E3, E4.
    destruct E1 as [F1 L1], E2 as [F2 L2], E3 as [F3 L3], E4 as [F4 L4].
    split; [repeat (apply Forall_app; split); assumption|].
    rewrite !length_app, !Nat2Z.inj_add.
    rewrite (pow_pos_step 4 depth) by lia. lia.
Qed.

Lemma koch_curve_returns {F : Type} `{PyFloat F} (fuel : nat) (p1 p2 : @fpoint F)
      (depth : Z) (width height : Z) (c : color) (line_width : Z) :
  0 <= depth -> (Z.to_nat depth < fuel)%nat ->
  exists ops, koch_curve fuel p1 p2 depth width height c line_width = Done ops.
Proof.
  intros Hd Hf.
  destruct (koch_leaves_count fuel p1 p2 depth Hd Hf) as (leaves & E & _).
  eexists. exact (koch_curve_draws_leaves width height c line_width _ _ _ _ _ E).
Qed.

Lemma koch_snowflake_lines {F : Type} `{PyMath F} (fuel : nat) (center : @fpoint F)
      (radius : F) (depth : Z) (width height : Z) (c : color) (line_width : Z)
      (ops : list draw_op) :
  koch_snowflake fuel center radius depth width height c line_width = Done ops ->
  Forall (line_within width height c line_width) ops
  /\ Z.of_nat (length ops) <= 3 * 4 ^ depth.
Proof.
  unfold koch_snowflake. intros E.
  apply (for_each_bounded (line_within width height c line_width)
                          (Z.to_nat (4 ^ depth))) in E.
  - destruct E as [E1 E2]. split; [exact E1|].
    rewrite range_length in E2. change (Z.to_nat 3) with 3%nat in E2.
    assert (0 <= 4 ^ depth) by (apply Z.pow_nonneg; lia). lia.
  - intros i o _.
    destruct (py_nth _ i) as [q1|]; [|discriminate]. cbn [raising bind].
    destruct (py_nth _ ((i + 1) mod 3)) as [q2|]; [|discriminate].
    cbn [raising bind]. intros Ek. apply koch_curve_lines in Ek.
    destruct Ek as [E1 E2]. split; [exact E1|]. lia.
Qed.

Lemma koch_snowflake_returns {F : Type} `{PyMath F} (fuel : nat)
      (center : @fpoint F) (radius : F) (depth : Z) (width height : Z)
      (c : color) (line_width : Z) :
  0 <= depth -> (Z.to_nat depth < fuel)%nat ->
  exists ops,
    koch_snowflake fuel center radius depth width height c line_width = Done ops.
Proof.
  intros Hd Hf. unfold koch_snowflake. apply for_each_returns.
  intros i Hi. apply range_bounds in Hi.
  match goal with
  | |- context [py_nth ?vs i] =>
      assert (Hlen : Z.of_nat (length vs) = 3)
        by (now rewrite length_map, range_length);
      destruct (py_nth_in_range vs i) as [q1 E1]; [lia|];
      destruct (py_nth_in_range vs ((i + 1) mod 3)) as [q2 E2];
      [pose proof (Z.mod_pos_bound (i + 1) 3); lia|];
      rewrite E1, E2
  end.
  cbn [raising bind]. now apply koch_curve_returns.
Qed.

(** X1.  Whatever the endpoints and the raster, [koch_curve] draws only
    lines of the given colour and width between points of
    [[0,width] x [0,height]], and at most [4^depth] of them; the snowflake,
    three curves, at most [3 * 4^depth]. *)
Theorem koch_curve_lines_bounded :
  (forall (F : Type) (HF : PyFloat F) (fuel : nat) (p1 p2 : @fpoint F)
          (depth : Z) (width height : Z) (c : color) (line_width : Z)
          (ops : list draw_op),
      koch_curve fuel p1 p2 depth width height c line_width = Done ops ->
      Forall (line_within width height c line_width) ops
      /\ Z.of_nat (length ops) <= 4 ^ depth)
  /\ (forall (F : Type) (HF : PyFloat F) (HM : PyMath F) (fuel : nat)
             (center : @fpoint F) (radius : F) (depth : Z) (width height : Z)
             (c : color) (line_width : Z) (ops : list draw_op),
         koch_snowflake fuel center radius depth width height c line_width
         = Done ops ->
         Forall (line_within width height c line_width) ops
         /\ Z.of_nat (length ops) <= 3 * 4 ^ depth).
Proof.
  split.
  - intros F HF. apply koch_curve_lines.
  - intros F HF HM. apply koch_snowflake_lines.
Qed.

Lemma koch_curve_lines_bounded_witness :
  exists ops,
    koch_curve (F:=float) 3 (0%float, 100%float) (300%float, 100%float) 2
               400 400 ColorScheme.WHITE 1 = Done ops
    /\ Forall (line_within 400 400 ColorScheme.WHITE 1) ops
    /\ Z.of_nat (length ops) <= 4 ^ 2.
Proof.
  destruct (koch_curve (F:=float) 3 (0%float, 100%float) (300%float, 100%float) 2
                       400 400 ColorScheme.WHITE 1) as [ops| |] eqn:E;
    try (vm_compute in E; discriminate E).
  exists ops. split; [reflexivity|].
  exact (proj1 koch_curve_lines_bounded float _ 3%nat _ _ 2 400 400
               ColorScheme.WHITE 1 ops E).
Defined.

Lemma koch_draw_returns (fuel : nat) (width height iterations : Z) :
  0 <= iterations -> (Z.to_nat iterations < fuel)%nat ->
  exists ops, koch_draw (F:=R) fuel width height iterations = Done ops.
Proof.
  intros Hpos Hf. unfold koch_draw, koch_body.
  destruct (Z.leb_spec iterations 4).
  - match goal with
    | |- context [koch_curve ?f ?a ?b ?d ?w ?h ?c ?l] =>
        destruct (koch_curve_returns f a b d w h c l) as [ops E];
        [lia | lia | rewrite E]
    end.
    cbn [bind]. eauto.
  - cbn [trunc_int R_PyFloat raising bind].
    match goal with
    | |- context [koch_snowflake ?f ?a ?b ?d ?w ?h ?c ?l] =>
        destruct (koch_snowflake_returns f a b d w h c l) as [ops E];
        [lia | lia | rewrite E]
    end.
    cbn [bind]. eauto.
Qed.

(** X2.  [draw] returns exactly for the iteration counts that are not
    negative: below zero the curve's recursion never reaches its base
    case. *)
Theorem koch_draw_returns_iff (width height iterations : Z) :
  (exists fuel ops, koch_draw (F:=R) fuel width height iterations = Done ops)
  <-> 0 <= iterations.
Proof.
  split.
  - intros (fuel & ops & E).
    destruct (Z.ltb_spec iterations 0) as [Hneg|]; [exfalso | assumption].
    unfold koch_draw, koch_body in E.
    destruct (Z.leb_spec iterations 4); [|lia].
    rewrite koch_curve_below_zero in E by assumption. discriminate.
  - intros Hpos. exists (S (Z.to_nat iterations)).
    apply koch_draw_returns; lia.
Qed.

(** X3.  The metrics agree with the recursion: [calculate_points_count] is
    [4^depth + 1] and the ["segments"] of [get_performance_metrics] is the
    number of segments [koch_curve] reaches at depth 0. *)
Theorem koch_metrics_count_segments {F : Type} `{PyFloat F} :
  forall (depth : Z) (fuel : nat) (p1 p2 : @fpoint F),
    0 <= depth -> (Z.to_nat depth < fuel)%nat ->
    calculate_points_count depth = 4 ^ depth + 1
    /\ exists leaves,
        koch_leaves fuel p1 p2 depth = Done leaves
        /\ koch_metric_segments depth = Z.of_nat (length leaves).
Proof.
  intros depth fuel p1 p2 Hd Hf.
  assert (Hp : calculate_points_count depth = 4 ^ depth + 1).
  { unfold calculate_points_count.
    destruct (Z.eqb_spec depth 0) as [->|Hnz]; [reflexivity|].
    rewrite Z.mul_comm, Z.div_mul by lia. lia. }
  split; [exact Hp|].
  destruct (koch_leaves_count fuel p1 p2 depth Hd Hf) as (leaves & E & Hl).
  exists leaves. split; [exact E|].
  unfold koch_metric_segments. rewrite Hp, Hl.
  assert (0 < 4 ^ depth) by (apply Z.pow_pos_nonneg; lia).
  destruct (Z.ltb_spec 1 (4 ^ depth + 1)); lia.
Qed.

Lemma koch_metrics_count_segments_witness :
  calculate_points_count 2 = 4 ^ 2 + 1
  /\ exists leaves,
      koch_leaves (F:=float) 3 (0%float, 100%float) (300%float, 100%float) 2
      = Done leaves
      /\ koch_metric_segments 2 = Z.of_nat (length leaves).
Proof.
  apply (koch_metrics_count_segments (F:=float) 2 3); [lia | cbn; lia].
Defined.

(** X4.  [draw] issues the fill, then lines of one colour and of the
    adapted width inside the raster, then the text: at most [4^iterations]
    lines up to 4 iterations and [3 * 4^(iterations - 4)] above, fewer than
    the [4 ** iterations] segments the text reports. *)
Theorem koch_draw_segments_bounded {F : Type} `{PyMath F} :
  forall (fuel : nat) (width height iterations : Z) (ops : list draw_op),
    koch_draw fuel width height iterations = Done ops ->
    exists (c : color) (lines : list draw_op),
      ops = Fill [0; 0; 0; 0] :: lines ++ koch_info iterations
      /\ Forall (line_within width height c (koch_line_width width iterations))
                lines
      /\ Z.of_nat (length lines)
         <= (if iterations <=? 4 then 4 ^ iterations
             else 3 * 4 ^ (iterations - 4))
      /\ (4 < iterations -> Z.of_nat (length lines) < 4 ^ iterations).
Proof.
  intros fuel width height iterations ops. unfold koch_draw.
  destruct (koch_body fuel width height iterations) as [lines| |] eqn:E;
    try discriminate.
  cbn [bind]. intros [= <-].
  unfold koch_body in E.
  destruct (Z.leb_spec iterations 4) as [Hle|Hgt].
  - apply koch_curve_lines in E. destruct E as [E1 E2].
    eexists _, lines. split; [reflexivity|]. split; [exact E1|].
    split; [exact E2 | lia].
  - destruct (trunc_int _) as [cv|]; [|discriminate]. cbn [raising bind] in E.
    apply koch_snowflake_lines in E. destruct E as [E1 E2].
    eexists _, lines. split; [reflexivity|]. split; [exact E1|].
    split; [exact E2|]. intros _.
    assert (0 < 4 ^ (iterations - 4)) by (apply Z.pow_pos_nonneg; lia).
    assert (E4 : 4 ^ iterations = 256 * 4 ^ (iterations - 4)).
    { replace iterations with (4 + (iterations - 4)) at 1 by lia.
      rewrite Z.pow_add_r by lia. reflexivity. }
    lia.
Qed.

Lemma koch_draw_segments_bounded_witness :
  exists (ops : list draw_op) (c : color) (lines : list draw_op),
    koch_draw (F:=R) 8 1000 800 7 = Done ops
    /\ ops = Fill [0; 0; 0; 0] :: lines ++ koch_info 7
    /\ Forall (line_within 1000 800 c (koch_line_width 1000 7)) lines
    /\ Z.of_nat (length lines) <= 3 * 4 ^ 3
    /\ (4 < 7 -> Z.of_nat (length lines) < 4 ^ 7).
Proof.
  destruct (koch_draw_returns 8 1000 800 7) as [ops E]; [lia | cbn; lia |].
  destruct (koch_draw_segments_bounded (F:=R) 8 1000 800 7 ops E)
    as (c & lines & H1 & H2 & H3 & H4).
  exists ops, c, lines. split; [exact E|]. split; [exact H1|].
  split; [exact H2|]. split; [exact H3 | exact H4].
Defined.

(** ** Escape-time renders *)

Lemma escape_loop_mono {F : Type} `{PyFloat F} (c : complex F) (max_iter : Z) :
  forall (fuel : nat) (z : complex F) (n : Z) (z' : complex F) (n' : Z),
    escape_loop fuel c max_iter z n = Done (z', n') ->
    n <= n' /\ (n' <= max_iter \/ n' = n).
Proof.
  induction fuel as [|fuel IH]; intros z n z' n'; [discriminate|].
  cbn [escape_loop].
  destruct (fleb (cabs z) (of_int 2)); cbn [andb].
  - destruct (Z.ltb_spec n max_iter) as [Hlt|Hge].
    + intros E. apply IH in E. lia.
    + intros [= <- <-]. lia.
  - intros [= <- <-]. lia.
Qed.

Lemma masked_rounds_stuck {F : Type} `{PyFloat F} (c z : complex F) :
  fleb (cabs z) (of_int 2) = false ->
  forall (rounds : nat) (i m : Z), masked_rounds rounds i c z m = m.
Proof.
  intros Hz. induction rounds as [|rounds IH]; intros i m; [reflexivity|].
  cbn [masked_rounds]. rewrite Hz. apply IH.
Qed.

Lemma masked_rounds_follow {F : Type} `{PyFloat F} (c : complex F) (max_iter : Z) :
  forall (fuel : nat) (z : complex F) (n i m : Z) (z' : complex F) (n' : Z),
    escape_loop fuel c max_iter z n = Done (z', n') ->
    masked_rounds (Z.to_nat (max_iter - n)) i c z m
    = if n' =? n then m else i + (n' - n) - 1.
Proof.
  induction fuel as [|fuel IH]; intros z n i m z' n'; [discriminate|].
  cbn [escape_loop].
  destruct (fleb (cabs z) (of_int 2)) eqn:Hz; cbn [andb].
  - destruct (Z.ltb_spec n max_iter) as [Hlt|Hge].
    + intros E. pose proof (escape_loop_mono _ _ _ _ _ _ _ E) as [Hm _].
      replace (Z.to_nat (max_iter - n)) with (S (Z.to_nat (max_iter - (n + 1))))
        by lia.
      cbn [masked_rounds]. rewrite Hz.
      rewrite (IH _ _ (i + 1) i _ _ E).
      destruct (Z.eqb_spec n' (n + 1)), (Z.eqb_spec n' n); lia.
    + intros [= <- <-]. rewrite Z.eqb_refl.
      replace (Z.to_nat (max_iter - n)) with O by lia. reflexivity.
  - intros [= <- <-]. rewrite Z.eqb_refl. now apply masked_rounds_stuck.
Qed.

Lemma masked_rounds_count {F : Type} `{PyFloat F} (fuel : nat) (c : complex F)
      (max_iter n : Z) :
  mandelbrot_iteration fuel c max_iter = Done n ->
  masked_rounds (Z.to_nat max_iter) 0 c czero 0 = Z.max 0 (n - 1)
  /\ 0 <= n /\ (n <= max_iter \/ n = 0).
Proof.
  unfold mandelbrot_iteration.
  destruct (escape_loop fuel c max_iter czero 0) as [[z' n']| |] eqn:E;
    try discriminate.
  cbn [bind snd]. intros [= <-].
  pose proof (escape_loop_mono _ _ _ _ _ _ _ E) as [Hm Hb].
  split; [|lia].
  pose proof (masked_rounds_follow _ _ _ _ _ 0 0 _ _ E) as Hf.
  rewrite Z.sub_0_r in Hf. rewrite Hf.
  destruct (Z.eqb_spec n' 0); lia.
Qed.

(** X5.  The vectorised count of [mandelbrot_optimized] is the count of
    [mandelbrot_iteration] less one (0 when the latter is 0): it stays below
    [max_iter], so the palette's test [iteration >= max_iter] never holds
    for it. *)
Theorem optimized_count_is_iteration_less_one {F : Type} `{PyFloat F} :
  forall (fuel : nat) (c : complex F) (max_iter n : Z),
    mandelbrot_iteration fuel c max_iter = Done n ->
    masked_rounds (Z.to_nat max_iter) 0 c czero 0 = Z.max 0 (n - 1)
    /\ (1 <= max_iter ->
        (max_iter <=? masked_rounds (Z.to_nat max_iter) 0 c czero 0) = false).
Proof.
  intros fuel c max_iter n E.
  destruct (masked_rounds_count fuel c max_iter n E) as (Hc & H0 & Hn).
  split; [exact Hc|]. intros Hmax. rewrite Hc. apply Z.leb_gt. lia.
Qed.

Lemma optimized_count_is_iteration_less_one_witness :
  masked_rounds (F:=float) (Z.to_nat 10) 0 (Cx 0%float 0%float) czero 0
  = Z.max 0 (10 - 1)
  /\ (1 <= 10 ->
      (10 <=? masked_rounds (F:=float) (Z.to_nat 10) 0 (Cx 0%float 0%float) czero 0)
      = false).
Proof.
  apply (optimized_count_is_iteration_less_one (F:=float) 12 (Cx 0%float 0%float) 10 10).
  vm_compute. reflexivity.
Defined.

(** ** Colours *)

Ltac real_ops :=
  cbn [of_int fadd fsub fmul fdiv fopp fabs fsqrt fleb fltb round_int trunc_int
       R_PyFloat fcos fsin flog fpi R_PyMath raising bind].

Lemma Rtoward_zero_range (x : R) (N : Z) :
  (0 <= x < IZR N + 1)%R -> 0 <= Rtoward_zero x <= N.
Proof.
  intros [H0 H1]. unfold Rtoward_zero, Rleb.
  destruct (Rle_dec 0 x); [|lra].
  pose proof (Rfloor_bounds x) as [Hl Hu].
  split; apply Z.lt_succ_r; apply lt_IZR; rewrite succ_IZR; lra.
Qed.

Lemma Rtoward_zero_between (x : R) (M N : Z) :
  0 <= M -> (IZR M <= x < IZR N + 1)%R -> M <= Rtoward_zero x <= N.
Proof.
  intros HM [H0 H1].
  assert (0 <= IZR M)%R by now apply IZR_le.
  unfold Rtoward_zero, Rleb.
  destruct (Rle_dec 0 x); [|lra].
  pose proof (Rfloor_bounds x) as [Hl Hu].
  split; apply Z.lt_succ_r; apply lt_IZR; rewrite succ_IZR; lra.
Qed.

Lemma valid_rgb_intro (r g b : Z) :
  0 <= r <= 255 -> 0 <= g <= 255 -> 0 <= b <= 255 -> valid_rgb [r; g; b].
Proof.
  intros Hr Hg Hb. split; [reflexivity|]. repeat constructor; lia.
Qed.

Lemma fraction_unit (iteration max_iter : Z) :
  0 <= iteration < max_iter ->
  (0 <= IZR iteration / IZR max_iter < 1)%R.
Proof.
  intros [H0 H1].
  assert (0 < IZR max_iter)%R by (apply IZR_lt; lia).
  assert (0 <= IZR iteration)%R by (apply IZR_le; lia).
  assert (IZR iteration < IZR max_iter)%R by (apply IZR_lt; lia).
  split.
  - apply Rmult_le_pos; [assumption|]. left. now apply Rinv_0_lt_compat.
  - apply Rmult_lt_reg_r with (IZR max_iter); [assumption|].
    unfold Rdiv. rewrite Rmult_assoc, Rinv_l by lra. lra.
Qed.

Lemma get_color_palette_valid (iteration max_iter : Z) (pal : palette) :
  0 <= iteration ->
  exists col, get_color_palette (F:=R) iteration max_iter pal = Done col
              /\ valid_rgb col.
Proof.
  intros H0. unfold get_color_palette.
  destruct (Z.leb_spec max_iter iteration) as [Hge|Hlt].
  { eexists. split; [reflexivity|]. apply valid_rgb_intro; lia. }
  pose proof (fraction_unit iteration max_iter (conj H0 Hlt)) as Ht.
  real_ops. set (t := (IZR iteration / IZR max_iter)%R) in *.
  destruct pal.
  - (* default *)
    eexists. split; [reflexivity|].
    pose proof (Rtoward_zero_range (255 * t) 254) as Hi.
    set (i := Rtoward_zero (255 * t)) in *.
    assert (0 <= i <= 254) by (apply Hi; lra).
    apply valid_rgb_intro; try lia.
    pose proof (Z.div_pos i 2). pose proof (Z.div_le_upper_bound i 2 255). lia.
  - (* fire *)
    rewrite dec_R. unfold Rltb.
    change (IZR (10 ^ 1)) with 10%R.
    destruct (Rlt_dec t (5 / 10)) as [Hh|Hh].
    + eexists. split; [reflexivity|].
      pose proof (Rtoward_zero_range (255 * (2 * t)) 254) as Hr.
      pose proof (Rtoward_zero_range (255 * (2 * t * (2 * t))) 254) as Hg.
      apply valid_rgb_intro; try lia.
      * assert (0 <= Rtoward_zero (255 * (2 * t)) <= 254) by (apply Hr; lra). lia.
      * assert (0 <= Rtoward_zero (255 * (2 * t * (2 * t))) <= 254)
          by (apply Hg; nra). lia.
    + eexists. split; [reflexivity|].
      pose proof (Rtoward_zero_range (255 * (2 * t - 1)) 254) as Hb.
      apply valid_rgb_intro; try lia.
      assert (0 <= Rtoward_zero (255 * (2 * t - 1)) <= 254) by (apply Hb; lra). lia.
  - (* ocean *)
    rewrite !dec_R. change (IZR (10 ^ 1)) with 10%R.
    eexists. split; [reflexivity|].
    pose proof (Rtoward_zero_range (t * 100) 99) as Hr.
    pose proof (Rtoward_zero_range (t * 200) 199) as Hg.
    pose proof (Rtoward_zero_range (255 * (5 / 10 + 5 / 10 * t)) 254) as Hb.
    apply valid_rgb_intro.
    + assert (0 <= Rtoward_zero (t * 100) <= 99) by (apply Hr; lra). lia.
    + assert (0 <= Rtoward_zero (t * 200) <= 199) by (apply Hg; lra). lia.
    + assert (0 <= Rtoward_zero (255 * (5 / 10 + 5 / 10 * t)) <= 254)
        by (apply Hb; lra). lia.
  - (* psychedelic *)
    eexists. split; [reflexivity|].
    assert (Hs : forall a, 0 <= Rtoward_zero (128 + 127 * sin a) <= 255).
    { intros a. apply Rtoward_zero_range. pose proof (SIN_bound a). lra. }
    apply valid_rgb_intro; apply Hs.
Qed.

Lemma julia_color_valid (iteration max_iter : Z) :
  0 <= iteration <= max_iter -> 1 <= max_iter ->
  exists col, julia_color (F:=R) iteration max_iter = Done col /\ valid_rgb col.
Proof.
  intros Hi Hm. unfold julia_color. real_ops.
  eexists. split; [reflexivity|].
  assert (0 < IZR max_iter)%R by (apply IZR_lt; lia).
  assert (0 <= IZR iteration <= IZR max_iter)%R by (split; apply IZR_le; lia).
  pose proof (Rtoward_zero_range (IZR (iteration * 255) / IZR max_iter) 255) as Hs.
  set (s := Rtoward_zero (IZR (iteration * 255) / IZR max_iter)) in *.
  assert (0 <= s <= 255).
  { apply Hs. rewrite mult_IZR. split.
    - apply Rmult_le_pos; [nra|]. left. now apply Rinv_0_lt_compat.
    - apply Rmult_lt_reg_r with (IZR max_iter); [assumption|].
      unfold Rdiv. rewrite Rmult_assoc, Rinv_l by lra. nra. }
  apply valid_rgb_intro; try lia.
  pose proof (Z.div_pos (255 - s) 2). pose proof (Z.div_le_upper_bound (255 - s) 2 255).
  lia.
Qed.

(** X6.  Over the reals the escape-time colours are always RGB triples
    pygame accepts: [get_color_palette] for every count that is not
    negative, in every palette, and the colour of [julia.draw] for every
    count up to [max_iter]. *)
Theorem escape_time_colors_valid :
  (forall (iteration max_iter : Z) (pal : palette),
      0 <= iteration ->
      exists col, get_color_palette (F:=R) iteration max_iter pal = Done col
                  /\ valid_rgb col)
  /\ (forall iteration max_iter : Z,
         0 <= iteration <= max_iter -> 1 <= max_iter ->
         exists col, julia_color (F:=R) iteration max_iter = Done col
                     /\ valid_rgb col).
Proof.
  split.
  - apply get_color_palette_valid.
  - apply julia_color_valid.
Qed.

Lemma escape_time_colors_valid_witness :
  (exists col, get_color_palette (F:=R) 3 10 PsychedelicPalette = Done col
               /\ valid_rgb col)
  /\ (exists col, julia_color (F:=R) 3 10 = Done col /\ valid_rgb col).
Proof.
  split.
  - apply (proj1 escape_time_colors_valid 3 10 PsychedelicPalette). lia.
  - apply (proj2 escape_time_colors_valid 3 10); lia.
Defined.

(** ** Escape-time renders: one call of [set_at] per pixel *)

Lemma for_each_pixels {A : Type} (l : list A)
      (body : A -> outcome (list draw_op)) (f : A -> list point) :
  (forall a, In a l -> exists o, body a = Done o /\ Forall2 sets_pixel o (f a)) ->
  exists ops, for_each l body = Done ops /\ Forall2 sets_pixel ops (flat_map f l).
Proof.
  induction l as [|a l IH]; intros Hb.
  - exists []. split; [reflexivity | constructor].
  - destruct (Hb a (or_introl eq_refl)) as (o & Eo & Fo).
    destruct (IH (fun a' Hin => Hb a' (or_intror Hin))) as (rest & Er & Fr).
    exists (o ++ rest). cbn [for_each flat_map]. rewrite Eo, Er.
    split; [reflexivity|]. now apply Forall2_app.
Qed.

Lemma for_each_pixel_line (l : list Z) (body : Z -> outcome (list draw_op))
      (p : Z -> point) :
  (forall a, In a l -> exists c, body a = Done [SetAt (p a) c] /\ valid_rgb c) ->
  exists ops, for_each l body = Done ops /\ Forall2 sets_pixel ops (map p l).
Proof.
  intros Hb.
  destruct (for_each_pixels l body (fun a => [p a])) as (ops & E & Fo).
  - intros a Ha. destruct (Hb a Ha) as (c & Ec & Vc).
    exists [SetAt (p a) c]. split; [exact Ec|].
    constructor; [|constructor]. now exists c.
  - exists ops. split; [exact E|].
    replace (map p l) with (flat_map (fun a => [p a]) l); [exact Fo|].
    clear. induction l as [|a l IH]; [reflexivity|]. cbn. now rewrite IH.
Qed.

Lemma julia_loop_returns {F : Type} `{PyFloat F} (cX cY : F) (max_iter : Z) :
  forall (fuel : nat) (zx zy : F) (n : Z),
    (Z.to_nat (max_iter - n) < fuel)%nat ->
    exists n', julia_loop fuel cX cY max_iter zx zy n = Done n'
               /\ n <= n' /\ (n' <= max_iter \/ n' = n).
Proof.
  induction fuel as [|fuel IH]; intros zx zy n Hf; [lia|].
  cbn [julia_loop].
  destruct (fltb _ (of_int 4)); cbn [andb].
  - destruct (Z.ltb_spec n max_iter) as [Hlt|Hge].
    + match goal with
      | |- context [julia_loop fuel cX cY max_iter ?a ?b (n + 1)] =>
          destruct (IH a b (n + 1)) as (n' & E & Hn & Hm); [lia|]
      end.
      exists n'. rewrite E. repeat split; lia.
    + exists n. repeat split; lia.
  - exists n. repeat split; lia.
Qed.

Lemma masked_rounds_nonneg {F : Type} `{PyFloat F} (c : complex F) :
  forall (rounds : nat) (i : Z) (z : complex F) (m : Z),
    0 <= i -> 0 <= m -> 0 <= masked_rounds rounds i c z m.
Proof.
  induction rounds as [|rounds IH]; intros i z m Hi Hm; [exact Hm|].
  cbn [masked_rounds]. destruct (fleb _ _); apply IH; lia.
Qed.

Lemma julia_draw_pixels (fuel : nat) (width height iterations : Z) :
  (Z.to_nat (julia_max_iter iterations) < fuel)%nat ->
  exists ops,
    julia_draw (F:=R) fuel width height iterations = Done ops
    /\ Forall2 sets_pixel ops (pixels_by_column width height).
Proof.
  intros Hf.
  unfold julia_draw, pixels_by_column.
  apply for_each_pixels. intros x _.
  apply for_each_pixel_line with (p := fun y => (x, y)). intros y _.
  match goal with
  | |- context [julia_loop fuel ?cx ?cy ?m ?zx ?zy 0] =>
      destruct (julia_loop_returns cx cy m fuel zx zy 0) as (n & E & Hn & Hm);
      [now rewrite Z.sub_0_r | rewrite E]
  end.
  cbn [bind].
  destruct (julia_color_valid n (julia_max_iter iterations)) as (col & Ec & Vc);
    [unfold julia_max_iter in *; lia | unfold julia_max_iter; lia |].
  rewrite Ec. cbn [bind]. now exists col.
Qed.

Lemma mandelbrot_basic_pixels (fuel : nat) (width height iterations : Z)
      (zoom ox oy : R) (pal : palette) :
  (Z.to_nat (basic_max_iter iterations) < fuel)%nat ->
  exists ops,
    mandelbrot_basic (F:=R) fuel width height iterations zoom ox oy pal = Done ops
    /\ Forall2 sets_pixel ops (pixels_by_column width height).
Proof.
  intros Hf.
  unfold mandelbrot_basic, pixels_by_column.
  destruct (region zoom ox oy) as [[[x_min x_max] y_min] y_max].
  apply for_each_pixels. intros x _.
  apply for_each_pixel_line with (p := fun y => (x, y)). intros y _.
  unfold mandelbrot_iteration.
  match goal with
  | |- context [escape_loop fuel ?c ?m ?z 0] =>
      destruct (escape_loop_returns c m fuel z 0) as (z' & n & E & Hn & Hm);
      [now rewrite Z.sub_0_r | rewrite E]
  end.
  cbn [bind snd].
  destruct (get_color_palette_valid n (basic_max_iter iterations) pal Hn)
    as (col & Ec & Vc).
  rewrite Ec. cbn [bind]. now exists col.
Qed.

Lemma mandelbrot_optimized_pixels (width height iterations : Z) (zoom ox oy : R)
      (pal : palette) :
  exists ops,
    mandelbrot_optimized (F:=R) width height iterations zoom ox oy pal = Done ops
    /\ Forall2 sets_pixel ops (pixels_by_row width height).
Proof.
  unfold mandelbrot_optimized, pixels_by_row.
  destruct (region zoom ox oy) as [[[x_min x_max] y_min] y_max].
  apply for_each_pixels. intros y _.
  apply for_each_pixel_line with (p := fun x => (x, y)). intros x _.
  match goal with
  | |- context [get_color_palette ?m ?mx pal] =>
      destruct (get_color_palette_valid m mx pal) as (col & Ec & Vc);
      [apply masked_rounds_nonneg; lia | rewrite Ec]
  end.
  cbn [bind]. now exists col.
Qed.

Lemma mandelbrot_julia_morph_pixels (fuel : nat) (width height iterations : Z)
      (morph_factor : R) :
  (Z.to_nat (morph_max_iter iterations) < fuel)%nat ->
  exists ops,
    mandelbrot_julia_morph (F:=R) fuel width height iterations morph_factor
    = Done ops
    /\ Forall2 sets_pixel ops (pixels_by_column width height).
Proof.
  intros Hf.
  unfold mandelbrot_julia_morph, pixels_by_column.
  apply for_each_pixels. intros x _.
  apply for_each_pixel_line with (p := fun y => (x, y)). intros y _.
  destruct (fltb morph_factor (dec 5 1)).
  - match goal with
    | |- context [escape_loop fuel ?c ?m ?z 0] =>
        destruct (escape_loop_returns c m fuel z 0) as (z' & n & E & Hn & Hm);
        [now rewrite Z.sub_0_r | rewrite E]
    end.
    cbn [bind snd].
    destruct (get_color_palette_valid n (morph_max_iter iterations)
                                      PsychedelicPalette Hn) as (col & Ec & Vc).
    rewrite Ec. cbn [bind]. now exists col.
  - match goal with
    | |- context [escape_loop fuel ?c ?m ?z 0] =>
        destruct (escape_loop_returns c m fuel z 0) as (z' & n & E & Hn & Hm);
        [now rewrite Z.sub_0_r | rewrite E]
    end.
    cbn [bind snd].
    destruct (get_color_palette_valid n (morph_max_iter iterations)
                                      PsychedelicPalette Hn) as (col & Ec & Vc).
    rewrite Ec. cbn [bind]. now exists col.
Qed.

(** X7.  Over the reals each escape-time render returns, given fuel above
    its iteration ceiling, and paints the raster with exactly one [set_at]
    per pixel, in loop order, each with a valid colour ([zoom] is not 0:
    Python divides by it). *)
Theorem escape_time_renders_every_pixel :
  (forall (fuel : nat) (width height iterations : Z),
      (Z.to_nat (julia_max_iter iterations) < fuel)%nat ->
      exists ops,
        julia_draw (F:=R) fuel width height iterations = Done ops
        /\ Forall2 sets_pixel ops (pixels_by_column width height))
  /\ (forall (fuel : nat) (width height iterations : Z) (zoom ox oy : R)
             (pal : palette),
         zoom <> 0%R ->
         (Z.to_nat (basic_max_iter iterations) < fuel)%nat ->
         exists ops,
           mandelbrot_basic (F:=R) fuel width height iterations zoom ox oy pal
           = Done ops
           /\ Forall2 sets_pixel ops (pixels_by_column width height))
  /\ (forall (width height iterations : Z) (zoom ox oy : R) (pal : palette),
         zoom <> 0%R ->
         exists ops,
           mandelbrot_optimized (F:=R) width height iterations zoom ox oy pal
           = Done ops
           /\ Forall2 sets_pixel ops (pixels_by_row width height))
  /\ (forall (fuel : nat) (width height iterations : Z) (morph_factor : R),
         (Z.to_nat (morph_max_iter iterations) < fuel)%nat ->
         exists ops,
           mandelbrot_julia_morph (F:=R) fuel width height iterations morph_factor
           = Done ops
           /\ Forall2 sets_pixel ops (pixels_by_column width height)).
Proof.
  split; [|split; [|split]].
  - intros. now apply julia_draw_pixels.
  - intros. now apply mandelbrot_basic_pixels.
  - intros. apply mandelbrot_optimized_pixels.
  - intros. now apply mandelbrot_julia_morph_pixels.
Qed.

Lemma escape_time_renders_every_pixel_witness :
  (exists ops,
      julia_draw (F:=R) 11 3 2 5 = Done ops
      /\ Forall2 sets_pixel ops [(0, 0); (0, 1); (1, 0); (1, 1); (2, 0); (2, 1)])
  /\ (exists ops,
         mandelbrot_basic (F:=R) 11 2 2 5 1%R 0%R 0%R FirePalette = Done ops
         /\ Forall2 sets_pixel ops [(0, 0); (0, 1); (1, 0); (1, 1)]).
Proof.
  split.
  - apply (proj1 escape_time_renders_every_pixel 11%nat 3 2 5). cbn. lia.
  - apply (proj1 (proj2 escape_time_renders_every_pixel) 11%nat 2 2 5 1%R 0%R 0%R
                 FirePalette); [lra | cbn; lia].
Defined.

(** ** Sierpinski: the recursive triangle *)

Lemma point_eqb_false (a b : point) : point_eqb a b = false -> a <> b.
Proof.
  intros E ->. unfold point_eqb in E. rewrite !Z.eqb_refl in E. discriminate.
Qed.

Lemma draw_triangle_ops {F : Type} `{PyFloat F} (width height : Z)
      (p1 p2 p3 : @fpoint F) (c : color) (filled : bool) (lw : Z)
      (ops : list draw_op) :
  draw_triangle width height p1 p2 p3 c filled lw = Done ops ->
  Forall (triangle_within width height) ops /\ (length ops <= 1)%nat.
Proof.
  unfold draw_triangle.
  destruct (round_point p1) as [a| |]; cbn [bind try_except];
    try (intros [= <-]; split; [constructor | cbn; lia]); try discriminate.
  destruct (round_point p2) as [b| |]; cbn [bind try_except];
    try (intros [= <-]; split; [constructor | cbn; lia]); try discriminate.
  destruct (round_point p3) as [d| |]; cbn [bind try_except];
    try (intros [= <-]; split; [constructor | cbn; lia]); try discriminate.
  destruct (forallb (in_range width height) [a; b; d]) eqn:Ev; cbn [andb];
    [|intros [= <-]; split; [constructor | cbn; lia]].
  destruct (point_eqb a b) eqn:Eab; cbn [negb andb];
    [intros [= <-]; split; [constructor | cbn; lia]|].
  destruct (point_eqb a d) eqn:Ead; cbn [negb andb];
    [intros [= <-]; split; [constructor | cbn; lia]|].
  destruct (point_eqb b d) eqn:Ebd; cbn [negb andb];
    [intros [= <-]; split; [constructor | cbn; lia]|].
  apply point_eqb_false in Eab, Ead, Ebd.
  assert (Hnd : NoDup [a; b; d]).
  { repeat constructor; cbn; intuition congruence. }
  destruct filled; intros [= <-]; (split; [|cbn; lia]);
    (constructor; [|constructor]); eexists _, _, _; eauto.
Qed.

Lemma sierpinski_triangle_below_zero {F : Type} `{PyFloat F} :
  forall (fuel : nat) (width height : Z) (p1 p2 p3 : @fpoint F) (depth : Z)
         (c : color) (v : variant) (min_size : F) (ops : list draw_op),
    depth < 0 ->
    sierpinski_triangle fuel width height p1 p2 p3 depth c v min_size = Done ops ->
    ops = [].
Proof.
  induction fuel as [|fuel IH]; intros width height p1 p2 p3 depth c v min_size ops Hd;
    [discriminate|].
  cbn [sierpinski_triangle].
  destruct (fltb _ min_size); [now intros [= <-]|].
  destruct (Z.eqb_spec depth 0); [lia|].
  match goal with
  | |- context [bind (sierpinski_triangle fuel ?w ?h ?a ?b ?d ?n c v min_size)] =>
      destruct (sierpinski_triangle fuel w h a b d n c v min_size) as [s1| |] eqn:E1;
      try discriminate; cbn [bind]
  end.
  match goal with
  | |- context [bind (sierpinski_triangle fuel ?w ?h ?a ?b ?d ?n c v min_size)] =>
      destruct (sierpinski_triangle fuel w h a b d n c v min_size) as [s2| |] eqn:E2;
      try discriminate; cbn [bind]
  end.
  match goal with
  | |- context [bind (sierpinski_triangle fuel ?w ?h ?a ?b ?d ?n c v min_size)] =>
      destruct (sierpinski_triangle fuel w h a b d n c v min_size) as [s3| |] eqn:E3;
      try discriminate; cbn [bind]
  end.
  intros [= <-].
  apply IH in E1, E2, E3; try lia. now subst.
Qed.

Lemma sierpinski_triangle_polygons {F : Type} `{PyFloat F} :
  forall (fuel : nat) (width height : Z) (p1 p2 p3 : @fpoint F) (depth : Z)
         (c : color) (v : variant) (min_size : F) (ops : list draw_op),
    sierpinski_triangle fuel width height p1 p2 p3 depth c v min_size = Done ops ->
    Forall (triangle_within width height) ops
    /\ Z.of_nat (length ops) <= 3 ^ depth.
Proof.
  induction fuel as [|fuel IH]; intros width height p1 p2 p3 depth c v min_size ops;
    [discriminate|].
  destruct (Z.ltb_spec depth 0) as [Hneg|Hpos].
  { intros E. apply sierpinski_triangle_below_zero in E; [|assumption]. subst.
    split; [constructor|]. cbn. apply Z.pow_nonneg. lia. }
  cbn [sierpinski_triangle].
  destruct (fltb _ min_size).
  { intros [= <-]. split; [constructor|]. cbn. apply Z.pow_nonneg. lia. }
  destruct (Z.eqb_spec depth 0) as [->|Hnz].
  - destruct v.
    + destruct (trunc_int _); [|discriminate]. cbn [raising bind].
      intros E. apply draw_triangle_ops in E. destruct E as [E1 E2].
      split; [exact E1|]. cbn. lia.
    + intros E. apply draw_triangle_ops in E. destruct E as [E1 E2].
      split; [exact E1|]. cbn. lia.
    + destruct (trunc_int _); [|discriminate]. cbn [raising bind].
      intros E. apply draw_triangle_ops in E. destruct E as [E1 E2].
      split; [exact E1|]. cbn. lia.
  - match goal with
    | |- context [bind (sierpinski_triangle fuel ?w ?h ?a ?b ?d ?n c v min_size)] =>
        destruct (sierpinski_triangle fuel w h a b d n c v min_size) as [s1| |] eqn:E1;
        try discriminate; cbn [bind]
    end.
    match goal with
    | |- context [bind (sierpinski_triangle fuel ?w ?h ?a ?b ?d ?n c v min_size)] =>
        destruct (sierpinski_triangle fuel w h a b d n c v min_size) as [s2| |] eqn:E2;
        try discriminate; cbn [bind]
    end.
    match goal with
    | |- context [bind (sierpinski_triangle fuel ?w ?h ?a ?b ?d ?n c v min_size)] =>
        destruct (sierpinski_triangle fuel w h a b d n c v min_size) as [s3| |] eqn:E3;
        try discriminate; cbn [bind]
    end.
    intros [= <-].
    apply IH in E1, E2, E3.
    destruct E1 as [F1 L1], E2 as [F2 L2], E3 as [F3 L3].
    split; [repeat (apply Forall_app; split); assumption|].
    rewrite !length_app, !Nat2Z.inj_add.
    rewrite (pow_pos_step 3 depth) by lia. lia.
Qed.

(** X8.  [sierpinski_triangle] draws only polygons on three distinct
    points of [[0,width] x [0,height]], at most
    [calculate_triangle_count(depth)] of them; [draw], up to 7 iterations,
    draws the fill and at most [3^iterations] such polygons. *)
Theorem sierpinski_triangle_polygons_bounded {F : Type} `{PyFloat F}
        {G : Generator} :
  (forall (fuel : nat) (width height : Z) (p1 p2 p3 : @fpoint F) (depth : Z)
          (c : color) (v : variant) (min_size : F) (ops : list draw_op),
      0 <= depth ->
      sierpinski_triangle fuel width height p1 p2 p3 depth c v min_size
      = Done ops ->
      Forall (triangle_within width height) ops
      /\ Z.of_nat (length ops) <= calculate_triangle_count depth)
  /\ (forall (fuel : nat) (width height iterations : Z) (g g' : gstate G)
             (ops : list draw_op),
         0 <= iterations <= 7 ->
         sierpinski_draw fuel width height iterations g = Done (ops, g') ->
         exists polygons,
           ops = Fill [0; 0; 0; 0] :: polygons
           /\ Forall (triangle_within width height) polygons
           /\ Z.of_nat (length polygons) <= 3 ^ iterations).
Proof.
  split.
  - intros fuel width height p1 p2 p3 depth c v min_size ops Hd E.
    apply sierpinski_triangle_polygons in E.
    replace (calculate_triangle_count depth) with (3 ^ depth); [exact E|].
    unfold calculate_triangle_count. now destruct (Z.eqb_spec depth 0) as [->|].
  - intros fuel width height iterations g g' ops Hi. unfold sierpinski_draw.
    destruct (Z.leb_spec iterations 7); [|lia].
    match goal with
    | |- context [sierpinski_triangle fuel ?w ?h ?a ?b ?d ?n ?c ?v ?m] =>
        destruct (sierpinski_triangle fuel w h a b d n c v m) as [s| |] eqn:E;
        try discriminate
    end.
    cbn [bind]. unfold sierpinski_info.
    destruct (Z.ltb_spec 8 iterations); [lia|].
    rewrite app_nil_r. intros [= <- <-].
    apply sierpinski_triangle_polygons in E. destruct E as [E1 E2].
    now exists s.
Qed.

Lemma sierpinski_triangle_polygons_bounded_witness :
  exists polygons,
    drawn (sierpinski_draw (F:=float) (G:=tape) 5 1000 800 1 [])
    = Done (Fill [0; 0; 0; 0] :: polygons)
    /\ Forall (triangle_within 1000 800) polygons
    /\ Z.of_nat (length polygons) <= 3 ^ 1.
Proof.
  destruct (sierpinski_draw (F:=float) (G:=tape) 5 1000 800 1 [])
    as [[ops g']| |] eqn:E; try (vm_compute in E; discriminate E).
  destruct (proj2 (sierpinski_triangle_polygons_bounded (F:=float) (G:=tape))
                  5%nat 1000 800 1 [] g' ops) as (polygons & -> & H1 & H2);
    [lia | exact E |].
  exists polygons. split; [reflexivity|]. split; assumption.
Defined.

(** ** Sierpinski: the size floor *)

Lemma fmax_Rmax (a b : R) : fmax a b = Rmax a b.
Proof.
  unfold fmax, Rmax. cbn [fltb R_PyFloat]. unfold Rltb.
  destruct (Rlt_dec a b), (Rle_dec a b); lra.
Qed.

Lemma fmax_half (a b : R) : fmax (a / 2)%R (b / 2)%R = (fmax a b / 2)%R.
Proof.
  unfold fmax. cbn [fltb R_PyFloat]. unfold Rltb.
  destruct (Rlt_dec (a / 2) (b / 2)), (Rlt_dec a b); lra.
Qed.

Lemma Rabs_half (u v : R) : u = (v / 2)%R -> Rabs u = (Rabs v / 2)%R.
Proof.
  intros ->. unfold Rabs.
  destruct (Rcase_abs (v / 2)), (Rcase_abs v); lra.
Qed.

Lemma half_R : dec (F:=R) 5 1 = (1 / 2)%R.
Proof. rewrite dec_R. change (IZR (10 ^ 1)) with 10%R. lra. Qed.

Ltac halves :=
  unfold triangle_size; cbn [fold_left fst snd]; real_ops; rewrite ?half_R;
  rewrite <- !fmax_half;
  repeat match goal with
         | |- fmax _ _ = fmax _ _ => apply f_equal2
         end;
  apply Rabs_half; lra.

(** Each of the three sub-triangles has half the size of its parent. *)
Lemma triangle_size_children (p1 p2 p3 : @fpoint R) :
  let m1 := ((fst p1 + fst p2) * dec 5 1, (snd p1 + snd p2) * dec 5 1)%py in
  let m2 := ((fst p2 + fst p3) * dec 5 1, (snd p2 + snd p3) * dec 5 1)%py in
  let m3 := ((fst p3 + fst p1) * dec 5 1, (snd p3 + snd p1) * dec 5 1)%py in
  triangle_size p1 m1 m3 = (triangle_size p1 p2 p3 / 2)%R
  /\ triangle_size m1 p2 m2 = (triangle_size p1 p2 p3 / 2)%R
  /\ triangle_size m3 m2 p3 = (triangle_size p1 p2 p3 / 2)%R.
Proof.
  cbv zeta. split; [|split]; halves.
Qed.

Lemma sierpinski_triangle_small {F : Type} `{PyFloat F} (fuel : nat)
      (width height : Z) (p1 p2 p3 : @fpoint F) (depth : Z) (c : color)
      (v : variant) (min_size : F) :
  fltb (triangle_size p1 p2 p3) min_size = true ->
  sierpinski_triangle (S fuel) width height p1 p2 p3 depth c v min_size = Done [].
Proof. intros E. cbn [sierpinski_triangle]. now rewrite E. Qed.

Lemma sierpinski_triangle_step {F : Type} `{PyFloat F} (fuel : nat)
      (width height : Z) (p1 p2 p3 : @fpoint F) (depth : Z) (c : color)
      (v : variant) (min_size : F) :
  fltb (triangle_size p1 p2 p3) min_size = false -> depth <> 0 ->
  sierpinski_triangle (S fuel) width height p1 p2 p3 depth c v min_size
  = (let m1 := ((fst p1 + fst p2) * dec 5 1, (snd p1 + snd p2) * dec 5 1)%py in
     let m2 := ((fst p2 + fst p3) * dec 5 1, (snd p2 + snd p3) * dec 5 1)%py in
     let m3 := ((fst p3 + fst p1) * dec 5 1, (snd p3 + snd p1) * dec 5 1)%py in
     s1 <- sierpinski_triangle fuel width height p1 m1 m3 (depth - 1) c v min_size ;;
     s2 <- sierpinski_triangle fuel width height m1 p2 m2 (depth - 1) c v min_size ;;
     s3 <- sierpinski_triangle fuel width height m3 m2 p3 (depth - 1) c v min_size ;;
     Done (s1 ++ s2 ++ s3)).
Proof.
  intros E Hd. cbn [sierpinski_triangle]. rewrite E.
  destruct (Z.eqb_spec depth 0); [contradiction | reflexivity].
Qed.

Lemma sierpinski_triangle_floor (width height : Z) (c : color) (v : variant)
      (min_size : R) :
  forall (k : nat) (p1 p2 p3 : @fpoint R) (depth : Z),
    depth < 0 ->
    (triangle_size p1 p2 p3 < min_size * 2 ^ k)%R ->
    sierpinski_triangle (S k) width height p1 p2 p3 depth c v min_size = Done [].
Proof.
  induction k as [|k IH]; intros p1 p2 p3 depth Hd Hs.
  - apply sierpinski_triangle_small. cbn [fltb R_PyFloat]. unfold Rltb.
    destruct (Rlt_dec _ min_size) as [_|N]; [reflexivity|].
    exfalso. apply N. cbn [pow] in Hs. lra.
  - destruct (fltb (triangle_size p1 p2 p3) min_size) eqn:E.
    + now apply sierpinski_triangle_small.
    + rewrite sierpinski_triangle_step by (assumption || lia). cbv zeta.
      destruct (triangle_size_children p1 p2 p3) as (S1 & S2 & S3).
      cbv zeta in S1, S2, S3.
      assert (Hh : (triangle_size p1 p2 p3 / 2 < min_size * 2 ^ k)%R)
        by (cbn [pow] in Hs; lra).
      rewrite !IH by (try lia; rewrite ?S1, ?S2, ?S3; exact Hh).
      reflexivity.
Qed.

Lemma draw_triangle_returns (width height : Z) (p1 p2 p3 : @fpoint R) (c : color)
      (filled : bool) (lw : Z) :
  exists ops, draw_triangle width height p1 p2 p3 c filled lw = Done ops.
Proof.
  unfold draw_triangle, round_point.
  cbn [round_int R_PyFloat raising bind try_except]. eauto.
Qed.

Lemma sierpinski_triangle_returns (width height : Z) (c : color) (v : variant)
      (min_size : R) :
  forall (fuel : nat) (p1 p2 p3 : @fpoint R) (depth : Z),
    0 <= depth -> (Z.to_nat depth < fuel)%nat ->
    exists ops,
      sierpinski_triangle fuel width height p1 p2 p3 depth c v min_size = Done ops.
Proof.
  induction fuel as [|fuel IH]; intros p1 p2 p3 depth Hd Hf; [lia|].
  cbn [sierpinski_triangle].
  destruct (fltb _ min_size); [eauto|].
  destruct (Z.eqb_spec depth 0) as [->|Hnz].
  - destruct v; cbn [trunc_int R_PyFloat raising bind]; apply draw_triangle_returns.
  - repeat match goal with
           | |- context [bind (sierpinski_triangle fuel ?w ?h ?a ?b ?d ?n c v min_size)] =>
               let E := fresh "E" in
               destruct (IH a b d n) as [? E]; [lia | lia | rewrite E; cbn [bind]]
           end.
    eauto.
Qed.

Lemma pow_2_above (a : R) : exists k : nat, (a < 2 ^ k)%R.
Proof.
  destruct (Pow_x_infinity 2 ltac:(rewrite Rabs_pos_eq; lra) (a + 1)%R) as [N HN].
  exists N. specialize (HN N (Nat.le_refl N)).
  rewrite Rabs_pos_eq in HN by (apply pow_le; lra). lra.
Qed.

(** X9.  Over the reals [sierpinski_triangle] returns for every depth when
    [min_size] is positive: a depth that is not negative is counted down
    to 0, and below zero the triangles halve until they are smaller than
    [min_size], so nothing is drawn. *)
Theorem sierpinski_triangle_terminates :
  forall (width height : Z) (p1 p2 p3 : @fpoint R) (depth : Z) (c : color)
         (v : variant) (min_size : R),
    (0 < min_size)%R ->
    exists (fuel : nat) (ops : list draw_op),
      sierpinski_triangle fuel width height p1 p2 p3 depth c v min_size = Done ops
      /\ (depth < 0 -> ops = []).
Proof.
  intros width height p1 p2 p3 depth c v min_size Hm.
  destruct (Z.ltb_spec depth 0) as [Hneg|Hpos].
  - destruct (pow_2_above (triangle_size p1 p2 p3 / min_size)) as [k Hk].
    exists (S k), []. split; [|reflexivity].
    apply sierpinski_triangle_floor; [assumption|].
    apply Rmult_lt_compat_l with (r := min_size) in Hk; [|assumption].
    replace (min_size * (triangle_size p1 p2 p3 / min_size))%R
      with (triangle_size p1 p2 p3) in Hk by (field; lra).
    exact Hk.
  - destruct (sierpinski_triangle_returns width height c v min_size
                (S (Z.to_nat depth)) p1 p2 p3 depth) as [ops E]; [lia | lia |].
    exists (S (Z.to_nat depth)), ops. split; [exact E | lia].
Qed.

Lemma sierpinski_triangle_terminates_witness :
  exists (fuel : nat) (ops : list draw_op),
    sierpinski_triangle (F:=R) fuel 800 600 (400, 50)%R (100, 550)%R (700, 550)%R
                        (-1) ColorScheme.WHITE Outline 2%R = Done ops
    /\ (-1 < 0 -> ops = []).
Proof.
  apply (sierpinski_triangle_terminates 800 600 (400, 50)%R (100, 550)%R
           (700, 550)%R (-1) ColorScheme.WHITE Outline 2%R).
  lra.
Defined.

(** ** Sierpinski: zero iterations *)

Lemma sqrt_3_bounds : (0 <= sqrt 3 <= 2)%R.
Proof.
  split; [apply sqrt_pos|].
  replace 2%R with (sqrt 4).
  - apply sqrt_le_1_alt. lra.
  - replace 4%R with (2 * 2)%R by lra. apply sqrt_square. lra.
Qed.

Lemma triangle_size_le (p1 p2 p3 : @fpoint R) (b : R) :
  (Rabs (fst p1 - fst p2) <= b)%R -> (Rabs (fst p1 - fst p3) <= b)%R ->
  (Rabs (fst p2 - fst p3) <= b)%R -> (Rabs (snd p1 - snd p2) <= b)%R ->
  (Rabs (snd p1 - snd p3) <= b)%R -> (Rabs (snd p2 - snd p3) <= b)%R ->
  (triangle_size p1 p2 p3 <= b)%R.
Proof.
  intros. unfold triangle_size. cbn [fold_left]. rewrite !fmax_Rmax.
  repeat apply Rmax_lub; assumption.
Qed.

(** X10.  With 0 iterations [draw] draws no triangle: the outer triangle
    measures 0.8 of the shorter side of the raster, below the size floor
    [max(1, min(width, height) / 3 ** 0)]; the surface keeps only the fill.
    Over the reals for every raster, and on binary64 for the raster of the
    application. *)
Theorem sierpinski_draw_zero_is_blank :
  (forall (G : Generator) (fuel : nat) (width height : Z) (g : gstate G),
      0 <= width -> 0 <= height ->
      sierpinski_draw (F:=R) (S fuel) width height 0 g
      = Done ([Fill [0; 0; 0; 0]], g))
  /\ (forall (G : Generator) (g : gstate G),
         sierpinski_draw (F:=float) 1 1000 800 0 g
         = Done ([Fill [0; 0; 0; 0]], g)).
Proof.
  split; [|intros G g; vm_compute; reflexivity].
  intros G fuel width height g Hw Hh. unfold sierpinski_draw.
  change (0 <=? 7) with true. cbv iota.
  rewrite sierpinski_triangle_small; [reflexivity|].
  assert (Hm : (0 <= IZR (Z.min width height))%R) by (apply IZR_le; lia).
  set (m := IZR (Z.min width height)) in *.
  pose proof sqrt_3_bounds as [Hs0 Hs2].
  unfold pow3. change (Z.min 0 6) with 0. change (0 <=? 0) with true. cbv iota.
  change (3 ^ 0) with 1.
  rewrite fmax_Rmax. cbn [fltb R_PyFloat]. unfold Rltb.
  destruct (Rlt_dec _ _) as [_|N]; [reflexivity|]. exfalso. apply N. clear N.
  apply Rle_lt_trans with (m * (8 / 10))%R.
  - apply triangle_size_le; cbn [fst snd]; real_ops; rewrite ?dec_R;
      change (IZR (10 ^ 1)) with 10%R; change (IZR (10 ^ 3)) with 1000%R;
      fold m;
      assert (Hp : (0 <= m * sqrt 3 <= 2 * m)%R) by nra;
      replace (m * (8 / 10) * sqrt 3)%R with (m * sqrt 3 * (8 / 10))%R by ring;
      set (q := (m * sqrt 3)%R) in *;
      apply Rabs_le; split; lra.
  - real_ops. fold m. replace (m / 1)%R with m by field.
    unfold Rmax. destruct (Rle_dec 1 m); lra.
Qed.

Lemma sierpinski_draw_zero_is_blank_witness :
  sierpinski_draw (F:=R) (G:=tape) 1 1000 800 0 [] = Done ([Fill [0; 0; 0; 0]], []).
Proof.
  apply (proj1 sierpinski_draw_zero_is_blank tape 0%nat 1000 800 []); lia.
Defined.

(** ** Sierpinski: the carpet *)

Lemma pow_3_real (depth : Z) :
  1 <= depth -> IZR (3 ^ depth) = (3 * IZR (3 ^ (depth - 1)))%R.
Proof.
  intros Hd. rewrite (pow_pos_step 3 depth) by lia. now rewrite mult_IZR.
Qed.

Lemma sierpinski_carpet_count (c : color) :
  forall (fuel : nat) (x y size : R) (depth : Z),
    0 <= depth -> (Z.to_nat depth < fuel)%nat ->
    exists ops,
      sierpinski_carpet fuel x y size depth c = Done ops
      /\ Z.of_nat (length ops)
         = (if Rltb size (2 * IZR (3 ^ depth)) then 0 else 8 ^ depth)
      /\ Forall (fun r => rect_color r = c /\ rect_width r = rect_height r
                          /\ 1 <= rect_width r) ops.
Proof.
  induction fuel as [|fuel IH]; intros x y size depth Hd Hf; [lia|].
  assert (H3 : (1 <= IZR (3 ^ depth))%R).
  { apply IZR_le. assert (0 < 3 ^ depth) by (apply Z.pow_pos_nonneg; lia). lia. }
  cbn [sierpinski_carpet]. cbn [fltb of_int R_PyFloat]. unfold Rltb at 1.
  destruct (Rlt_dec size 2) as [Hs|Hs].
  { exists []. split; [reflexivity|]. split; [|constructor].
    unfold Rltb. destruct (Rlt_dec _ _); [reflexivity | lra]. }
  destruct (Z.eqb_spec depth 0) as [->|Hnz].
  - cbn [round_int R_PyFloat raising bind]. eexists. split; [reflexivity|].
    split.
    + unfold Rltb. change (3 ^ 0) with 1.
      destruct (Rlt_dec _ _); [lra | reflexivity].
    + repeat constructor; cbn [rect_width]; lia.
  - change (range 3) with [0; 1; 2]. cbn [loop Z.eqb andb Pos.eqb].
    repeat match goal with
           | |- context [bind (sierpinski_carpet fuel ?a ?b ?s ?d c)] =>
               let o := fresh "o" in
               let E := fresh "E" in
               let L := fresh "L" in
               let V := fresh "V" in
               destruct (IH a b s d) as (o & E & L & V);
               [lia | lia | rewrite E; cbn [bind app]]
           end.
    eexists. split; [reflexivity|]. split.
    + rewrite !app_nil_r, !length_app, !Nat2Z.inj_add.
      rewrite L, L0, L1, L2, L3, L4, L5, L6.
      rewrite (pow_3_real depth) by lia.
      rewrite (pow_pos_step 8 depth) by lia.
      cbn [fdiv of_int R_PyFloat]. unfold Rltb.
      assert (0 < 8 ^ (depth - 1)) by (apply Z.pow_pos_nonneg; lia).
      destruct (Rlt_dec (size / 3) _), (Rlt_dec size _); try lra; lia.
    + rewrite !app_nil_r. repeat (apply Forall_app; split); assumption.
Qed.

(** X11.  Over the reals the carpet is drawn completely or not at all:
    every cell of depth [depth] has the side [size / 3^depth], so the call
    draws [8^depth] squares when [size >= 2 * 3^depth] and none otherwise
    (the size test stops every branch before its base case). *)
Theorem sierpinski_carpet_all_or_nothing :
  forall (fuel : nat) (x y size : R) (depth : Z) (c : color),
    0 <= depth -> (Z.to_nat depth < fuel)%nat ->
    exists ops,
      sierpinski_carpet fuel x y size depth c = Done ops
      /\ ((size < 2 * IZR (3 ^ depth))%R -> ops = [])
      /\ ((2 * IZR (3 ^ depth) <= size)%R -> Z.of_nat (length ops) = 8 ^ depth)
      /\ Forall (fun r => rect_color r = c /\ rect_width r = rect_height r
                          /\ 1 <= rect_width r) ops.
Proof.
  intros fuel x y size depth c Hd Hf.
  destruct (sierpinski_carpet_count c fuel x y size depth Hd Hf)
    as (ops & E & L & V).
  exists ops. split; [exact E|]. unfold Rltb in L.
  destruct (Rlt_dec size (2 * IZR (3 ^ depth))) as [Hlt|Hge].
  - split; [|split; [lra | exact V]].
    intros _. destruct ops; [reflexivity | cbn in L; lia].
  - split; [intros; lra|]. split; [intros _; exact L | exact V].
Qed.

Lemma sierpinski_carpet_all_or_nothing_witness :
  exists ops,
    sierpinski_carpet (F:=R) 7 0%R 0%R 600%R 6 [255; 0; 255] = Done ops
    /\ ((600 < 2 * IZR (3 ^ 6))%R -> ops = [])
    /\ ((2 * IZR (3 ^ 6) <= 600)%R -> Z.of_nat (length ops) = 8 ^ 6)
    /\ Forall (fun r => rect_color r = [255; 0; 255]
                        /\ rect_width r = rect_height r /\ 1 <= rect_width r) ops.
Proof.
  apply (sierpinski_carpet_all_or_nothing 7 0%R 0%R 600%R 6 [255; 0; 255]);
    [lia | cbn; lia].
Defined.

(** ** Sierpinski: the chaos game *)

Lemma draws_next {G : Generator} (n : nat) (g : gstate G) :
  draws n (snd (gnext G g)) = draws (S n) g.
Proof. unfold draws. now rewrite Nat.iter_succ_r. Qed.

Lemma chaos_start_draws {F : Type} `{PyFloat F} {G : Generator}
      (width height : Z) (g : gstate G) :
  snd (chaos_start (F:=F) width height g) = draws 2 g.
Proof.
  change (draws 2 g) with (snd (gnext G (snd (gnext G g)))).
  unfold chaos_start, uniform, random.
  destruct (gnext G g) as [r1 g1]. cbn [snd].
  destruct (gnext G g1) as [r2 g2]. reflexivity.
Qed.

Lemma chaos_rounds_plots {F : Type} `{PyFloat F} {G : Generator}
      (width height : Z) (vs : list (@fpoint F)) (c : color) (fade_effect : bool) :
  forall (rounds : nat) (i : Z) (p : @fpoint F) (g : gstate G)
         (ops : list draw_op) (g' : gstate G),
    chaos_rounds rounds i width height vs c fade_effect p g = Done (ops, g') ->
    g' = draws rounds g
    /\ Forall (plots_within width height c) ops
    /\ Z.of_nat (length ops) <= Z.max 0 (i + Z.of_nat rounds - Z.max i 21).
Proof.
  induction rounds as [|rounds IH]; intros i p g ops g'; cbn [chaos_rounds].
  - intros [= <- <-]. split; [reflexivity|]. split; [constructor|]. cbn. lia.
  - unfold fpoint, choice.
    destruct (gnext G g) as [r g1] eqn:Eg.
    set (q := ((fst p + fst _) * dec 5 1, (snd p + snd _) * dec 5 1)%py).
    match goal with
    | |- bind ?e _ = _ -> _ =>
        assert (Hops : forall o,
                   e = Done o ->
                   Forall (plots_within width height c) o
                   /\ Z.of_nat (length o) <= (if 20 <? i then 1 else 0));
        [|destruct e as [o| |]; try discriminate; specialize (Hops o eq_refl)]
    end.
    { intros o. destruct (20 <? i).
      - destruct (round_point q) as [[x y]| |]; try discriminate. cbn [bind].
        destruct (Z.leb_spec 0 x); destruct (Z.ltb_spec x width);
          destruct (Z.leb_spec 0 y); destruct (Z.ltb_spec y height);
          cbn [andb];
          try (intros [= <-]; split; [constructor | cbn; lia]).
        destruct (fade_effect && (i mod 3 =? 0)); intros [= <-];
          (split; [|cbn; lia]); (constructor; [|constructor]);
          exists (x, y); eexists; (split; [reflexivity|]); cbn [fst snd];
          (split; [lia|]); (split; [lia|]); eauto.
      - intros [= <-]. split; [constructor | cbn; lia]. }
    cbn [bind].
    destruct (chaos_rounds rounds (i + 1) width height vs c fade_effect q g1)
      as [[rest g2]| |] eqn:Er; try discriminate.
    cbn [bind fst snd]. intros [= <- <-].
    destruct (IH _ _ _ _ _ Er) as (Hg & Hf & Hl).
    destruct Hops as [Ho Lo].
    split; [|split].
    + rewrite Hg. rewrite <- draws_next. now rewrite Eg.
    + apply Forall_app. now split.
    + rewrite length_app, Nat2Z.inj_add.
      destruct (Z.ltb_spec 20 i); lia.
Qed.

(** X12.  Whenever the chaos game returns it has advanced the shared
    generator by exactly [iterations + 2] raw draws, and it has plotted at
    most [iterations - 21] pixels, all of them inside the raster and in the
    given colour or its faded variant. *)
Theorem chaos_game_plots_bounded {F : Type} `{PyFloat F} {G : Generator} :
  forall (width height iterations : Z) (c : color) (fade_effect : bool)
         (g : gstate G) (ops : list draw_op) (g' : gstate G),
    sierpinski_chaos_game width height iterations c fade_effect g
    = Done (ops, g') ->
    g' = draws (2 + Z.to_nat iterations) g
    /\ Forall (plots_within width height c) ops
    /\ Z.of_nat (length ops) <= Z.max 0 (iterations - 21).
Proof.
  intros width height iterations c fade_effect g ops g'.
  unfold sierpinski_chaos_game.
  pose proof (chaos_start_draws (F:=F) width height g) as Hs.
  destruct (chaos_start width height g) as [p g1]. cbn [snd] in Hs.
  intros E. apply chaos_rounds_plots in E. destruct E as (Hg & Hf & Hl).
  split; [|split; [exact Hf | lia]].
  rewrite Hg, Hs. unfold draws. rewrite Nat.add_comm. now rewrite Nat.iter_add.
Qed.

Lemma chaos_game_plots_bounded_witness :
  exists (ops : list draw_op) (g' : gstate tape),
    sierpinski_chaos_game (F:=float) (G:=tape) 800 800 25 ColorScheme.GREEN true
                          [7; 11; 1; 2; 0; 1; 2]
    = Done (ops, g')
    /\ g' = draws (G:=tape) (2 + Z.to_nat 25) [7; 11; 1; 2; 0; 1; 2]
    /\ Forall (plots_within 800 800 ColorScheme.GREEN) ops
    /\ Z.of_nat (length ops) <= Z.max 0 (25 - 21).
Proof.
  destruct (sierpinski_chaos_game (F:=float) (G:=tape) 800 800 25
              ColorScheme.GREEN true [7; 11; 1; 2; 0; 1; 2])
    as [[ops g']| |] eqn:E; try (vm_compute in E; discriminate E).
  exists ops, g'. split; [reflexivity|].
  exact (chaos_game_plots_bounded (F:=float) (G:=tape) 800 800 25
           ColorScheme.GREEN true _ ops g' E).
Defined.

(** ** The tree: how many branches *)

Lemma geometric_sum (b d : Z) :
  2 <= b -> 0 <= d ->
  (b ^ (d + 1) - 1) / (b - 1) = 1 + b * ((b ^ d - 1) / (b - 1)).
Proof.
  intros Hb Hd.
  assert (Hs : exists s, b ^ d - 1 = s * (b - 1)).
  { pattern d. apply natlike_ind; [| |exact Hd].
    - exists 0. reflexivity.
    - intros x Hx [s Hs]. exists (1 + b * s).
      rewrite Z.pow_succ_r by lia. nia. }
  destruct Hs as [s Hs].
  rewrite Hs, Z.div_mul by lia.
  replace (b ^ (d + 1) - 1) with ((1 + b * s) * (b - 1)).
  - now rewrite Z.div_mul by lia.
  - rewrite Z.pow_add_r, Z.pow_1_r by lia. nia.
Qed.

Lemma calculate_branch_count_step (depth b k : Z) :
  1 <= depth ->
  k = (if b =? 2 then 2 else Z.max 0 b) ->
  1 + k * calculate_branch_count (depth - 1) b <= calculate_branch_count depth b.
Proof.
  intros Hd ->. unfold calculate_branch_count.
  destruct (Z.leb_spec depth 0); [lia|].
  destruct (Z.ltb_spec 1 b) as [Hb|Hb].
  - replace (if b =? 2 then 2 else Z.max 0 b) with b
      by (destruct (Z.eqb_spec b 2); lia).
    destruct (Z.leb_spec (depth - 1) 0).
    + replace depth with 1 by lia. rewrite Z.pow_1_r, Z.div_same by lia. lia.
    + pose proof (geometric_sum b (depth - 1)) as Hg.
      replace (depth - 1 + 1) with depth in Hg by lia. rewrite Hg; lia.
  - destruct (Z.eqb_spec b 2); [lia|].
    destruct (Z.leb_spec (depth - 1) 0); nia.
Qed.

Lemma calculate_branch_count_nonneg (depth b : Z) :
  0 <= calculate_branch_count depth b.
Proof.
  unfold calculate_branch_count.
  destruct (Z.leb_spec depth 0); [lia|].
  destruct (Z.ltb_spec 1 b); [|lia].
  apply Z.div_pos; [|lia].
  assert (0 < b ^ depth) by (apply Z.pow_pos_nonneg; lia). lia.
Qed.

Lemma child_branches_length {F : Type} `{PyMath F} (params : TreeParameters)
      (angle : F) (depth : Z) (length : F) :
  Z.of_nat (List.length (child_branches params angle depth length))
  = (if get (branches params) 2 =? 2 then 2 else Z.max 0 (get (branches params) 2)).
Proof.
  unfold child_branches.
  destruct (Z.eqb_spec (get (branches params) 2) 2); [reflexivity|].
  rewrite length_map, range_length. lia.
Qed.

Lemma draw_branch_ops {F : Type} `{PyFloat F} (width height : Z) (c : color)
      (thickness depth : Z) (p1 p2 : @fpoint F) (ops : list draw_op) :
  1 <= thickness ->
  draw_branch width height c thickness depth p1 p2 = Done ops ->
  Forall (branch_within width height) ops /\ (List.length ops <= 2)%nat.
Proof.
  intros Ht. unfold draw_branch.
  destruct (round_point p1) as [a| |]; try discriminate.
  destruct (round_point p2) as [b| |]; try discriminate. cbn [bind].
  destruct (in_range width height a) eqn:Ea; cbn [andb];
    [|intros [= <-]; split; [constructor | cbn; lia]].
  destruct (in_range width height b) eqn:Eb;
    [|intros [= <-]; split; [constructor | cbn; lia]].
  destruct ((3 <? thickness) && (5 <? depth)); intros [= <-];
    (split; [|cbn; lia]); repeat constructor;
    eexists _, a, b, _; (split; [reflexivity|]); (split; [lia | now split]).
Qed.

Ltac nothing_drawn :=
  intros [= <-]; split;
  [constructor | change (Z.of_nat (@List.length draw_op [])) with 0; lia].

(** X13.  [draw_tree_recursive] draws only lines of positive width between
    points of [[0,width] x [0,height]], at most two for each of the
    [calculate_branch_count(depth, branches)] branches. *)
Theorem tree_branches_bounded {F : Type} `{PyMath F} :
  forall (fuel : nat) (width height : Z) (x y angle : F) (depth : Z) (length : F)
         (params : TreeParameters) (mode : color_mode) (min_branch_size : F)
         (ops : list draw_op),
    draw_tree_recursive fuel width height x y angle depth length params mode
                        min_branch_size = Done ops ->
    Forall (branch_within width height) ops
    /\ Z.of_nat (List.length ops)
       <= 2 * calculate_branch_count depth (get (branches params) 2).
Proof.
  induction fuel as [|fuel IH];
    intros width height x y angle depth length params mode mbs ops;
    [discriminate|].
  cbn [draw_tree_recursive]. unfold tree_stops.
  destruct (Z.leb_spec depth 0) as [Hle|Hgt]; cbn [orb].
  { intros [= <-]. split; [constructor|]. unfold calculate_branch_count.
    destruct (Z.leb_spec depth 0); [reflexivity | lia]. }
  pose proof (calculate_branch_count_nonneg depth (get (branches params) 2)) as Hc.
  destruct (fltb length _).
  { nothing_drawn. }
  destruct (trunc_int _) as [n|]; [|discriminate]. cbn [raising bind].
  destruct (get_branch_color depth length mode) as [c| |]; try discriminate.
  cbn [bind].
  match goal with
  | |- context [draw_branch ?w ?h ?c ?t ?d ?p ?q] =>
      destruct (draw_branch w h c t d p q) as [own| |] eqn:Eo;
      [apply draw_branch_ops in Eo; [|lia]; destruct Eo as [Fo Lo]
      |nothing_drawn
      |nothing_drawn]
  end.
  destruct (Z.ltb_spec 0 depth); [|lia].
  match goal with
  | |- context [for_each ?l ?body] =>
      destruct (for_each l body) as [rest| |] eqn:Er; try discriminate
  end.
  cbn [bind]. intros [= <-].
  apply (for_each_bounded (branch_within width height)
           (Z.to_nat (2 * calculate_branch_count (depth - 1)
                                                 (get (branches params) 2))))
    in Er.
  - destruct Er as [Fr Lr]. split; [apply Forall_app; now split|].
    rewrite length_app, Nat2Z.inj_add.
    pose proof (child_branches_length params angle depth length) as Hk.
    pose proof (calculate_branch_count_step depth (get (branches params) 2) _
                  ltac:(lia) eq_refl) as Hs.
    rewrite <- Hk in Hs.
    pose proof (calculate_branch_count_nonneg (depth - 1) (get (branches params) 2))
      as Hc'.
    apply Nat2Z.inj_le in Lr. rewrite Nat2Z.inj_mul, Z2Nat.id in Lr by lia.
    lia.
  - intros al o _ Eal. apply IH in Eal. destruct Eal as [Fa La].
    split; [exact Fa | lia].
Qed.

Lemma tree_branches_bounded_witness :
  exists ops,
    draw_tree_recursive (F:=R) 4 800 600 400%R 540%R 90%R 3 100%R CLASSIC
                        GradientMode 1%R = Done ops
    /\ Forall (branch_within 800 600) ops
    /\ Z.of_nat (List.length ops) <= 2 * calculate_branch_count 3 2.
Proof.
  destruct (tree_returns 4 800 600 400%R 540%R 90%R 3 100%R CLASSIC GradientMode 1%R)
    as [ops E]; [cbn; lia|].
  exists ops. split; [exact E|].
  exact (tree_branches_bounded (F:=R) 4 800 600 400%R 540%R 90%R 3 100%R CLASSIC
           GradientMode 1%R ops E).
Defined.

(** ** The tree: colours *)

Lemma py_nth_small {A : Type} (l : list A) (i : Z) (a : A) :
  0 <= i -> nth_error l (Z.to_nat i) = Some a -> py_nth l i = Some a.
Proof.
  intros Hi E. unfold py_nth.
  assert (Z.to_nat i < List.length l)%nat by (apply nth_error_Some; congruence).
  destruct (Z.leb_spec 0 i); [|lia].
  destruct (Z.ltb_spec i (Z.of_nat (List.length l))); [exact E | lia].
Qed.

Lemma py_nth_valid (l : list (list Z)) (i : Z) :
  0 <= i < Z.of_nat (List.length l) ->
  Forall valid_rgb l ->
  exists col, py_nth l i = Some col /\ valid_rgb col.
Proof.
  intros Hi Hl.
  destruct (nth_error l (Z.to_nat i)) as [col|] eqn:E.
  - exists col. split; [apply py_nth_small; [lia | exact E]|].
    rewrite Forall_forall in Hl. apply Hl. eapply nth_error_In; eauto.
  - apply nth_error_None in E. lia.
Qed.

Ltac all_valid := repeat constructor; cbn; lia.

(** X14.  Over the reals [get_branch_color] returns, in every colour mode,
    an RGB triple pygame accepts, for every depth of at least 1 (the depths
    at which [draw_tree_recursive] calls it) and every length that is not
    negative. *)
Theorem tree_colors_valid (depth : Z) (length : R) (mode : color_mode) :
  1 <= depth -> (0 <= length)%R ->
  exists col, get_branch_color (F:=R) depth length mode = Done col
              /\ valid_rgb col.
Proof.
  intros Hd Hl.
  assert (Hdr : (1 <= IZR depth)%R) by (apply IZR_le; lia).
  destruct mode; unfold get_branch_color; cbv zeta.
  - (* gradient *)
    real_ops. rewrite !dec_R. change (IZR (10 ^ 1)) with 10%R.
    unfold fmin. cbn [fltb R_PyFloat]. unfold Rltb.
    set (df := (IZR depth / 12)%R). set (lf := (length / 100)%R).
    assert (Hdf : (0 < df)%R) by (unfold df; lra).
    assert (Hlf : (0 <= lf)%R) by (unfold lf; lra).
    destruct (Rlt_dec (6 / 10) df) as [H6|H6];
      [|destruct (Rlt_dec (5 / 10) lf) as [H5|H5]]; cbn [orb].
    1, 2: (destruct (Rlt_dec (df + lf * (3 / 10)) 1);
           (eexists; split; [reflexivity|]);
           apply valid_rgb_intro;
           match goal with
           | |- _ <= Rtoward_zero (IZR ?k * ?b) <= _ =>
               pose proof (Rtoward_zero_range (IZR k * b) k) as Hr;
               assert (0 <= Rtoward_zero (IZR k * b) <= k) by (apply Hr; nra);
               lia
           end).
    destruct (Rlt_dec (3 / 10) df) as [H3|H3].
    + eexists. split; [reflexivity|]. apply valid_rgb_intro; lia.
    + eexists. split; [reflexivity|].
      apply valid_rgb_intro;
        match goal with
        | |- _ <= Rtoward_zero (IZR ?k * ?b) <= _ =>
            pose proof (Rtoward_zero_range (IZR k * b) k) as Hr;
            assert (0 <= Rtoward_zero (IZR k * b) <= k) by (apply Hr; nra);
            lia
        end.
  - (* spring *)
    destruct (4 <? depth).
    + eexists. split; [reflexivity|]. apply valid_rgb_intro; lia.
    + match goal with
      | |- context [py_nth ?l ?i] =>
          destruct (py_nth_valid l i) as (col & -> & V);
          [cbn [List.length]; pose proof (Z.mod_pos_bound depth 3); lia
          |all_valid|]
      end.
      now exists col.
  - (* autumn *)
    destruct (4 <? depth).
    + eexists. split; [reflexivity|]. apply valid_rgb_intro; lia.
    + real_ops.
      match goal with
      | |- context [py_nth ?l ?i] =>
          destruct (py_nth_valid l i) as (col & -> & V);
          [cbn [List.length];
           pose proof (Z.mod_pos_bound (depth + Rtoward_zero length) 6); lia
          |all_valid|]
      end.
      now exists col.
  - (* winter *)
    destruct (Z.ltb_spec 3 depth).
    + eexists. split; [reflexivity|]. apply valid_rgb_intro; lia.
    + eexists. split; [reflexivity|]. apply valid_rgb_intro; lia.
  - (* neon *)
    match goal with
    | |- context [py_nth ?l ?i] =>
        destruct (py_nth_valid l i) as (col & -> & V);
        [cbn [List.length]; pose proof (Z.mod_pos_bound depth 6); lia
        |all_valid|]
    end.
    now exists col.
  - (* fire *)
    match goal with
    | |- context [py_nth ?l ?i] =>
        destruct (py_nth_valid l i) as (col & -> & V);
        [cbn [List.length]; lia | all_valid|]
    end.
    now exists col.
  - (* default *)
    eexists. split; [reflexivity|]. all_valid.
Qed.

Lemma tree_colors_valid_witness :
  exists col, get_branch_color (F:=R) 3 63%R GradientMode = Done col
              /\ valid_rgb col.
Proof. apply (tree_colors_valid 3 63%R GradientMode); [lia | lra]. Defined.

(** ** The tree: the stochastic variant and [draw] *)

Lemma choice_member {G : Generator} {A : Type} (d : A) (l : list A)
      (g : gstate G) :
  (0 < List.length l)%nat -> In (fst (choice d l g)) l.
Proof.
  intros Hl. unfold choice. destruct (gnext G g) as [r g']. cbn [fst].
  apply nth_In.
  pose proof (Z.mod_pos_bound r (Z.of_nat (List.length l))). lia.
Qed.

Ltac split_draw :=
  match goal with
  | |- context [match ?e with pair _ _ => _ end] =>
      lazymatch e with
      | uniform _ _ _ => destruct e as [? ?]
      | random _ => destruct e as [? ?]
      | randint _ _ _ => destruct e as [? ?]
      end
  end.

Ltac finish_branches :=
  cbn [bind]; intros [= <- <-];
  split;
  [constructor; [assumption|]; repeat (apply Forall_app; split); auto
  |cbn [List.length app];
   rewrite ?Nat2Z.inj_succ, ?length_app, ?Nat2Z.inj_add; cbn [List.length]; lia].

Lemma stochastic_branches {F : Type} `{PyMath F} {G : Generator} :
  forall (fuel : nat) (x y angle : F) (depth : Z) (length randomness : F)
         (seed : option Z) (g0 : gstate G) (ops : list draw_op) (g' : gstate G),
    draw_tree_stochastic fuel x y angle depth length randomness seed g0
    = Done (ops, g') ->
    Forall (branch_of (brown_variants ++ green_variants)) ops
    /\ Z.of_nat (List.length ops) <= calculate_branch_count depth 3.
Proof.
  induction fuel as [|fuel IH];
    intros x y angle depth length randomness seed g0 ops g'; [discriminate|].
  cbn [draw_tree_stochastic].
  pose proof (calculate_branch_count_nonneg depth 3) as Hc.
  set (g := match seed with Some s => gseed G (s + depth * 100) | None => g0 end).
  clearbody g.
  destruct (Z.leb_spec depth 0) as [Hle|Hgt]; cbn [orb];
    [intros [= <- <-]; split; [constructor | cbn; lia]|].
  destruct (fltb length (of_int 2));
    [intros [= <- <-]; split; [constructor | cbn; lia]|].
  do 2 split_draw.
  match goal with
  | |- context [if 4 <? depth then choice ?d ?l1 ?g1 else choice ?d ?l2 ?g1] =>
      assert (Hcol : In (fst (if 4 <? depth then choice d l1 g1 else choice d l2 g1))
                        (brown_variants ++ green_variants))
        by (apply in_or_app; destruct (4 <? depth);
            [left | right]; apply choice_member; cbn; lia);
      destruct (if 4 <? depth then choice d l1 g1 else choice d l2 g1) as [c gc]
  end.
  cbn [fst] in Hcol.
  destruct (trunc_int _) as [n|]; [|discriminate]. cbn [raising bind].
  split_draw.
  match goal with
  | |- context [Line c _ _ ?t] =>
      assert (Ht : 1 <= t <= 8) by lia; set (thickness := t) in *; clearbody thickness
  end.
  pose proof (calculate_branch_count_step depth 3 3 ltac:(lia) eq_refl) as Hs.
  pose proof (calculate_branch_count_nonneg (depth - 1) 3) as Hc'.
  destruct (round_point (x, y)) as [a| |]; cbn [bind];
    try (intros [= <- <-]; split; [constructor | cbn; lia]).
  destruct (round_point _) as [b| |]; cbn [bind];
    try (intros [= <- <-]; split; [constructor | cbn; lia]).
  assert (Hown : branch_of (brown_variants ++ green_variants) (Line c a b thickness))
    by (exists c, a, b, thickness; auto).
  destruct (Z.ltb_spec 0 depth); [|lia].
  do 2 split_draw.
  (* left branch *)
  match goal with
  | |- context [if ?t then _ else Done ([], ?gg, 0)] => destruct t
  end.
  - split_draw.
    match goal with
    | |- context [draw_tree_stochastic fuel ?a1 ?a2 ?a3 ?a4 ?a5 ?a6 ?a7 ?a8] =>
        destruct (draw_tree_stochastic fuel a1 a2 a3 a4 a5 a6 a7 a8)
          as [[ol gl]| |] eqn:El; try discriminate; cbn [bind];
        apply IH in El; destruct El as [Fl Ll]
    end.
    split_draw.
    (* right branch *)
    match goal with
    | |- context [if ?t then _ else Done ([], ?gg, 1)] => destruct t
    end.
    + split_draw.
      match goal with
      | |- context [draw_tree_stochastic fuel ?a1 ?a2 ?a3 ?a4 ?a5 ?a6 ?a7 ?a8] =>
          destruct (draw_tree_stochastic fuel a1 a2 a3 a4 a5 a6 a7 a8)
            as [[or gr]| |] eqn:Er; try discriminate; cbn [bind];
          apply IH in Er; destruct Er as [Fr Lr]
      end.
      destruct ((2 <? depth) && (1 + 1 <? (if 6 <? depth then 3 else 2)));
        [split_draw;
         match goal with
         | |- context [if ?t then _ else Done ([], ?gg)] => destruct t
         end;
         [split_draw;
          match goal with
          | |- context [draw_tree_stochastic fuel ?a1 ?a2 ?a3 ?a4 ?a5 ?a6 ?a7 ?a8] =>
              destruct (draw_tree_stochastic fuel a1 a2 a3 a4 a5 a6 a7 a8)
                as [[oc gc']| |] eqn:Ec; try discriminate; cbn [bind];
              apply IH in Ec; destruct Ec as [Fc Lc]
          end|]|];
        finish_branches.
    + cbn [bind].
      destruct ((2 <? depth) && (1 <? (if 6 <? depth then 3 else 2)));
        [split_draw;
         match goal with
         | |- context [if ?t then _ else Done ([], ?gg)] => destruct t
         end;
         [split_draw;
          match goal with
          | |- context [draw_tree_stochastic fuel ?a1 ?a2 ?a3 ?a4 ?a5 ?a6 ?a7 ?a8] =>
              destruct (draw_tree_stochastic fuel a1 a2 a3 a4 a5 a6 a7 a8)
                as [[oc gc']| |] eqn:Ec; try discriminate; cbn [bind];
              apply IH in Ec; destruct Ec as [Fc Lc]
          end|]|];
        finish_branches.
  - cbn [bind]. split_draw.
    match goal with
    | |- context [if ?t then _ else Done ([], ?gg, 0)] => destruct t
    end.
    + split_draw.
      match goal with
      | |- context [draw_tree_stochastic fuel ?a1 ?a2 ?a3 ?a4 ?a5 ?a6 ?a7 ?a8] =>
          destruct (draw_tree_stochastic fuel a1 a2 a3 a4 a5 a6 a7 a8)
            as [[or gr]| |] eqn:Er; try discriminate; cbn [bind];
          apply IH in Er; destruct Er as [Fr Lr]
      end.
      destruct ((2 <? depth) && (0 + 1 <? (if 6 <? depth then 3 else 2)));
        [split_draw;
         match goal with
         | |- context [if ?t then _ else Done ([], ?gg)] => destruct t
         end;
         [split_draw;
          match goal with
          | |- context [draw_tree_stochastic fuel ?a1 ?a2 ?a3 ?a4 ?a5 ?a6 ?a7 ?a8] =>
              destruct (draw_tree_stochastic fuel a1 a2 a3 a4 a5 a6 a7 a8)
                as [[oc gc']| |] eqn:Ec; try discriminate; cbn [bind];
              apply IH in Ec; destruct Ec as [Fc Lc]
          end|]|];
        finish_branches.
    + cbn [bind].
      destruct ((2 <? depth) && (0 <? (if 6 <? depth then 3 else 2)));
        [split_draw;
         match goal with
         | |- context [if ?t then _ else Done ([], ?gg)] => destruct t
         end;
         [split_draw;
          match goal with
          | |- context [draw_tree_stochastic fuel ?a1 ?a2 ?a3 ?a4 ?a5 ?a6 ?a7 ?a8] =>
              destruct (draw_tree_stochastic fuel a1 a2 a3 a4 a5 a6 a7 a8)
                as [[oc gc']| |] eqn:Ec; try discriminate; cbn [bind];
              apply IH in Ec; destruct Ec as [Fc Lc]
          end|]|];
        finish_branches.
Qed.

Ltac stochastic_call IH :=
  match goal with
  | |- context [draw_tree_stochastic ?f ?a1 ?a2 ?a3 ?a4 ?a5 ?a6 ?a7 ?a8] =>
      let o := fresh "o" in
      let g := fresh "g" in
      let E := fresh "E" in
      destruct (IH a1 a2 a3 a4 a5 a6 a7 a8) as (o & g & E);
      [lia | rewrite E; cbn [bind]]
  end.

Ltac stochastic_branch IH :=
  match goal with
  | |- context [if ?t then _ else Done ([], ?gg, ?k)] =>
      destruct t; [split_draw; stochastic_call IH | cbn [bind]]
  | |- context [if ?t && ?u then _ else Done ([], ?gg)] =>
      destruct (t && u);
      [split_draw;
       match goal with
       | |- context [if ?v then _ else Done ([], ?gg')] =>
           destruct v; [split_draw; stochastic_call IH | cbn [bind]]
       end
      |cbn [bind]]
  end.

Lemma stochastic_returns {G : Generator} :
  forall (fuel : nat) (x y angle : R) (depth : Z) (length randomness : R)
         (seed : option Z) (g0 : gstate G),
    (Z.to_nat depth < fuel)%nat ->
    exists ops g',
      draw_tree_stochastic fuel x y angle depth length randomness seed g0
      = Done (ops, g').
Proof.
  induction fuel as [|fuel IH];
    intros x y angle depth length randomness seed g0 Hf; [lia|].
  cbn [draw_tree_stochastic].
  set (g := match seed with Some s => gseed G (s + depth * 100) | None => g0 end).
  clearbody g.
  destruct (Z.leb_spec depth 0) as [Hle|Hgt]; cbn [orb]; [eauto|].
  destruct (fltb length (of_int 2)); [eauto|].
  do 2 split_draw.
  match goal with
  | |- context [if 4 <? depth then choice ?d ?l1 ?g1 else choice ?d ?l2 ?g1] =>
      destruct (if 4 <? depth then choice d l1 g1 else choice d l2 g1) as [c gc]
  end.
  cbn [trunc_int R_PyFloat raising bind].
  split_draw.
  unfold round_point. cbn [round_int R_PyFloat raising bind].
  destruct (Z.ltb_spec 0 depth); [|lia].
  do 2 split_draw.
  stochastic_branch IH; split_draw; stochastic_branch IH; stochastic_branch IH;
    eauto.
Qed.

(** X15.  [draw_tree_stochastic] draws one line for each of at most
    [calculate_branch_count(depth, 3)] branches, each of thickness 1 to 8
    and in one of the eleven colours of its two palettes; over the reals
    it returns with fuel above [depth]. *)
Theorem stochastic_tree_bounded :
  (forall (F : Type) (HF : PyFloat F) (HM : PyMath F) (G : Generator)
          (fuel : nat) (x y angle : F) (depth : Z) (length randomness : F)
          (seed : option Z) (g0 : gstate G) (ops : list draw_op)
          (g' : gstate G),
      draw_tree_stochastic fuel x y angle depth length randomness seed g0
      = Done (ops, g') ->
      Forall (branch_of (brown_variants ++ green_variants)) ops
      /\ Z.of_nat (List.length ops) <= calculate_branch_count depth 3)
  /\ (forall (G : Generator) (fuel : nat) (x y angle : R) (depth : Z)
             (length randomness : R) (seed : option Z) (g0 : gstate G),
         (Z.to_nat depth < fuel)%nat ->
         exists ops g',
           draw_tree_stochastic fuel x y angle depth length randomness seed g0
           = Done (ops, g')).
Proof.
  split.
  - intros F HF HM G. apply stochastic_branches.
  - intros G. apply stochastic_returns.
Qed.

Lemma stochastic_tree_bounded_witness :
  exists ops g',
    draw_tree_stochastic (F:=R) (G:=tape) 4 400%R 540%R 90%R 3 100%R (1 / 4)%R
                         (Some 42) [] = Done (ops, g')
    /\ Forall (branch_of (brown_variants ++ green_variants)) ops
    /\ Z.of_nat (List.length ops) <= calculate_branch_count 3 3.
Proof.
  destruct (proj2 stochastic_tree_bounded tape 4%nat 400%R 540%R 90%R 3 100%R
                  (1 / 4)%R (Some 42) []) as (ops & g' & E); [cbn; lia|].
  exists ops, g'. split; [exact E|].
  exact (proj1 stochastic_tree_bounded R _ _ tape 4%nat 400%R 540%R 90%R 3 100%R
               (1 / 4)%R (Some 42) [] ops g' E).
Defined.

Lemma tree_draw_plain {G : Generator} (width height iterations : Z)
      (g : gstate G) :
  iterations <= 12 ->
  exists ops, tree_draw (F:=R) 16 width height iterations g = Done (ops, g).
Proof.
  intros Hi. unfold tree_draw.
  assert (Hrec : forall params mode,
             exists ops,
               draw_tree_recursive (F:=R) 16 width height
                 (of_int width * dec 5 1)%py (of_int height * dec 9 1)%py
                 (of_int 90)
                 iterations
                 (fmax (of_int 20) (of_int (Z.min width height) * dec 15 2)%py)
                 params mode
                 (fmax (of_int 1) (of_int (Z.min width height) / of_int 400)%py)
               = Done ops).
  { intros params mode. apply tree_returns. lia. }
  destruct (Z.leb_spec iterations 2).
  { destruct (Hrec CLASSIC DefaultMode) as [ops ->]. cbn [bind]. eauto. }
  destruct (Z.leb_spec iterations 5).
  { destruct (Hrec CLASSIC GradientMode) as [ops ->]. cbn [bind]. eauto. }
  destruct (Z.leb_spec iterations 8).
  { destruct (Hrec BUSHY SeasonalSpring) as [ops ->]. cbn [bind]. eauto. }
  destruct (Z.leb_spec iterations 12); [|lia].
  destruct (Hrec OAK SeasonalAutumn) as [ops ->]. cbn [bind]. eauto.
Qed.

(** X16.  Over the reals the tree's [draw] returns for every iteration
    count with fuel 16: the recursive variants run at depth [iterations]
    up to 12, the stochastic one at depth [min(iterations, 15)].  Up to 12
    iterations it leaves the generator as it found it. *)
Theorem tree_draw_returns {G : Generator} :
  forall (width height iterations : Z) (g : gstate G),
    exists ops g',
      tree_draw (F:=R) 16 width height iterations g = Done (ops, g')
      /\ (iterations <= 12 -> g' = g).
Proof.
  intros width height iterations g.
  destruct (Z.leb_spec iterations 12) as [Hle|Hgt].
  - destruct (tree_draw_plain width height iterations g Hle) as [ops E].
    exists ops, g. split; [exact E | reflexivity].
  - unfold tree_draw.
    destruct (Z.leb_spec iterations 2); [lia|].
    destruct (Z.leb_spec iterations 5); [lia|].
    destruct (Z.leb_spec iterations 8); [lia|].
    destruct (Z.leb_spec iterations 12); [lia|].
    match goal with
    | |- context [draw_tree_stochastic ?f ?a1 ?a2 ?a3 ?a4 ?a5 ?a6 ?a7 ?a8] =>
        destruct (stochastic_returns f a1 a2 a3 a4 a5 a6 a7 a8)
          as (ops & g' & ->); [lia|]
    end.
    cbn [bind]. eexists _, g'. split; [reflexivity | lia].
Qed.

(** ** The application: the iteration counts it can reach *)

Lemma handle_event_within_limits (s : Main.state) (e : Main.event) :
  within_limits s -> within_limits (Main.handle_event s e).
Proof.
  unfold within_limits. intros Hs.
  destruct e as [| |f|]; cbn [Main.handle_event].
  - destruct (Z.ltb_spec (Main.iterations s)
                         (Main.max_iterations (Main.selected_fractal s)));
      cbn [Main.iterations Main.selected_fractal]; lia.
  - destruct (Z.ltb_spec 0 (Main.iterations s));
      cbn [Main.iterations Main.selected_fractal]; lia.
  - cbn [Main.iterations Main.selected_fractal]. destruct f; cbn; lia.
  - exact Hs.
Qed.

Lemma run_within_limits (events : list Main.event) :
  within_limits (Main.run events).
Proof.
  unfold Main.run.
  assert (Hi : within_limits Main.initial) by (unfold within_limits; cbn; lia).
  revert Hi. generalize Main.initial.
  induction events as [|e events IH]; intros s Hs; [exact Hs|].
  cbn [fold_left]. apply IH. now apply handle_event_within_limits.
Qed.

Lemma key_up_steps (f : Main.fractal) :
  forall (k : nat) (n : Z),
    n + Z.of_nat k <= Main.max_iterations f ->
    fold_left Main.handle_event (repeat Main.K_UP k)
              {| Main.selected_fractal := f; Main.iterations := n |}
    = {| Main.selected_fractal := f; Main.iterations := n + Z.of_nat k |}.
Proof.
  induction k as [|k IH]; intros n Hn.
  - cbn. now rewrite Z.add_0_r.
  - cbn [repeat fold_left Main.handle_event Main.iterations Main.selected_fractal].
    destruct (Z.ltb_spec n (Main.max_iterations f)); [|lia].
    rewrite IH by lia. f_equal. lia.
Qed.

(** X17.  From the state [__init__] sets, every sequence of events leaves
    an iteration count between 0 and [max_iterations] of the selected
    fractal, a pair that [validate_fractal_parameters] accepts; and every
    such pair is reached by some sequence of events. *)
Theorem iterations_within_limits :
  (forall events : list Main.event,
      within_limits (Main.run events)
      /\ validate_fractal_parameters
           (Some (Main.selected_fractal (Main.run events)))
           (Main.iterations (Main.run events)) = true)
  /\ (forall s : Main.state,
         within_limits s -> exists events, Main.run events = s).
Proof.
  split.
  - intros events. pose proof (run_within_limits events) as Hw.
    split; [exact Hw|]. unfold within_limits in Hw.
    unfold validate_fractal_parameters.
    destruct (Main.selected_fractal (Main.run events));
      cbn [Main.max_iterations] in Hw;
      destruct (Z.ltb_spec (Main.iterations (Main.run events)) 0); try lia;
      match goal with
      | |- context [?l <? ?n] => destruct (Z.ltb_spec l n); [lia | reflexivity]
      end.
  - intros [f n] Hw. unfold within_limits in Hw.
    cbn [Main.iterations Main.selected_fractal] in Hw.
    exists (Main.Click f :: repeat Main.K_DOWN 3 ++ repeat Main.K_UP (Z.to_nat n)).
    unfold Main.run. cbn [fold_left]. rewrite fold_left_app.
    replace (fold_left Main.handle_event (repeat Main.K_DOWN 3)
                       (Main.handle_event Main.initial (Main.Click f)))
      with {| Main.selected_fractal := f; Main.iterations := 0 |}
      by (destruct f; reflexivity).
    rewrite key_up_steps by lia. f_equal. lia.
Qed.

Lemma chaos_rounds_returns {G : Generator} (width height : Z)
      (vs : list (@fpoint R)) (c : color) (fade_effect : bool) :
  forall (rounds : nat) (i : Z) (p : @fpoint R) (g : gstate G),
    exists ops g',
      chaos_rounds rounds i width height vs c fade_effect p g = Done (ops, g').
Proof.
  induction rounds as [|rounds IH]; intros i p g; cbn [chaos_rounds]; [eauto|].
  unfold fpoint, choice. destruct (gnext G g) as [r g1].
  match goal with
  | |- context [chaos_rounds rounds (i + 1) width height vs c fade_effect ?q g1] =>
      destruct (IH (i + 1) q g1) as (rest & g' & E); rewrite E
  end.
  destruct (20 <? i).
  - unfold round_point. cbn [round_int R_PyFloat raising bind].
    destruct (_ && _); [destruct (_ && _)|]; cbn [bind]; eauto.
  - cbn [bind]. eauto.
Qed.

Lemma sierpinski_draw_returns {G : Generator} (fuel : nat)
      (width height iterations : Z) (g : gstate G) :
  0 <= iterations -> (7 < fuel)%nat ->
  exists ops g', sierpinski_draw (F:=R) fuel width height iterations g
                 = Done (ops, g').
Proof.
  intros Hi Hf. unfold sierpinski_draw.
  destruct (Z.leb_spec iterations 7).
  - match goal with
    | |- context [sierpinski_triangle fuel ?w ?h ?a ?b ?d ?n ?c ?v ?m] =>
        destruct (sierpinski_triangle_returns w h c v m fuel a b d n) as [ops E];
        [lia | lia | rewrite E]
    end.
    cbn [bind]. eauto.
  - unfold sierpinski_chaos_game.
    destruct (chaos_start width height g) as [p g1].
    match goal with
    | |- context [chaos_rounds ?r ?i ?w ?h ?vs ?c ?f p g1] =>
        destruct (chaos_rounds_returns w h vs c f r i p g1) as (ops & g' & E);
        rewrite E
    end.
    cbn [bind]. eauto.
Qed.

(** X18.  In every state the application can reach, the call
    [fractal_func(fractal_surface, iterations)] of [render_fractal]
    returns (over the reals, on the surface of [fractal_area]): Koch is
    never asked for a negative depth, Mandelbrot always takes
    [mandelbrot_basic], and the tree never takes its stochastic variant,
    so it leaves the random generator untouched. *)
Theorem reachable_renders_return :
  forall events : list Main.event,
    let s := Main.run events in
    let n := Main.iterations s in
    match Main.selected_fractal s with
    | Main.Koch =>
        exists ops,
          koch_draw (F:=R) 8 Main.area_width Main.area_height n = Done ops
    | Main.Sierpinski =>
        forall (G : Generator) (g : gstate G),
        exists ops g',
          sierpinski_draw (F:=R) 8 Main.area_width Main.area_height n g
          = Done (ops, g')
    | Main.Mandelbrot =>
        exists pal ops,
          mandelbrot_draw_method n = Basic pal
          /\ mandelbrot_basic (F:=R) 101 Main.area_width Main.area_height n
                              1%R 0%R 0%R pal = Done ops
    | Main.Julia =>
        exists ops,
          julia_draw (F:=R) 101 Main.area_width Main.area_height n = Done ops
    | Main.Arbol =>
        forall (G : Generator) (g : gstate G),
        exists ops,
          tree_draw (F:=R) 16 Main.area_width Main.area_height n g
          = Done (ops, g)
    end.
Proof.
  intros events s n.
  pose proof (run_within_limits events) as Hw. unfold within_limits in Hw.
  fold s in Hw. fold n in Hw.
  destruct (Main.selected_fractal s); cbn [Main.max_iterations] in Hw.
  - apply koch_draw_returns; lia.
  - intros G g. apply sierpinski_draw_returns; lia.
  - assert (Hp : exists pal, mandelbrot_draw_method n = Basic pal).
    { unfold mandelbrot_draw_method.
      destruct (Z.leb_spec n 50); [eauto|].
      destruct (Z.leb_spec n 100); [eauto | lia]. }
    destruct Hp as [pal Hp].
    destruct (mandelbrot_basic_pixels 101 Main.area_width Main.area_height n
                1%R 0%R 0%R pal) as (ops & E & _).
    + unfold basic_max_iter. lia.
    + eauto.
  - destruct (julia_draw_pixels 101 Main.area_width Main.area_height n)
      as (ops & E & _).
    + unfold julia_max_iter. lia.
    + eauto.
  - intros G g. apply tree_draw_plain. lia.
Qed.

(** ** The performance monitor and the zoom *)

Lemma add_render_time_window {T : Type} :
  forall (samples held : list T),
    (length held <= PerformanceMonitor.max_samples)%nat ->
    fold_left PerformanceMonitor.add_render_time samples held
    = skipn (length (held ++ samples) - PerformanceMonitor.max_samples)
            (held ++ samples).
Proof.
  unfold PerformanceMonitor.max_samples.
  induction samples as [|a samples IH]; intros held Hl.
  - cbn [fold_left]. rewrite app_nil_r.
    replace (length held - 60)%nat with 0%nat by lia. reflexivity.
  - cbn [fold_left]. unfold PerformanceMonitor.add_render_time at 2.
    unfold PerformanceMonitor.max_samples.
    replace (held ++ a :: samples) with ((held ++ [a]) ++ samples)
      by (now rewrite <- app_assoc).
    assert (Hl' : length (held ++ [a]) = S (length held))
      by (rewrite length_app; cbn; lia).
    destruct (Nat.ltb_spec 60 (length (held ++ [a]))) as [Hlt|Hge].
    + destruct (held ++ [a]) as [|h t] eqn:Eh; [cbn in Hlt; lia|].
      cbn [tl]. cbn [length] in Hl', Hlt.
      rewrite IH by lia.
      cbn [app length]. rewrite !length_app.
      replace (S (length t + length samples) - 60)%nat
        with (S (length t + length samples - 60)) by lia.
      reflexivity.
    + rewrite IH by lia. reflexivity.
Qed.

(** X19.  [add_render_time] keeps a sliding window: after any sequence of
    samples the list [render_times] holds the last 60 of them, in order. *)
Theorem render_times_keep_last_samples {T : Type} :
  forall samples : list T,
    fold_left PerformanceMonitor.add_render_time samples []
    = skipn (length samples - PerformanceMonitor.max_samples) samples
    /\ (length (fold_left PerformanceMonitor.add_render_time samples [])
        <= PerformanceMonitor.max_samples)%nat.
Proof.
  intros samples.
  pose proof (add_render_time_window samples [] ltac:(cbn; lia)) as E.
  cbn [app] in E. split; [exact E|].
  rewrite E, length_skipn. unfold PerformanceMonitor.max_samples. lia.
Qed.

(** X20.  The zoom stays within its limits: from a scale between
    [min_scale] (0.1) and [max_scale] (50), every sequence of calls of
    [scale_factor] leaves a scale in that range, whatever the factors
    (over the reals); a call that would leave the range changes nothing. *)
Theorem scale_stays_within_limits :
  forall (factors : list R) (current_scale : R),
    (1 / 10 <= current_scale <= 50)%R ->
    (1 / 10 <= fold_left TransformManager.scale_factor factors current_scale
     <= 50)%R
    /\ (forall factor : R,
           (current_scale * factor < 1 / 10 \/ 50 < current_scale * factor)%R ->
           TransformManager.scale_factor current_scale factor = current_scale).
Proof.
  intros factors current_scale Hc. split.
  - revert current_scale Hc.
    induction factors as [|f factors IH]; intros s Hs; [exact Hs|].
    cbn [fold_left]. apply IH.
    unfold TransformManager.scale_factor, TransformManager.min_scale,
      TransformManager.max_scale.
    rewrite dec_R. change (IZR (10 ^ 1)) with 10%R.
    cbn [fleb fmul of_int R_PyFloat]. unfold Rleb.
    destruct (Rle_dec (1 / 10) (s * f)); cbn [andb]; [|exact Hs].
    destruct (Rle_dec (s * f) 50); [lra | exact Hs].
  - intros factor Hf.
    unfold TransformManager.scale_factor, TransformManager.min_scale,
      TransformManager.max_scale.
    rewrite dec_R. change (IZR (10 ^ 1)) with 10%R.
    cbn [fleb fmul of_int R_PyFloat]. unfold Rleb.
    destruct (Rle_dec (1 / 10) (current_scale * factor)); cbn [andb];
      [|reflexivity].
    destruct (Rle_dec (current_scale * factor) 50); [lra | reflexivity].
Qed.

Lemma scale_stays_within_limits_witness :
  (1 / 10
   <= fold_left TransformManager.scale_factor [11 / 10; 9 / 10; 100]%R 1%R
   <= 50)%R.
Proof.
  apply (scale_stays_within_limits [11 / 10; 9 / 10; 100]%R 1%R). lra.
Defined.

(** ** Koch: the geometry of the subdivision *)

Lemma polyline_app {P : Type} (a m b : P) (l1 l2 : list (P * P)) :
  polyline a l1 m -> polyline m l2 b -> polyline a (l1 ++ l2) b.
Proof.
  revert a. induction l1 as [|s l1 IH]; intros a H1 H2; cbn in *.
  - now subst.
  - destruct H1 as [H1 H1']. split; [exact H1|]. now apply IH.
Qed.

Lemma koch_leaves_polyline {F : Type} `{PyFloat F} :
  forall (fuel : nat) (p1 p2 : @fpoint F) (depth : Z)
         (leaves : list (@fpoint F * @fpoint F)),
    koch_leaves fuel p1 p2 depth = Done leaves ->
    polyline p1 leaves p2 /\ leaves <> [].
Proof.
  induction fuel as [|fuel IH]; intros p1 p2 depth leaves; [discriminate|].
  cbn [koch_leaves].
  destruct (depth =? 0).
  - intros [= <-]. cbn. split; [auto | discriminate].
  - destruct (koch_split p1 p2) as [[q2 q3] q4].
    destruct (koch_leaves fuel p1 q2 (depth - 1)) as [s1| |] eqn:E1;
      try discriminate.
    destruct (koch_leaves fuel q2 q3 (depth - 1)) as [s2| |] eqn:E2;
      try discriminate.
    destruct (koch_leaves fuel q3 q4 (depth - 1)) as [s3| |] eqn:E3;
      try discriminate.
    destruct (koch_leaves fuel q4 p2 (depth - 1)) as [s4| |] eqn:E4;
      try discriminate.
    cbn [bind]. intros [= <-].
    apply IH in E1, E2, E3, E4.
    destruct E1 as [C1 N1], E2 as [C2 _], E3 as [C3 _], E4 as [C4 _].
    split.
    + eapply polyline_app; [exact C1|].
      eapply polyline_app; [exact C2|].
      eapply polyline_app; [exact C3 | exact C4].
    + destruct s1; [contradiction | discriminate].
Qed.

Lemma sqrt_3_sq : (sqrt 3 * sqrt 3 = 3)%R.
Proof. apply sqrt_sqrt. lra. Qed.

Lemma segment_length_third (a b : R) :
  sqrt (a / 3 * (a / 3) + b / 3 * (b / 3))%R = (sqrt (a * a + b * b) / 3)%R.
Proof.
  apply sqrt_lem_1.
  - nra.
  - pose proof (sqrt_pos (a * a + b * b)). lra.
  - pose proof (sqrt_sqrt (a * a + b * b) ltac:(nra)). nra.
Qed.

(** One subdivision step: four segments of one third of the length. *)
Lemma koch_split_lengths (p1 p2 : @fpoint R) :
  let '(q2, q3, q4) := koch_split p1 p2 in
  let third := (segment_length (p1, p2) / 3)%R in
  segment_length (p1, q2) = third /\ segment_length (q2, q3) = third
  /\ segment_length (q3, q4) = third /\ segment_length (q4, p2) = third.
Proof.
  destruct p1 as [x1 y1], p2 as [x5 y5].
  unfold koch_split, segment_length. cbn [fst snd]. real_ops.
  rewrite !half_R.
  set (dx := ((x5 - x1) / 3)%R). set (dy := ((y5 - y1) / 3)%R).
  pose proof (segment_length_third (x5 - x1) (y5 - y1)) as Ht.
  fold dx dy in Ht. rewrite <- Ht.
  set (side := sqrt (dx * dx + dy * dy)) in *.
  assert (Hs0 : (0 <= side)%R) by apply sqrt_pos.
  assert (Hss : (side * side = dx * dx + dy * dy)%R)
    by (apply sqrt_sqrt; nra).
  pose proof sqrt_3_sq as H3. set (r3 := sqrt 3) in *.
  unfold Rltb.
  assert (Hx : (x5 = x1 + 3 * dx)%R) by (unfold dx; lra).
  assert (Hy : (y5 = y1 + 3 * dy)%R) by (unfold dy; lra).
  destruct (Rlt_dec 0 side) as [Hpos|Hzero].
  - assert (Hpx : (- (dy / side) * (side * r3 * (1 / 2)) = - dy * r3 / 2)%R)
      by (field; lra).
    assert (Hpy : (dx / side * (side * r3 * (1 / 2)) = dx * r3 / 2)%R)
      by (field; lra).
    rewrite Hpx, Hpy.
    repeat split; unfold side; f_equal; rewrite ?Hx, ?Hy; nra.
  - assert (Hz : side = 0%R) by lra.
    assert (Hd : (dx * dx + dy * dy = 0)%R) by (rewrite <- Hss, Hz; lra).
    assert (dx = 0%R) by nra. assert (dy = 0%R) by nra.
    repeat split; unfold side; f_equal; rewrite ?Hx, ?Hy; nra.
Qed.

Lemma koch_leaves_lengths :
  forall (fuel : nat) (p1 p2 : @fpoint R) (depth : Z)
         (leaves : list (@fpoint R * @fpoint R)),
    0 <= depth ->
    koch_leaves fuel p1 p2 depth = Done leaves ->
    Forall (fun s => segment_length s
                     = (segment_length (p1, p2) / IZR (3 ^ depth))%R) leaves.
Proof.
  induction fuel as [|fuel IH]; intros p1 p2 depth leaves Hd; [discriminate|].
  cbn [koch_leaves].
  destruct (Z.eqb_spec depth 0) as [->|Hnz].
  - intros [= <-]. constructor; [|constructor].
    change (3 ^ 0) with 1. lra.
  - pose proof (koch_split_lengths p1 p2) as Hl.
    destruct (koch_split p1 p2) as [[q2 q3] q4]. cbv zeta in Hl.
    destruct Hl as (L1 & L2 & L3 & L4).
    destruct (koch_leaves fuel p1 q2 (depth - 1)) as [s1| |] eqn:E1;
      try discriminate.
    destruct (koch_leaves fuel q2 q3 (depth - 1)) as [s2| |] eqn:E2;
      try discriminate.
    destruct (koch_leaves fuel q3 q4 (depth - 1)) as [s3| |] eqn:E3;
      try discriminate.
    destruct (koch_leaves fuel q4 p2 (depth - 1)) as [s4| |] eqn:E4;
      try discriminate.
    cbn [bind]. intros [= <-].
    apply IH in E1, E2, E3, E4; try lia.
    rewrite L1 in E1. rewrite L2 in E2. rewrite L3 in E3. rewrite L4 in E4.
    assert (Hp : (0 < IZR (3 ^ (depth - 1)))%R).
    { apply IZR_lt. apply Z.pow_pos_nonneg; lia. }
    assert (Hq : forall s : @fpoint R * @fpoint R,
               segment_length s
               = (segment_length (p1, p2) / 3 / IZR (3 ^ (depth - 1)))%R ->
               segment_length s = (segment_length (p1, p2) / IZR (3 ^ depth))%R).
    { intros s ->. rewrite (pow_3_real depth) by lia. field. lra. }
    repeat (apply Forall_app; split);
      (eapply Forall_impl; [exact Hq | assumption]).
Qed.

Lemma polyline_length_uniform (l : list ((R * R) * (R * R))) (len : R) :
  Forall (fun s => segment_length s = len) l ->
  polyline_length l = (IZR (Z.of_nat (length l)) * len)%R.
Proof.
  induction 1 as [|s l Hs Hl IH].
  - cbn. lra.
  - cbn [polyline_length fold_right length]. fold (polyline_length l).
    rewrite IH, Hs, Nat2Z.inj_succ, succ_IZR. lra.
Qed.

Lemma four_thirds (n : nat) :
  (IZR (4 ^ Z.of_nat n) / IZR (3 ^ Z.of_nat n) = (4 / 3) ^ n)%R.
Proof.
  induction n as [|n IH].
  - cbn. lra.
  - rewrite Nat2Z.inj_succ, !Z.pow_succ_r, !mult_IZR by lia.
    cbn [pow]. rewrite <- IH.
    assert (0 < IZR (3 ^ Z.of_nat n))%R
      by (apply IZR_lt; apply Z.pow_pos_nonneg; lia).
    field. lra.
Qed.

(** X21.  Over the reals the segments [koch_curve] reaches at depth 0 form
    one polyline from [p1] to [p2]: consecutive segments share their
    endpoint, each has the length of the initial segment divided by
    [3^depth], and their total length is
    [calculate_length(depth, initial_length)]. *)
Theorem koch_curve_is_polyline_of_thirds :
  forall (fuel : nat) (p1 p2 : @fpoint R) (depth : Z),
    0 <= depth -> (Z.to_nat depth < fuel)%nat ->
    exists leaves,
      koch_leaves fuel p1 p2 depth = Done leaves
      /\ polyline p1 leaves p2
      /\ Forall (fun s => segment_length s
                          = (segment_length (p1, p2) / IZR (3 ^ depth))%R) leaves
      /\ polyline_length leaves
         = calculate_length depth (segment_length (p1, p2)).
Proof.
  intros fuel p1 p2 depth Hd Hf.
  destruct (koch_leaves_count fuel p1 p2 depth Hd Hf) as (leaves & E & Hn).
  exists leaves. split; [exact E|].
  split; [apply (koch_leaves_polyline _ _ _ _ _ E)|].
  pose proof (koch_leaves_lengths _ _ _ _ _ Hd E) as Hl.
  split; [exact Hl|].
  rewrite (polyline_length_uniform _ _ Hl). unfold fpoint in Hn. rewrite Hn.
  unfold calculate_length.
  destruct (Z.eqb_spec depth 0) as [->|Hnz].
  - change (4 ^ 0) with 1. change (3 ^ 0) with 1. lra.
  - rewrite <- (Z2Nat.id depth) by lia.
    rewrite <- pow_powerRZ, <- four_thirds.
    assert (0 < IZR (3 ^ Z.of_nat (Z.to_nat depth)))%R
      by (apply IZR_lt; apply Z.pow_pos_nonneg; lia).
    field. lra.
Qed.

Lemma koch_curve_is_polyline_of_thirds_witness :
  exists leaves,
    koch_leaves (F:=R) 3 (0, 100)%R (300, 100)%R 2 = Done leaves
    /\ polyline (0, 100)%R leaves (300, 100)%R
    /\ Forall (fun s => segment_length s
                        = (segment_length ((0, 100), (300, 100)) / IZR (3 ^ 2))%R)
              leaves
    /\ polyline_length leaves
       = calculate_length 2 (segment_length ((0, 100), (300, 100))%R).
Proof.
  apply (koch_curve_is_polyline_of_thirds 3 (0, 100)%R (300, 100)%R 2);
    [lia | cbn; lia].
Defined.
